(** * Keysight VNA SCPI driver (py_vna.py): the stateful core

    A shallow embedding of the parts of [pyvisaVNA] that keep state over
    several round trips with the instrument: the completion barrier, the
    error-queue drain, the measurement and window catalogs, the guided
    calibration loop, the de-embed pipeline and the ECal block decode.

    The instrument is reached only through the VISA resource [self.inst];
    here it is an interface ([Link]) with a state of its own.  Every method
    of the class becomes a computation in the monad [M], which threads the
    session (instrument state and VISA timeout), can raise a
    Python exception, and records the commands it puts on the link. *)

From Stdlib Require Import ZArith List Ascii String Lia Bool Arith.
From Stdlib Require Import DecimalString DecimalPos DecimalZ.
Import ListNotations.

Local Open Scope string_scope.
Local Open Scope Z_scope.

(** ** Python built-ins used by the driver *)

Module Py.

(** Truth value of a Python int used as a flag ([if overWrite:]). *)
Definition truthy (z : Z) : bool := negb (z =? 0).

(** [str(n)] and the [{n}] of an f-string, for an int. *)
Definition str_of_Z (z : Z) : string := NilZero.string_of_int (Z.to_int z).

Definition ascii_in (c : ascii) (cs : string) : bool :=
  existsb (Ascii.eqb c) (list_ascii_of_string cs).

(** [str.isspace] on one character (code points below 256). *)
Definition is_space (c : ascii) : bool :=
  let n := nat_of_ascii c in
  ((9 <=? n) && (n <=? 13) || (28 <=? n) && (n <=? 32)
   || (n =? 133) || (n =? 160))%nat.

Fixpoint lstrip_by (p : ascii -> bool) (s : string) : string :=
  match s with
  | EmptyString => EmptyString
  | String c s' => if p c then lstrip_by p s' else s
  end.

(** Drops the longest suffix all of whose characters satisfy [p]. *)
Fixpoint rstrip_by (p : ascii -> bool) (s : string) : string :=
  match s with
  | EmptyString => EmptyString
  | String c s' =>
      match rstrip_by p s' with
      | EmptyString => if p c then EmptyString else String c EmptyString
      | r => String c r
      end
  end.

Definition strip_by (p : ascii -> bool) (s : string) : string :=
  rstrip_by p (lstrip_by p s).

(** [s.strip()], [s.rstrip()] and [s.strip(chars)]. *)
Definition strip (s : string) : string := strip_by is_space s.
Definition rstrip (s : string) : string := rstrip_by is_space s.
Definition strip_chars (chars s : string) : string :=
  strip_by (fun c => ascii_in c chars) s.

(** [s.replace(old, new)] for a one-character [old]. *)
Fixpoint replace_char (old : ascii) (new s : string) : string :=
  match s with
  | EmptyString => EmptyString
  | String c s' =>
      if Ascii.eqb c old then new ++ replace_char old new s'
      else String c (replace_char old new s')
  end.

(** [s.split(sep)] for a one-character [sep]: never the empty list. *)
Fixpoint split_on (sep : ascii) (s : string) : list string :=
  match s with
  | EmptyString => [EmptyString]
  | String c s' =>
      if Ascii.eqb c sep then EmptyString :: split_on sep s'
      else match split_on sep s' with
           | [] => [String c EmptyString]
           | t :: ts => String c t :: ts
           end
  end.

(** [s.split(sep)] for a separator of any positive length.  [skip] counts
    the characters of a separator just matched that are still to be
    passed over; [cur] is the current piece, reversed. *)
Fixpoint split_aux (sep : string) (skip : nat) (cur : list ascii)
    (s : string) : list string :=
  match s with
  | EmptyString => [string_of_list_ascii (rev cur)]
  | String c s' =>
      match skip with
      | S k => split_aux sep k cur s'
      | O =>
          if String.prefix sep s
          then string_of_list_ascii (rev cur)
               :: split_aux sep (String.length sep - 1) [] s'
          else split_aux sep 0 (c :: cur) s'
      end
  end.

Definition split_str (sep s : string) : list string := split_aux sep 0 [] s.

(** [s.lower()] on code points below 256. *)
Definition lower_ascii (c : ascii) : ascii :=
  let n := nat_of_ascii c in
  if ((65 <=? n) && (n <=? 90)
      || (192 <=? n) && (n <=? 222) && negb (n =? 215))%nat
  then ascii_of_nat (n + 32) else c.

Fixpoint lower (s : string) : string :=
  match s with
  | EmptyString => EmptyString
  | String c s' => String (lower_ascii c) (lower s')
  end.

(** [sub in s] for strings. *)
Fixpoint contains (sub s : string) : bool :=
  String.prefix sub s
  || match s with
     | EmptyString => false
     | String _ s' => contains sub s'
     end.

(** [x in xs] for a list of strings. *)
Definition str_in (x : string) (xs : list string) : bool :=
  existsb (String.eqb x) xs.

(** [int(s)]: surrounding white space, an optional sign, then decimal
    digits in which single underscores may separate digits. *)
Definition digit_val (c : ascii) : option Z :=
  let n := nat_of_ascii c in
  if ((48 <=? n) && (n <=? 57))%nat then Some (Z.of_nat n - 48) else None.

(** [digits acc prev s]: [prev] tells whether the previous character was a
    digit, which is what an underscore needs on its left. *)
Fixpoint digits (acc : Z) (prev : bool) (s : string) : option Z :=
  match s with
  | EmptyString => if prev then Some acc else None
  | String c s' =>
      match digit_val c with
      | Some d => digits (10 * acc + d) true s'
      | None =>
          if Ascii.eqb c "_" && prev
          then match s' with
               | EmptyString => None
               | String c' _ =>
                   match digit_val c' with
                   | Some _ => digits acc false s'
                   | None => None
                   end
               end
          else None
      end
  end.

Definition int_of_str (s : string) : option Z :=
  match strip s with
  | String "+" r => digits 0 false r
  | String "-" r => option_map Z.opp (digits 0 false r)
  | r => digits 0 false r
  end.

(** [range(a, b)]. *)
Definition range (a b : Z) : list Z :=
  map (fun i => a + Z.of_nat i) (seq 0 (Z.to_nat (b - a))).

(** The slice [l[lo:hi]] with Python's treatment of negative and
    out-of-range bounds. *)
Definition clamp_index (len i : Z) : Z :=
  if i <? 0 then Z.max 0 (i + len) else Z.min i len.

Definition slice {A} (lo hi : Z) (l : list A) : list A :=
  let len := Z.of_nat (List.length l) in
  let a := clamp_index len lo in
  let b := clamp_index len hi in
  firstn (Z.to_nat (b - a)) (skipn (Z.to_nat a) l).

End Py.

(** The double quote and the line feed, which SCPI replies carry. *)
Definition dq : string := String "034"%char EmptyString.
Definition nl : string := String "010"%char EmptyString.
Definition quoted (s : string) : string := dq ++ s ++ dq.


(** A Python [dict] with string keys: insertion-ordered, and assigning to a
    key that is present replaces its value in place. *)
Definition dict (V : Type) : Type := list (string * V).

Fixpoint dict_set {V} (k : string) (v : V) (d : dict V) : dict V :=
  match d with
  | [] => [(k, v)]
  | (k', v') :: d' =>
      if String.eqb k' k then (k', v) :: d' else (k', v') :: dict_set k v d'
  end.

Fixpoint dict_get {V} (k : string) (d : dict V) : option V :=
  match d with
  | [] => None
  | (k', v') :: d' => if String.eqb k' k then Some v' else dict_get k d'
  end.

(** The slices [l[::2]] and [l[1::2]]. *)
Fixpoint evens {A} (l : list A) : list A :=
  match l with
  | [] => []
  | x :: l' => x :: match l' with [] => [] | _ :: l'' => evens l'' end
  end.

Definition odds {A} (l : list A) : list A := evens (tl l).

(** ** Exceptions and the record of a run *)

(** The exceptions the driver meets; all of them derive from [Exception].
    [InstrumentErrors err] is the [Exception(err)] of [err_check]. *)
Inductive exn : Type :=
| ValueError (msg : string)
| AttributeError (msg : string)
| KeyError (key : string)
| UnboundLocalError (name : string)
| VisaIOError
| InstrumentErrors (err : list string).

(** What a run puts on the link, and the prompts the operator answers.
    Console output ([print]) is left out. *)
Inductive event : Type :=
| Write (cmd : string)
| Query (cmd : string)
| QueryBinary (cmd : string)
| Input (prompt : string).

Definition event_eq_dec (a b : event) : {a = b} + {a <> b}.
Proof. decide equality; apply string_dec. Defined.

(** Number of times the command [cmd] was written in a run. *)
Definition issued (cmd : string) (tr : list event) : nat :=
  count_occ event_eq_dec tr (Write cmd).

(** The commands written in a run, in order. *)
Fixpoint writes (tr : list event) : list string :=
  match tr with
  | [] => []
  | Write c :: tr' => c :: writes tr'
  | _ :: tr' => writes tr'
  end.

Inductive outcome (A : Type) : Type :=
| Ok (a : A)
| Raise (e : exn)
| OutOfFuel.
Arguments Ok {A} a.
Arguments Raise {A} e.
Arguments OutOfFuel {A}.

(** ** Double-precision numbers

    The driver never inspects a double beyond parsing, printing, adding,
    subtracting, halving and comparing it, so these stay abstract. *)
Class Floats : Type := {
  float : Type;
  (** [float(s)]; [None] when Python raises [ValueError]. *)
  float_of_str : string -> option float;
  (** The text an f-string gives a float. *)
  float_str : float -> string;
  float_of_Z : Z -> float;
  fadd : float -> float -> float;
  fsub : float -> float -> float;
  fdiv : float -> float -> float;
  flt : float -> float -> bool;
  complex : Type;
  (** [re + 1j * im]. *)
  cplx : float -> float -> complex
}.

(** A numeric argument: callers pass ints ([noiseBw=200]) as well as floats
    ([centerFreq=1e9]), and an f-string prints each in its own way. *)
Inductive num `{Floats} : Type :=
| Int (z : Z)
| Float (f : float).

Definition num_str `{Floats} (x : num) : string :=
  match x with
  | Int z => Py.str_of_Z z
  | Float f => float_str f
  end.

(** ** The VISA resource

    [visa_write] tells whether the link took the command ([false]: the
    write raises [VisaIOError]); a query gets the session timeout and
    answers with the reply exactly as received, or with [None] when the
    read times out. *)
Class Link `{Floats} : Type := {
  inst : Type;
  visa_write : string -> inst -> bool * inst;
  visa_query : string -> Z -> inst -> option string * inst;
  visa_query_binary : string -> Z -> inst -> option (list float) * inst
}.

(** A local time as [datetime.now(tz)] returns it. *)
Record datetime : Type := {
  year : Z; month : Z; day : Z; hour : Z; minute : Z; second : Z
}.

(** A field printed in decimal, zero-padded on the left to [width]. *)
Definition zero_pad (width : nat) (z : Z) : string :=
  let s := Py.str_of_Z z in
  string_of_list_ascii (repeat "0"%char (width - String.length s)) ++ s.

(** [strftime('%Y%m%d_%H-%M-%S')].  The year is padded to four digits; C
    libraries disagree on years below 1000, which no theorem here uses. *)
Definition strftime_stamp (t : datetime) : string :=
  zero_pad 4 (year t) ++ zero_pad 2 (month t) ++ zero_pad 2 (day t) ++ "_"
  ++ zero_pad 2 (hour t) ++ "-" ++ zero_pad 2 (minute t) ++ "-"
  ++ zero_pad 2 (second t).

Section Monad.
Context {FL : Floats} {LK : Link}.

(** [timeout] is [self.inst.timeout]. *)
Record session : Type := {
  device : inst;
  timeout : Z
}.

(** A method of the driver: given fuel for its [while] loops and a session,
    it ends with a value or an exception, or runs out of fuel. *)
Definition M (A : Type) : Type :=
  nat -> session -> outcome A * session * list event.

Definition ret {A} (a : A) : M A := fun _ s => (Ok a, s, []).

Definition bind {A B} (m : M A) (f : A -> M B) : M B :=
  fun fuel s =>
    match m fuel s with
    | (Ok a, s1, t1) => let '(r, s2, t2) := f a fuel s1 in (r, s2, (t1 ++ t2)%list)
    | (Raise e, s1, t1) => (Raise e, s1, t1)
    | (OutOfFuel, s1, t1) => (OutOfFuel, s1, t1)
    end.

Definition raise {A} (e : exn) : M A := fun _ s => (Raise e, s, []).

(** [try: m  except Exception as e: h e]. *)
Definition try_except {A} (m : M A) (h : exn -> M A) : M A :=
  fun fuel s =>
    match m fuel s with
    | (Raise e, s1, t1) => let '(r, s2, t2) := h e fuel s1 in (r, s2, (t1 ++ t2)%list)
    | r => r
    end.

Definition when (b : bool) (m : M unit) : M unit := if b then m else ret tt.

(** [self.inst.write(cmd)]. *)
Definition write (cmd : string) : M unit :=
  fun _ s =>
    let '(ok, d) := visa_write cmd (device s) in
    let s' := {| device := d; timeout := timeout s |} in
    (if ok then Ok tt else Raise VisaIOError, s', [Write cmd]).

(** [self.inst.query(cmd)]. *)
Definition query (cmd : string) : M string :=
  fun _ s =>
    let '(r, d) := visa_query cmd (timeout s) (device s) in
    let s' := {| device := d; timeout := timeout s |} in
    (match r with Some x => Ok x | None => Raise VisaIOError end,
     s', [Query cmd]).

(** [self.inst.query_binary_values(cmd, datatype='d')]. *)
Definition query_binary_values (cmd : string) : M (list float) :=
  fun _ s =>
    let '(r, d) := visa_query_binary cmd (timeout s) (device s) in
    let s' := {| device := d; timeout := timeout s |} in
    (match r with Some x => Ok x | None => Raise VisaIOError end,
     s', [QueryBinary cmd]).

Definition get_timeout : M Z := fun _ s => (Ok (timeout s), s, []).

Definition set_timeout (t : Z) : M unit :=
  fun _ s =>
    (Ok tt, {| device := device s; timeout := t |}, []).

(** [input(prompt)]. *)
Definition input (prompt : string) : M unit :=
  fun _ s => (Ok tt, s, [Input prompt]).

(** [while cond(st): st = body(st)], at most [n] rounds. *)
Fixpoint iterate {St} (n : nat) (cond : St -> bool) (body : St -> M St)
    (st : St) : M St :=
  fun fuel s =>
    if cond st then
      match n with
      | O => (OutOfFuel, s, [])
      | S n' => bind (body st) (iterate n' cond body) fuel s
      end
    else (Ok st, s, []).

Definition while {St} (cond : St -> bool) (body : St -> M St) (st : St)
  : M St :=
  fun fuel s => iterate fuel cond body st fuel s.

(** [for x in xs: body(x)]. *)
Fixpoint for_each {A} (xs : list A) (body : A -> M unit) : M unit :=
  match xs with
  | [] => ret tt
  | x :: xs' => bind (body x) (fun _ => for_each xs' body)
  end.

(** [for x in xs: st = body(x, st)], for loops that rebind locals. *)
Fixpoint for_fold {A St} (xs : list A) (body : A -> St -> M St) (st : St)
  : M St :=
  match xs with
  | [] => ret st
  | x :: xs' => bind (body x st) (for_fold xs' body)
  end.

(** A pure step that may raise. *)
Definition lift {A} (r : outcome A) : M A := fun _ s => (r, s, []).

End Monad.

Declare Scope vna_scope.
Delimit Scope vna_scope with vna.
Notation "x <- m ;; k" := (bind m (fun x => k))
  (at level 61, m at next level, right associativity) : vna_scope.
Notation "m ;; k" := (bind m (fun _ => k))
  (at level 61, right associativity) : vna_scope.
Local Open Scope vna_scope.

(** ** The driver *)

Section Driver.
Context {FL : Floats} {LK : Link}.

Local Abbreviation str := Py.str_of_Z (only parsing).

(** *** Helper functions (lines 96-200) *)

Definition no_error : string := "0," ++ quoted "No error".

(** One read of the error queue:
    [self.inst.query('syst:err?').strip().replace('+', '').replace('-', '')]. *)
Definition read_error : M string :=
  r <- query "syst:err?" ;;
  ret (Py.replace_char "-" EmptyString
         (Py.replace_char "+" EmptyString (Py.strip r))).

(** [err_check]: the loop state is the pair of locals [(temp, err)]. *)
Definition err_check : M unit :=
  temp <- read_error ;;
  st <- while (fun st => negb (String.eqb (fst st) no_error))
          (fun st =>
             let err := (snd st ++ [fst st])%list in
             temp <- read_error ;;
             ret (temp, err))
          (temp, []) ;;
  match snd st with
  | [] => ret tt
  | err => raise (InstrumentErrors err)
  end.

(** [wait_for_opc]: [tempTimeout] is [None] or an int, and [if tempTimeout:]
    takes the first branch for a nonzero int only. *)
Definition wait_for_opc (tempTimeout : option Z) : M unit :=
  match tempTimeout with
  | Some t =>
      if Py.truthy t then
        originalTimeout <- get_timeout ;;
        set_timeout t ;;
        query "*opc?" ;;
        set_timeout originalTimeout
      else
        query "*opc?" ;; ret tt
  | None => query "*opc?" ;; ret tt
  end.

(** What [get_meas_names] returns: a list, or a dict when [includeParams]. *)
Inductive meas_names : Type :=
| NameList (measNames : list string)
| NameDict (measDict : dict string).

(** The tokens of a catalog reply: [raw] stripped of double quotes and line
    feeds at both ends, then split at the commas. *)
Definition catalog_tokens (raw : string) : list string :=
  Py.split_on "," (Py.strip_chars (dq ++ nl) raw).

Definition get_meas_names (ch includeParams : Z) : M meas_names :=
  raw <- query ("calculate" ++ str ch ++ ":parameter:catalog:extended?") ;;
  let measurements := catalog_tokens raw in
  let measNames := evens measurements in
  let measParams := odds measurements in
  if Py.truthy includeParams then
    ret (NameDict
           (fold_left (fun measDict np => dict_set (fst np) (snd np) measDict)
              (combine measNames measParams) []))
  else
    ret (NameList measNames).

(** [hold_trigger] (lines 323-331). *)
Definition hold_trigger (ch : Z) : M unit :=
  write "trigger:source immediate" ;;
  write ("sense" ++ str ch ++ ":sweep:mode hold").

(** *** Placing a new trace in a window

    Every [new_*_trace] method repeats one block (lines 1321-1342 in
    [new_sparam_trace]): make sure the window is on, work out the next
    trace number of the window, feed the measurement into it. *)

(** The test [str(win) not in windows] on the reply to [display:catalog?]. *)
Definition window_absent (win : Z) (reply : string) : bool :=
  negb (Py.str_in (str win) (Py.split_on "," reply)).

Definition window_on (win : Z) : string :=
  "display:window" ++ str win ++ ":state on".

Definition ensure_window (win : Z) : M unit :=
  reply <- query "display:catalog?" ;;
  when (window_absent win reply) (write (window_on win)).

(** [nextTrace] from the reply to [display:window<win>:catalog?]. *)
Definition next_trace (reply : string) : Z :=
  let traces := Py.strip reply in
  if Py.contains "empty" (Py.lower traces) then 1
  else Z.of_nat (List.length (Py.split_on "," traces)) + 1.

Definition next_trace_slot (win : Z) : M Z :=
  reply <- query ("display:window" ++ str win ++ ":catalog?") ;;
  ret (next_trace reply).

Definition feed (win nextTrace : Z) (measName : string) : string :=
  "display:window" ++ str win ++ ":trace" ++ str nextTrace ++ ":feed "
  ++ quoted measName.

Definition feed_trace (measName : string) (win : Z) : M unit :=
  ensure_window win ;;
  nextTrace <- next_trace_slot win ;;
  write (feed win nextTrace measName).

(** [if measParam not in validParams: raise ValueError(msg)]. *)
Definition check_param (measParam : string) (validParams : list string)
    (msg : string) : M unit :=
  when (negb (Py.str_in measParam validParams)) (raise (ValueError msg)).

Definition custom_define (ch : Z) (measName class measParam : string)
  : string :=
  "calc" ++ str ch ++ ":custom:define " ++ quoted measName ++ ", "
  ++ quoted class ++ ", " ++ quoted measParam.

(** The [if modify:] branch shared by the methods that take [modify]. *)
Definition custom_modify (ch : Z) (measName measParam : string) : M unit :=
  write ("calc" ++ str ch ++ ":parameter:select " ++ quoted measName) ;;
  write ("calc" ++ str ch ++ ":custom:modify " ++ quoted measParam) ;;
  err_check.

(** [new_sparam_trace] (lines 1304-1345). *)
Definition new_sparam_trace (measName measParam : string) (win ch : Z)
  : M unit :=
  write ("calc" ++ str ch ++ ":parameter:define:extended "
         ++ quoted measName ++ ", " ++ quoted measParam) ;;
  feed_trace measName win ;;
  wait_for_opc None ;;
  err_check.

(** *** Trace creation in the application channels *)

(** [validParams] of [new_mod_trace] (lines 1410-1419). *)
Definition mod_validParams : list string :=
  ["PIn1"; "POut2"; "PModFile"; "MSig2"; "MDist2"; "MDistIR2"; "MGain21";
   "PGain21"; "MComp21"; "PGain21"; "LMatch2"; "CarrIn1"; "CarrOut2";
   "NPRIn1"; "NPROut2"; "NPRDist21"; "NPRPwrOut2"; "ACPIn1"; "ACPOut2";
   "ACPDist21"; "ACPPwrIn1"; "ACPPwrOut2"; "EVMDistEq21"; "EVMDistUn21";
   "EVMPwrIn1"; "EVMPwrOut2"; "ModFilter"; "A"; "b1"; "B"; "C"; "b3"; "D";
   "b4"; "R1"; "a1"; "R2"; "a2"; "R3"; "a3"; "R4"; "a4"; "S11"; "S21";
   "LPIn1"; "LPOut1"; "LPOut2"; "PIn2"; "POut1"; "MSig1"; "MDist1";
   "MDistIR1"; "MGain12"; "PGain12"; "MComp12"; "PGain12"; "LMatch1";
   "CarrIn2"; "CarrOut1"; "NPRIn2"; "NPROut1"; "NPRDist12"; "NPRPwrOut1";
   "ACPIn2"; "ACPOut1"; "ACPDist12"; "ACPPwrIn2"; "ACPPwrOut1";
   "EVMDistEq12"; "EVMDistUn12"; "EVMPwrIn2"; "EVMPwrOut1"].

(** [new_mod_trace] (lines 1400-1451). *)
Definition new_mod_trace (measName measParam : string) (win ch : Z)
  : M unit :=
  check_param measParam mod_validParams
    ("Invalid 'measParam': " ++ measParam
     ++ ", check measurement parameter argument.") ;;
  write (custom_define ch measName "Modulation Distortion" measParam) ;;
  feed_trace measName win ;;
  wait_for_opc None ;;
  err_check.

(** [validParams] of [new_modx_trace] (lines 2087-2096). *)
Definition modx_validParams : list string :=
  ["PIn1"; "POut1"; "POut2"; "PModFile"; "MSig2"; "MDist2"; "MDistIR2";
   "MGain21"; "PGain21"; "MComp21"; "PGain21"; "LMatch2"; "CarrIn1";
   "CarrOut2"; "NPRIn1"; "NPROut2"; "NPRDist21"; "NPRPwrOut2"; "ACPIn1";
   "ACPOut2"; "ACPDist21"; "ACPPwrIn1"; "ACPPwrOut2"; "EVMDistEq21";
   "EVMDistUn21"; "EVMPwrIn1"; "EVMPwrOut2"; "ModFilter"; "A"; "b1"; "B";
   "C"; "b3"; "D"; "b4"; "R1"; "a1"; "R2"; "a2"; "R3"; "a3"; "R4"; "a4";
   "S11"; "S21"; "LPIn1"; "LPOut1"; "LPOut2"; "PIn2"; "POut2"; "POut1";
   "MSig1"; "MDist1"; "MDistIR1"; "MGain12"; "PGain12"; "MComp12";
   "PGain12"; "LMatch1"; "CarrIn2"; "CarrOut1"; "NPRIn2"; "NPROut1";
   "NPRDist12"; "NPRPwrOut1"; "ACPIn2"; "ACPOut1"; "ACPDist12";
   "ACPPwrIn2"; "ACPPwrOut1"; "EVMDistEq12"; "EVMDistUn12"; "EVMPwrIn2";
   "EVMPwrOut1"].

(** [new_modx_trace] (lines 2076-2135). *)
Definition new_modx_trace (measName measParam : string) (modify win ch : Z)
  : M unit :=
  check_param measParam modx_validParams
    "Invalid 'measParam', check measurement parameter argument." ;;
  (if Py.truthy modify then
     custom_modify ch measName measParam
   else
     write (custom_define ch measName "Modulation Distortion Converters"
              measParam) ;;
     err_check ;;
     feed_trace measName win) ;;
  wait_for_opc None ;;
  err_check.

(** [validParams] of [new_gca_trace] (line 2204). *)
Definition gca_validParams : list string :=
  ["S21"; "S11"; "S12"; "S22"; "CompIn21"; "CompOut21"; "DeltaGain21";
   "CompGain21"; "CompS11"; "RefS21"; "CompIn12"; "CompOut12";
   "DeltaGain12"; "CompGain12"; "CompS22"; "RefS12"].

(** [new_gca_trace] (lines 2193-2237). *)
Definition new_gca_trace (measName measParam : string) (modify win ch : Z)
  : M unit :=
  check_param measParam gca_validParams
    ("Invalid 'measParam' " ++ measParam
     ++ ", check measurement parameter argument.") ;;
  if Py.truthy modify then
    custom_modify ch measName measParam
  else
    write (custom_define ch measName "Gain Compression" measParam) ;;
    feed_trace measName win ;;
    wait_for_opc None.

(** [validParams] of [new_gcax_trace] (lines 2390-2391). *)
Definition gcax_validParams : list string :=
  ["S21"; "S11"; "S12"; "S22"; "CompIn21"; "CompOut21"; "DeltaGain21";
   "CompGain21"; "CompS11"; "RefS21"; "SC21"; "SC12"; "Ipwr"; "RevIPwr";
   "Opwr"; "RevOPwr"].

(** [new_gcax_trace] (lines 2381-2418). *)
Definition new_gcax_trace (measName measParam : string) (win ch : Z)
  : M unit :=
  check_param measParam gcax_validParams
    "Invalid 'measParam', check measurement parameter argument." ;;
  write (custom_define ch measName "Gain Compression Converters"
           measParam) ;;
  feed_trace measName win ;;
  wait_for_opc None.

(** [validParams] of [new_smc_trace] (line 2670). *)
Definition smc_validParams : list string :=
  ["SC21"; "SC12"; "S11"; "S22"; "Ipwr"; "RevIPwr"; "Opwr"; "RevOPwr"].

(** [new_smc_trace] (lines 2660-2697). *)
Definition new_smc_trace (measName measParam : string) (win ch : Z)
  : M unit :=
  check_param measParam smc_validParams
    "Invalid 'measParam', check measurement parameter argument." ;;
  write (custom_define ch measName "Scalar Mixer/Converter" measParam) ;;
  feed_trace measName win ;;
  wait_for_opc None.

(** [validParams] of [new_nf_trace] (line 2736). *)
Definition nf_validParams : list string :=
  ["NF"; "ENR"; "T-Eff"; "DUTRNP"; "DUTRNPI"; "SYSRNP"; "SYSRNPI";
   "DUTNPD"; "DUTNPDI"; "SYSNPD"; "SYSNPDI"; "OvrRng"; "T-Rcvr"; "S11";
   "S21"; "S12"; "S22"; "GammaOpt"; "Rn"; "NFMin"].

(** [new_nf_trace] (lines 2725-2770). *)
Definition new_nf_trace (measName measParam : string) (modify win ch : Z)
  : M unit :=
  check_param measParam nf_validParams
    ("Invalid 'measParam' " ++ measParam
     ++ ", check measurement parameter argument.") ;;
  (if Py.truthy modify then
     custom_modify ch measName measParam
   else
     write (custom_define ch measName "Noise Figure Cold Source"
              measParam) ;;
     feed_trace measName win ;;
     wait_for_opc None) ;;
  err_check.

(** [validParams] of [new_nfx_trace] (line 2857). *)
Definition nfx_validParams : list string :=
  ["NF"; "ENR"; "T-Eff"; "DUTRNP"; "DUTRNPI"; "SYSRNP"; "SYSRNPI";
   "DUTNPD"; "DUTNPDI"; "SYSNPD"; "SYSNPDI"; "OvrRng"; "T-Rcvr"; "S11";
   "SC21"; "SC12"; "S22"; "Ipwr"; "RevIPwr"; "Opwr"; "RevOPwr"].

(** [new_nfx_trace] (lines 2846-2891). *)
Definition new_nfx_trace (measName measParam : string) (modify win ch : Z)
  : M unit :=
  check_param measParam nfx_validParams
    ("Invalid 'measParam' " ++ measParam
     ++ ", check measurement parameter argument.") ;;
  (if Py.truthy modify then
     custom_modify ch measName measParam
   else
     write (custom_define ch measName "Noise Figure Converters"
              measParam) ;;
     feed_trace measName win ;;
     wait_for_opc None) ;;
  err_check.

(** *** Sweep configuration *)

(** [x.lower() not in valid]: the validation idiom of the [configure_*]
    methods. *)
Definition check_enum (x : string) (valid : list string) (msg : string)
  : M unit :=
  when (negb (Py.str_in (Py.lower x) valid)) (raise (ValueError msg)).

(** [configure_mod_sweep] (lines 1453-1491). *)
Definition configure_mod_sweep (sweepType : string)
    (centerFreq span noiseBw power : num) (powerContext : string)
    (startPower stopPower powerPoints : num) (autoIncreaseNoiseBw ch : Z)
  : M unit :=
  let validSweepTypes := ["fixed"; "power"] in
  check_enum sweepType validSweepTypes
    "Invalid 'sweepType', must be 'fixed' or 'power'." ;;
  write ("sense" ++ str ch ++ ":distortion:sweep:type " ++ sweepType) ;;
  when (String.eqb (Py.lower sweepType) "power")
    (write ("sense" ++ str ch
            ++ ":distortion:sweep:power:carrier:ramp:level:start "
            ++ num_str startPower) ;;
     write ("sense" ++ str ch
            ++ ":distortion:sweep:power:carrier:ramp:level:stop "
            ++ num_str stopPower) ;;
     write ("sense" ++ str ch
            ++ ":distortion:sweep:power:carrier:ramp:points "
            ++ num_str powerPoints) ;;
     write ("sense" ++ str ch ++ ":distortion:sweep:power:carrier:list:nbw "
            ++ num_str noiseBw) ;;
     write ("sense" ++ str ch
            ++ ":distortion:sweep:power:carrier:ramp:nbw:auto "
            ++ str autoIncreaseNoiseBw)) ;;
  write ("sense" ++ str ch ++ ":distortion:sweep:carrier:frequency "
         ++ num_str centerFreq) ;;
  write ("sense" ++ str ch ++ ":frequency:span " ++ num_str span) ;;
  write ("sense" ++ str ch ++ ":sa:bandwidth:noise " ++ num_str noiseBw) ;;
  let validPowerContexts := ["din1"; "dout2"] in
  check_enum powerContext validPowerContexts
    "Invalid 'powerContext', must be 'din1' or 'dout2'." ;;
  write ("sense" ++ str ch ++ ":distortion:sweep:power:carrier:level:port "
         ++ powerContext) ;;
  write ("sense" ++ str ch ++ ":distortion:sweep:power:carrier:level "
         ++ num_str power) ;;
  wait_for_opc None.

(** [configure_modx_mixer] (lines 2137-2159); [inputFreq] is the reply as
    received. *)
Definition configure_modx_mixer (loFreq : num) (sideband : string) (ch : Z)
  : M unit :=
  inputFreq <- query ("sense" ++ str ch
                      ++ ":distortion:sweep:carrier:frequency?") ;;
  write ("sense" ++ str ch ++ ":mixer:input:frequency:fixed " ++ inputFreq) ;;
  write ("sense" ++ str ch ++ ":mixer:lo1:frequency:fixed "
         ++ num_str loFreq) ;;
  wait_for_opc None ;;
  let validSidebands := ["low"; "high"] in
  check_enum sideband validSidebands
    "Invalid 'sideband', must be 'low' or 'high'." ;;
  write ("sense" ++ str ch ++ ":mixer:output:frequency:sideband "
         ++ sideband) ;;
  write ("sense" ++ str ch ++ ":mixer:calculate output") ;;
  wait_for_opc None.

Definition validDetectorTypes : list string :=
  ["peak"; "average"; "sample"; "normal"; "negpeak"; "psample"; "paverage";
   "faspeak"].

(** [configure_sa_sweep] (lines 2551-2597). *)
Definition configure_sa_sweep (centerFreq span startFreq stopFreq : num)
    (numPoints resBw videoBw : num) (detectorType : string)
    (useStartStop resBwAuto videoBwAuto detectorBypass ch : Z) : M unit :=
  (if Py.truthy useStartStop then
     write ("sense" ++ str ch ++ ":frequency:start " ++ num_str startFreq) ;;
     write ("sense" ++ str ch ++ ":frequency:stop " ++ num_str stopFreq)
   else
     write ("sense" ++ str ch ++ ":frequency:center "
            ++ num_str centerFreq) ;;
     write ("sense" ++ str ch ++ ":frequency:span " ++ num_str span)) ;;
  write ("sense" ++ str ch ++ ":sweep:points " ++ num_str numPoints) ;;
  when (negb (Py.truthy resBwAuto))
    (write ("sense" ++ str ch ++ ":sa:bandwidth:resolution "
            ++ num_str resBw)) ;;
  when (negb (Py.truthy videoBwAuto))
    (write ("sense" ++ str ch ++ ":sa:bandwidth:video "
            ++ num_str videoBw)) ;;
  write ("sense" ++ str ch ++ ":sa:detector:bypass:state "
         ++ str detectorBypass) ;;
  check_enum detectorType validDetectorTypes
    "Invalid 'detectorType', must be 'peak', 'average', 'sample', 'normal', 'negpeak', 'psample', 'paverage', or 'faspeak'." ;;
  when (negb (Py.truthy detectorBypass))
    (write ("sense" ++ str ch ++ ":sa:detector:function " ++ detectorType)) ;;
  write ("sense" ++ str ch ++ ":sweep:mode hold").

(** *** Calibration (lines 690-1011) *)

(** [list_cal_sets] (lines 693-701). *)
Definition list_cal_sets : M (list string) :=
  r <- query "cset:catalog?" ;;
  ret (Py.split_on "," (Py.replace_char "034" EmptyString (Py.rstrip r))).

(** [load_cal_set] (lines 703-718). *)
Definition load_cal_set (calSet : string) (useCalSetStimulus ch : Z)
  : M unit :=
  availableCalSets <- list_cal_sets ;;
  when (negb (Py.str_in calSet availableCalSets))
    (raise (ValueError "Selected cal set does not exist.")) ;;
  write ("sense" ++ str ch ++ ":correction:cset:activate " ++ quoted calSet
         ++ ", " ++ str useCalSetStimulus) ;;
  wait_for_opc None ;;
  err_check.

Definition acquire (ch standardNumber : Z) : string :=
  "sense" ++ str ch ++ ":correction:collect:guided:acquire stan"
  ++ str standardNumber.

(** [measure_cal_standard] (lines 835-854); [blocking] is not used. *)
Definition measure_cal_standard (standardNumber blocking timeoutMs ch : Z)
  : M unit :=
  write (acquire ch standardNumber) ;;
  wait_for_opc (Some timeoutMs) ;;
  err_check.

Definition retry_prompt : string :=
  "Cal standard not connected correctly. Ensure connection is correct and press enter to try again.".

(** The [while successFlag == 0] loop of [run_cal] (lines 883-892): the
    loop state is [successFlag]. *)
Definition measure_until_success (s blocking timeoutMs ch : Z) : M Z :=
  while (fun successFlag => successFlag =? 0)
    (fun successFlag =>
       try_except
         (measure_cal_standard s blocking timeoutMs ch ;;
          ret 1)
         (fun e =>
            input retry_prompt ;;
            ret successFlag))
    0.

(** The body of the [for s in range(1, numSteps+1)] loop (lines 877-892). *)
Definition run_cal_step (blocking timeoutMs ch promptUser : Z) (s : Z)
  : M unit :=
  query ("sense" ++ str ch ++ ":correction:collect:guided:description? "
         ++ str s) ;;
  when (Py.truthy promptUser)
    (input "Press enter when connections have been made.") ;;
  measure_until_success s blocking timeoutMs ch ;;
  ret tt.

Definition save_cset (ch : Z) (fullCalSetName : string) : string :=
  "sense" ++ str ch ++ ":correction:collect:guided:save:cset "
  ++ quoted fullCalSetName.

(** Lines 895-910 of [run_cal]: name the cal set and save it.
    [rawTimestamp] is what [datetime.now(tz)] returns at that point. *)
Definition finalize (rawTimestamp : datetime) (calSetName : string)
    (calSetTimestampSuffix ch : Z) : M unit :=
  let fullCalSetName :=
    if Py.truthy calSetTimestampSuffix then
      let timestamp := strftime_stamp rawTimestamp in
      calSetName ++ "_" ++ timestamp
    else
      calSetName in
  write (save_cset ch fullCalSetName).

(** [int(s)], raising [ValueError] as Python does (the message without the
    offending text). *)
Definition int_ (s : string) : M Z :=
  match Py.int_of_str s with
  | Some z => ret z
  | None => raise (ValueError "invalid literal for int() with base 10")
  end.

(** [run_cal] (lines 856-910), with the time its one reading of the clock
    returns. *)
Definition run_cal (rawTimestamp : datetime) (calSetName : string)
    (calSetTimestampSuffix blocking timeoutMs ch promptUser : Z) : M unit :=
  write ("sense" ++ str ch ++ ":correction:collect:guided:initiate") ;;
  r <- query ("sense" ++ str ch ++ ":correction:collect:guided:steps?") ;;
  numSteps <- int_ r ;;
  for_each (Py.range 1 (numSteps + 1))
    (run_cal_step blocking timeoutMs ch promptUser) ;;
  finalize rawTimestamp calSetName calSetTimestampSuffix ch.

(** [float(self.inst.query(cmd).rstrip())]. *)
Definition query_float (cmd : string) : M float :=
  r <- query cmd ;;
  match float_of_str (Py.rstrip r) with
  | Some f => ret f
  | None => raise (ValueError "could not convert string to float")
  end.

Definition deembedChannel : Z := 200.

Definition cset_delete (finalCalset : string) : string :=
  "CSET:DELete " ++ quoted finalCalset.

Definition channel_delete : string :=
  "system:channels:delete " ++ str deembedChannel.

(** Lines 929-944: the trace that opens the scratch channel, each method
    called with its own default [measName] and [measParam]. *)
Definition scratch_trace (baseCalset : string) : M unit :=
  if Py.contains "_STD" baseCalset then
    new_sparam_trace "ReturnLoss" "S11" deembedChannel deembedChannel
  else if Py.contains "_SMC" baseCalset then
    new_smc_trace "ForwardConversion" "SC21" deembedChannel deembedChannel
  else if Py.contains "_GCA" baseCalset then
    new_gca_trace "GainAtCompression" "CompGain21" 0 deembedChannel
      deembedChannel
  else if Py.contains "_GCX" baseCalset then
    new_gcax_trace "GainAtCompression" "CompGain21" deembedChannel
      deembedChannel
  else if Py.contains "_NFA" baseCalset then
    new_nf_trace "Noise Figure" "NF" 0 deembedChannel deembedChannel
  else if Py.contains "_NFX" baseCalset then
    new_nfx_trace "Noise Figure" "NF" 0 deembedChannel deembedChannel
  else if Py.contains "_MODX" baseCalset then
    new_modx_trace "InputPower" "PIn1" 0 deembedChannel deembedChannel
  else if Py.contains "_MOD" baseCalset then
    new_mod_trace "InputPower" "PIn1" deembedChannel deembedChannel
  else ret tt.

(** [configure_mod_sweep(centerFreq=c, span=sp, ch=ch)] with the defaults of
    its other arguments. *)
Definition configure_mod_sweep_default (centerFreq span : num) (ch : Z)
  : M unit :=
  configure_mod_sweep "fixed" centerFreq span (Int 200) (Int (-30)) "din1"
    (Int (-20)) (Int (-10)) (Int 11) 0 ch.

(** Lines 948-978: the stimulus of a MODX or MOD cal set, read back from the
    cal set and applied to the scratch channel. *)
Definition scratch_stimulus (baseCalset : string) : M unit :=
  if Py.contains "MODX" baseCalset then
    loFreq <- query_float ("cset:frequency:converter? " ++ quoted baseCalset
                           ++ ", lo1, start") ;;
    inputStartFreq <- query_float ("cset:frequency:converter? "
                                   ++ quoted baseCalset ++ ", input, start") ;;
    inputStopFreq <- query_float ("cset:frequency:converter? "
                                  ++ quoted baseCalset ++ ", input, stop") ;;
    outputStartFreq <- query_float ("cset:frequency:converter? "
                                    ++ quoted baseCalset
                                    ++ ", output, start") ;;
    outputStopFreq <- query_float ("cset:frequency:converter? "
                                   ++ quoted baseCalset
                                   ++ ", output, stop") ;;
    let inputCenterFreq :=
      fdiv (fadd inputStopFreq inputStartFreq) (float_of_Z 2) in
    let inputSpan := fsub inputStopFreq inputStartFreq in
    configure_mod_sweep_default (Float inputCenterFreq) (Float inputSpan)
      deembedChannel ;;
    let sideband :=
      if flt inputStartFreq outputStartFreq then "high" else "low" in
    configure_modx_mixer (Float loFreq) sideband deembedChannel
  else if Py.contains "MOD" baseCalset then
    startFreq <- query_float ("cset:frequency:swept? " ++ quoted baseCalset
                              ++ ", start") ;;
    stopFreq <- query_float ("cset:frequency:swept? " ++ quoted baseCalset
                             ++ ", stop") ;;
    let centerFreq := fdiv (fadd stopFreq startFreq) (float_of_Z 2) in
    let span := fsub stopFreq startFreq in
    configure_mod_sweep_default (Float centerFreq) (Float span)
      deembedChannel
  else ret tt.

Definition fsim (circuit : string) (rest : string) : string :=
  "CALCulate" ++ str deembedChannel ++ ":FSIMulator:DRAFt:CIRCuit" ++ circuit
  ++ rest.

(** Lines 980-992: one fixture file per port. *)
Definition attach_fixture (circuit s2p : string) (enableExtrapolation : Z)
  : M unit :=
  write (fsim circuit ":ADD FILe, 2") ;;
  write (fsim circuit (":FILE " ++ quoted s2p)) ;;
  write (fsim circuit ":FILE:MODify NREFLect") ;;
  write (fsim circuit (":FILE:EXTRapolate " ++ str enableExtrapolation)) ;;
  write (fsim circuit (":VNA:PORTs " ++ circuit)).

(** Lines 926-1004: the [if enhancedResponse:] branch. *)
Definition compose_on_scratch_channel
    (baseCalset finalCalset portOneS2p portTwoS2p : string)
    (portOnePowerComp portTwoPowerComp enableExtrapolation : Z) : M unit :=
  scratch_trace baseCalset ;;
  load_cal_set baseCalset 1 deembedChannel ;;
  hold_trigger deembedChannel ;;
  scratch_stimulus baseCalset ;;
  attach_fixture "1" portOneS2p enableExtrapolation ;;
  attach_fixture "2" portTwoS2p enableExtrapolation ;;
  write ("CALCulate" ++ str deembedChannel ++ ":FSIMulator:APPLy") ;;
  write ("CALCulate" ++ str deembedChannel ++ ":FSIMulator:STATe 1") ;;
  when (Py.truthy portOnePowerComp)
    (write ("CALCulate" ++ str deembedChannel
            ++ ":FSIMulator:POWer:PORT1:COMPensate:STATe 1")) ;;
  when (Py.truthy portTwoPowerComp)
    (write ("CALCulate" ++ str deembedChannel
            ++ ":FSIMulator:POWer:PORT2:COMPensate:STATe 1")) ;;
  write ("SENSe" ++ str deembedChannel ++ ":CORRection:CSET:FLATten "
         ++ quoted finalCalset) ;;
  write channel_delete.

(** Lines 1005-1009: the [else] branch. *)
Definition two_stage_deembed
    (baseCalset finalCalset portOneS2p portTwoS2p : string) : M unit :=
  write ("cset:fixture:deembed " ++ quoted baseCalset ++ ","
         ++ quoted "intermediate" ++ "," ++ quoted portOneS2p ++ ",1,1,0") ;;
  wait_for_opc None ;;
  write ("cset:fixture:deembed " ++ quoted "intermediate" ++ ","
         ++ quoted finalCalset ++ "," ++ quoted portTwoS2p ++ ",2,1,0") ;;
  wait_for_opc None.

(** [deembed_calset] (lines 912-1011). *)
Definition deembed_calset
    (baseCalset finalCalset portOneS2p portTwoS2p : string)
    (enhancedResponse portOnePowerComp portTwoPowerComp : Z)
    (enableExtrapolation overWrite : Z) : M unit :=
  when (Py.truthy overWrite) (write (cset_delete finalCalset)) ;;
  (if Py.truthy enhancedResponse then
     compose_on_scratch_channel baseCalset finalCalset portOneS2p portTwoS2p
       portOnePowerComp portTwoPowerComp enableExtrapolation
   else
     two_stage_deembed baseCalset finalCalset portOneS2p portTwoS2p) ;;
  err_check.

(** *** ECal characterization data (lines 1072-1272) *)

(** [[int(r) for r in raw]]. *)
Fixpoint ints (raw : list string) : M (list Z) :=
  match raw with
  | [] => ret []
  | r :: raw' => z <- int_ r ;; zs <- ints raw' ;; ret (z :: zs)
  end.

(** [get_ecal_module_nums] (lines 1072-1087). *)
Definition get_ecal_module_nums : M (list Z) :=
  r <- query "sense:correction:ckit:ecal:list?" ;;
  let raw := Py.split_on "," (Py.replace_char "+" EmptyString (Py.strip r)) in
  modList <- ints raw ;;
  match modList with
  | [0] => raise (AttributeError "No ECal modules connected.")
  | _ => ret modList
  end.

(** [get_ecal_module_states] (lines 1089-1113). *)
Definition get_ecal_module_states (ecalNum numPorts : Z) : M (dict Z) :=
  portPaths <-
    (if numPorts =? 2 then ret ["a"; "b"; "ab"]
     else if numPorts =? 4 then
       ret ["a"; "b"; "ab"; "c"; "d"; "ac"; "ad"; "bc"; "bd"; "cd"]
     else raise (ValueError "Invalid 'numPorts', must be 2 or 4")) ;;
  for_fold portPaths
    (fun p stateDict =>
       r <- query ("sense:correction:ckit:ecal" ++ str ecalNum
                   ++ ":path:count? " ++ p) ;;
       numStates <- int_ (Py.replace_char "+" EmptyString (Py.strip r)) ;;
       ret (dict_set p numStates stateDict))
    [].

(** [key, value = r.split(': ')]: exactly two pieces, or [ValueError]. *)
Definition key_value (r : string) : M (string * string) :=
  match Py.split_str ": " r with
  | [key; value] => ret (key, value)
  | _ => raise (ValueError "wrong number of values to unpack")
  end.

(** [get_individual_ecal_info] (lines 1115-1142). *)
Definition get_individual_ecal_info (ecalNum : Z)
  : M (dict (dict string)) :=
  r <- query ("sense:correction:ckit:ecal" ++ str ecalNum ++ ":clist?") ;;
  let charNum :=
    Py.split_on "," (Py.replace_char "+" EmptyString (Py.strip r)) in
  for_fold charNum
    (fun c ecalInfoDict =>
       r <- query ("sense:correction:ckit:ecal" ++ str ecalNum
                   ++ ":information? char" ++ c) ;;
       let raw :=
         Py.split_str ", " (Py.replace_char "034" EmptyString (Py.strip r)) in
       rawDict <- for_fold raw
                    (fun r rawDict =>
                       kv <- key_value r ;;
                       ret (dict_set (fst kv) (snd kv) rawDict))
                    [] ;;
       ret (dict_set ("Char" ++ c) rawDict ecalInfoDict))
    [].

(** [d[k]], raising [KeyError]. *)
Definition item {V} (d : dict V) (k : string) : M V :=
  match dict_get k d with
  | Some v => ret v
  | None => raise (KeyError k)
  end.

(** [re + 1j * im] on one-dimensional arrays, with numpy's broadcasting:
    equal lengths pair up, a length-one array is stretched, anything else
    raises [ValueError]. *)
Definition np_add_j (re im : list float) : outcome (list complex) :=
  if (List.length re =? List.length im)%nat then
    Ok (map (fun p => cplx (fst p) (snd p)) (combine re im))
  else
    match re, im with
    | [r], _ => Ok (map (cplx r) im)
    | _, [i] => Ok (map (fun r => cplx r i) re)
    | _, _ => Raise (ValueError "operands could not be broadcast together")
    end.

Definition and_then {A B} (r : outcome A) (f : A -> outcome B) : outcome B :=
  match r with
  | Ok a => f a
  | Raise e => Raise e
  | OutOfFuel => OutOfFuel
  end.

(** Lines 1244-1257: one raw block cut into runs of [numPoints] values.
    The result is the pair [(freq, s11)]; on path [ab] the other three
    parameters are computed as well and dropped. *)
Definition decode_block (path : string) (numPoints : Z) (raw : list float)
  : outcome (list float * list complex) :=
  let run (k : Z) := Py.slice (k * numPoints) ((k + 1) * numPoints) raw in
  let freq := Py.slice 0 numPoints raw in
  and_then (np_add_j (run 1) (run 2)) (fun s11 =>
  if String.eqb path "ab" then
    and_then (np_add_j (run 3) (run 4)) (fun s12 =>
    and_then (np_add_j (run 5) (run 6)) (fun s21 =>
    and_then (np_add_j (run 7) (run 8)) (fun s22 =>
    Ok (freq, s11))))
  else Ok (freq, s11)).

(** [get_ecal_sparam_data] (lines 1190-1272) at its default [debug=0]; the
    debug branch only plots.  The loop state is the pair of locals
    [(freq, s11)], unbound until a block has been decoded. *)
Definition get_ecal_sparam_data (ecalNum char : Z)
  : M (list float * list complex) :=
  nums <- get_ecal_module_nums ;;
  when (negb (existsb (Z.eqb ecalNum) nums))
    (raise (ValueError
       (quoted "ecalNum"
        ++ " referencing an ECal outside of range of connected ECals."))) ;;
  pathDict <- get_ecal_module_states ecalNum 2 ;;
  infoDict <- get_individual_ecal_info ecalNum ;;
  write "format:border swap" ;;
  write "format real,64" ;;
  charInfo <- item infoDict ("Char" ++ str char) ;;
  points <- item charInfo "NumberOfPoints" ;;
  numPoints <- int_ points ;;
  last <- for_fold pathDict
            (fun entry last =>
               let path := fst entry in
               let stateValue := snd entry in
               for_fold (Py.range 0 stateValue)
                 (fun state _ =>
                    raw <- query_binary_values
                             ("sense:correction:ckit:ecal" ++ str ecalNum
                              ++ ":path:data? " ++ path ++ "," ++ str state
                              ++ ",char" ++ str char) ;;
                    block <- lift (decode_block path numPoints raw) ;;
                    ret (Some block))
                 last)
            None ;;
  match last with
  | Some block => ret block
  | None => raise (UnboundLocalError "freq")
  end.

(** *** Further methods *)

(** [source_unleveled_check] (lines 112-119). *)
Definition source_unleveled_check : M unit :=
  r <- query "status:questionable:integrity:hardware:condition?" ;;
  n <- int_ r ;;
  let unleveledState := Z.land n (Z.shiftl 1 2) in
  when (Py.truthy unleveledState)
    (raise (ValueError "VNA source is unleveled.")).

Definition sa_validParams : list string :=
  ["B"; "A"; "R1"; "R2"; "b1"; "b2"; "a1"; "a2"].

(** [new_sa_trace] (lines 2508-2549). *)
Definition new_sa_trace (measName measParam : string) (win ch : Z)
  : M unit :=
  check_param measParam sa_validParams
    "Invalid 'measParam', check measurement parameter argument." ;;
  write (custom_define ch measName "Spectrum Analyzer" measParam) ;;
  feed_trace measName win ;;
  wait_for_opc None ;;
  err_check.

Definition source_acquire (ch : Z) : string :=
  "source" ++ str ch ++ ":modulation:correction:collection:acquire synchronous".

(** One round of the retry loop of [initiate_source_correction_cal]
    (lines 1822-1828): the loop state is the pair of locals
    [(successFlag, numRetries)]. *)
Definition source_round (timeoutMs : Z) (sourceName : string) (ch : Z)
    (st : Z * Z) : M (Z * Z) :=
  write (source_acquire ch) ;;
  wait_for_opc (Some timeoutMs) ;;
  r <- query ("sour" ++ str ch ++ ":mod:corr:coll:acq:status? "
              ++ quoted sourceName) ;;
  let calStatus := Py.strip r in
  if Py.contains "Calibration succeeded." calStatus
  then ret (1, snd st)
  else ret (fst st, snd st + 1).

(** [initiate_source_correction_cal] (lines 1806-1830). *)
Definition initiate_source_correction_cal (timeoutMs : Z)
    (sourceName : string) (retry maxRetries ch : Z) : M unit :=
  if Py.truthy retry then
    while (fun st => (fst st =? 0) && (snd st <=? maxRetries))
      (source_round timeoutMs sourceName ch)
      (0, 0) ;;
    ret tt
  else
    write (source_acquire ch) ;;
    wait_for_opc (Some timeoutMs).

(** A catalog of names separated by a comma and a space:
    [reply.rstrip().strip(dq).split(', ')]. *)
Definition spaced_catalog (reply : string) : list string :=
  Py.split_str ", " (Py.strip_chars dq (Py.rstrip reply)).

Definition guided_connector (ch p : Z) (c : string) : string :=
  "sense" ++ str ch ++ ":correction:collect:guided:connector:port" ++ str p
  ++ " " ++ quoted c.

Definition guided_ckit (ch p : Z) (k : string) : string :=
  "sense" ++ str ch ++ ":correction:collect:guided:ckit:port" ++ str p
  ++ " " ++ quoted k.

Definition save_preference : string :=
  "sense:correction:preference:cset:save user".

(** [define_smart_cal] (lines 720-753).  [repr] is the text an f-string
    gives a list of strings, which only the error messages use. *)
Definition define_smart_cal (repr : list string -> string) (numPorts : Z)
    (connectors calKits : list string) (ch : Z) : M unit :=
  r <- query "sense:correction:collect:guided:connector:cat?" ;;
  let availableConnectors := spaced_catalog r in
  for_each (combine connectors calKits)
    (fun ck =>
       let c := fst ck in
       let k := snd ck in
       when (negb (Py.str_in c availableConnectors))
         (raise (ValueError
            (quoted c
             ++ " is not a valid connector type. Choose from this list: "
             ++ repr availableConnectors ++ "."))) ;;
       r <- query ("sense:correction:collect:guided:ckit:cat? "
                   ++ quoted c) ;;
       let availableCalKits := spaced_catalog r in
       when (negb (Py.str_in k availableCalKits))
         (raise (ValueError
            (quoted k ++ " is not a valid cal kit for " ++ c
             ++ " connector type. Choose from this list: "
             ++ repr availableCalKits ++ ".")))) ;;
  let portArray := Py.range 1 (numPorts + 1) in
  for_each (combine portArray (combine connectors calKits))
    (fun pck =>
       let p := fst pck in
       let c := fst (snd pck) in
       let k := snd (snd pck) in
       write (guided_connector ch p c) ;;
       write (guided_ckit ch p k)) ;;
  write save_preference.

End Driver.

(** ** A bench instrument for worked examples

    A scripted instrument: fixed replies to the catalog queries, an error
    queue, a count of acquisitions it will still reject, and the time the
    pending operation takes to complete. *)

Module Bench.

(** Doubles that hold whole numbers only; enough to run the examples. *)
#[export] Instance whole_floats : Floats := {|
  float := Z;
  float_of_str := Py.int_of_str;
  float_str := fun z => Py.str_of_Z z ++ ".0";
  float_of_Z := fun z => z;
  fadd := Z.add;
  fsub := Z.sub;
  fdiv := Z.div;
  flt := Z.ltb;
  complex := Z * Z;
  cplx := fun re im => (re, im)
|}.

Record dev : Type := {
  replies : list (string * string);
  blocks : list (string * list Z);
  queue : list string;
  reject : nat;
  busy_ms : Z
}.

Definition not_connected : string :=
  "-211," ++ quoted "Standard not connected".

Definition on_write (cmd : string) (d : dev) : bool * dev :=
  if Py.contains "guided:acquire" cmd then
    match reject d with
    | S n =>
        (true, {| replies := replies d; blocks := blocks d;
                  queue := (queue d ++ [not_connected])%list;
                  reject := n; busy_ms := busy_ms d |})
    | O => (true, d)
    end
  else (true, d).

Definition on_query (cmd : string) (timeout : Z) (d : dev)
  : option string * dev :=
  if String.eqb cmd "syst:err?" then
    match queue d with
    | [] => (Some ("+0," ++ quoted "No error" ++ nl), d)
    | e :: q =>
        (Some (e ++ nl),
         {| replies := replies d; blocks := blocks d; queue := q;
            reject := reject d; busy_ms := busy_ms d |})
    end
  else if String.eqb cmd "*opc?" then
    (if busy_ms d <=? timeout then Some ("+1" ++ nl) else None, d)
  else (dict_get cmd (replies d), d).

Definition on_query_binary (cmd : string) (timeout : Z) (d : dev)
  : option (list Z) * dev :=
  (dict_get cmd (blocks d), d).

#[export] Instance bench_link : Link := {|
  inst := dev;
  visa_write := on_write;
  visa_query := on_query;
  visa_query_binary := on_query_binary
|}.

Definition bench (replies : list (string * string))
    (blocks : list (string * list Z)) (reject : nat) (busy_ms : Z) : dev :=
  {| replies := replies; blocks := blocks; queue := [];
     reject := reject; busy_ms := busy_ms |}.

(** A session opened with the constructor's default timeout of 10 s. *)
Definition open_session (d : dev) : session :=
  {| device := d; timeout := 10000 |}.

(** 7 May 2025, 09:03:41. *)
Definition a_morning : datetime :=
  {| year := 2025; month := 5; day := 7;
     hour := 9; minute := 3; second := 41 |}.

(** A guided calibration of one step whose standard is rejected twice. *)
Definition cal_bench : dev :=
  bench [("sense1:correction:collect:guided:steps?", "+1" ++ nl);
         ("sense1:correction:collect:guided:description? 1",
          quoted "Connect OPEN to port 1" ++ nl)]
        [] 2 20000.

(** An instrument with window 1 and 2 open, two traces in window 1, and
    one cal set. *)
Definition display_bench (windows traces : string) : dev :=
  bench [("display:catalog?", windows);
         ("display:window1:catalog?", traces);
         ("display:window200:catalog?", "EMPTY" ++ nl);
         ("cset:catalog?", quoted "CalSet_1,base_STD" ++ nl);
         ("calculate1:parameter:catalog:extended?",
          quoted "CH1_S11_1,S11,gain,S21" ++ nl)]
        [] 0 10.

(** An instrument whose channel 1 answers the measurement catalog query
    with [catalog]. *)
Definition catalog_bench (catalog : string) : dev :=
  bench [("calculate1:parameter:catalog:extended?", catalog)] [] 0 10.

(** One ECal module with one state on path a and a factory
    characterization of two points, whose data block is [block]. *)
Definition ecal_bench (block : list Z) : dev :=
  bench [("sense:correction:ckit:ecal:list?", "+1" ++ nl);
         ("sense:correction:ckit:ecal1:path:count? a", "+1" ++ nl);
         ("sense:correction:ckit:ecal1:path:count? b", "+0" ++ nl);
         ("sense:correction:ckit:ecal1:path:count? ab", "+0" ++ nl);
         ("sense:correction:ckit:ecal1:clist?", "0" ++ nl);
         ("sense:correction:ckit:ecal1:information? char0",
          quoted "ModelNumber: N4691D, SerialNumber: 01234, NumberOfPoints: 2"
          ++ nl)]
        [("sense:correction:ckit:ecal1:path:data? a,0,char0", block)]
        0 10.

(** The reply of a PNA with windows 1 and 2 open, and of its window 1 with
    traces 1 and 2. *)
Definition two_listed : string := quoted "1,2" ++ nl.

Definition bench_session : session :=
  open_session (display_bench two_listed two_listed).

(** A window whose traces 1 and 3 remain after trace 2 was deleted. *)
Definition gap_listed : string := quoted "1,3" ++ nl.

Definition gap_session : session :=
  open_session (display_bench two_listed gap_listed).

Definition cal_session : session := open_session cal_bench.

(** The guided calibration of the bench at [run_cal]'s defaults. *)
Definition bench_run_cal (fuel : nat)
  : outcome unit * session * list event :=
  run_cal a_morning "my cal" 1 1 60000 1 1 fuel cal_session.

(** A compose on the scratch channel from a cal set the instrument has
    ([base_STD]) or lacks ([missing_STD]). *)
Definition bench_compose (baseCalset : string)
  : outcome unit * session * list event :=
  deembed_calset baseCalset "final" "a.s2p" "b.s2p" 1 0 0 0 1 3%nat
    bench_session.

(** [configure_mod_sweep] and [configure_sa_sweep] on channel 1, with
    whole numbers of hertz and the defaults elsewhere. *)
Definition bench_mod_sweep (sweepType powerContext : string)
  : outcome unit * session * list event :=
  configure_mod_sweep sweepType (Int 1000000000) (Int 300000000) (Int 200)
    (Int (-30)) powerContext (Int (-20)) (Int (-10)) (Int 11) 0 1 0%nat
    bench_session.

Definition bench_sa_sweep (detectorType : string)
  : outcome unit * session * list event :=
  configure_sa_sweep (Int 1000000000) (Int 1000000000) (Int 500000000)
    (Int 1500000000) (Int 801) (Int 1000000) (Int 1000000) detectorType
    1 1 1 0 1 0%nat bench_session.

(** A catalog with a token too many, and a block with a value too many. *)
Definition odd_catalog : string := quoted "a,S11,b" ++ nl.
Definition long_block : list Z := [1; 2; 3; 4; 5; 6; 7].

(** An instrument with two errors in its queue. *)
Definition faulted_bench : dev :=
  {| replies := []; blocks := [];
     queue := [not_connected; "-113," ++ quoted "Undefined header"];
     reject := 0; busy_ms := 10 |}.

Definition faulted_session : session := open_session faulted_bench.

(** The two errors as [err_check] reports them. *)
Definition faulted_report : list string :=
  ["211," ++ quoted "Standard not connected";
   "113," ++ quoted "Undefined header"].

(** A modulated source whose correction never succeeds. *)
Definition source_bench : dev :=
  bench [("sour1:mod:corr:coll:acq:status? " ++ quoted "VXT",
          "Calibration failed." ++ nl)]
        [] 0 10.

(** The source correction of the bench at the defaults of
    [initiate_source_correction_cal]. *)
Definition bench_source_cal (fuel : nat)
  : outcome unit * session * list event :=
  initiate_source_correction_cal 60000 "VXT" 1 3 1 fuel
    (open_session source_bench).

(** An instrument that knows two connector types, and two cal kits for the
    first of them. *)
Definition smart_bench : dev :=
  bench [("sense:correction:collect:guided:connector:cat?",
          quoted "APC 3.5 female, APC 3.5 male" ++ nl);
         ("sense:correction:collect:guided:ckit:cat? "
          ++ quoted "APC 3.5 female",
          quoted "85052D, N4691D ECal" ++ nl)]
        [] 0 10.

(** The text Python gives a list of strings that hold no quote. *)
Definition listing (l : list string) : string :=
  "[" ++ String.concat ", " (map (fun x => "'" ++ x ++ "'") l) ++ "]".

Definition bench_smart_cal (connectors calKits : list string)
  : outcome unit * session * list event :=
  define_smart_cal listing 2 connectors calKits 1 0%nat
    (open_session smart_bench).

(** A channel without measurements. *)
Definition empty_channel_bench : dev :=
  catalog_bench (quoted "NO CATALOG" ++ nl).

(** A condition register that reads 6: bits 1 and 2 set. *)
Definition unleveled_bench : dev :=
  bench [("status:questionable:integrity:hardware:condition?", "+6" ++ nl)]
        [] 0 10.


(** The two-stage de-embedding on the bench. *)
Definition bench_two_stage : outcome unit * session * list event :=
  deembed_calset "base_STD" "final" "a.s2p" "b.s2p" 0 0 0 0 1 0%nat
    bench_session.

(** An ECal module none of whose paths has a state. *)
Definition stateless_ecal_bench : dev :=
  bench [("sense:correction:ckit:ecal:list?", "+1" ++ nl);
         ("sense:correction:ckit:ecal1:path:count? a", "+0" ++ nl);
         ("sense:correction:ckit:ecal1:path:count? b", "+0" ++ nl);
         ("sense:correction:ckit:ecal1:path:count? ab", "+0" ++ nl);
         ("sense:correction:ckit:ecal1:clist?", "0" ++ nl);
         ("sense:correction:ckit:ecal1:information? char0",
          quoted "ModelNumber: N4691D, SerialNumber: 01234, NumberOfPoints: 2"
          ++ nl)]
        [] 0 10.

End Bench.


(** * Vocabulary of the properties *)




(** How often [c] occurs in [s]. *)
Fixpoint count_char (c : ascii) (s : string) : nat :=
  match s with
  | EmptyString => 0
  | String x s' => (if Ascii.eqb x c then 1 else 0) + count_char c s'
  end.

(** The trace numbers a catalog reply lists: the reply without the white
    space and the double quotes around it, split at the commas. *)
Definition listed_traces (reply : string) : list string :=
  Py.split_on "," (Py.strip_chars dq (Py.strip reply)).

(** The catalog as the specification words it: alternating name and
    parameter tokens, read two at a time; a last token without a partner
    makes no pair. *)
Fixpoint pairs {A} (l : list A) : list (A * A) :=
  match l with
  | name :: param :: rest => (name, param) :: pairs rest
  | _ => []
  end.

Section Vocabulary.
Context {FL : Floats} {LK : Link}.

(** Every command a run of [m] writes satisfies [P]. *)
Definition writes_all (P : string -> Prop) {A} (m : M A) : Prop :=
  forall fuel s, Forall P (writes (snd (m fuel s))).



(** [rejections attempt fuel k s s' tr]: from [s], [attempt] raises [k]
    times in a row, the operator being prompted after each, and then
    returns, in [s'], the whole having put [tr] on record. *)
Inductive rejections (attempt : M unit) (fuel : nat)
  : nat -> session -> session -> list event -> Prop :=
| accepted s s' t :
    attempt fuel s = (Ok tt, s', t) ->
    rejections attempt fuel 0 s s' t
| rejected k s e s1 t1 s' t :
    attempt fuel s = (Raise e, s1, t1) ->
    rejections attempt fuel k s1 s' t ->
    rejections attempt fuel (S k) s s' (t1 ++ Input retry_prompt :: t)%list.

End Vocabulary.

(** ** What a run ends with *)

(** The port paths of an ECal module with [numPorts] ports, in the order
    [get_ecal_module_states] asks for them. *)
Definition port_paths (numPorts : Z) : list string :=
  if numPorts =? 2 then ["a"; "b"; "ab"]
  else ["a"; "b"; "ab"; "c"; "d"; "ac"; "ad"; "bc"; "bd"; "cd"].

(** How many data blocks a run has asked the instrument for. *)
Fixpoint fetches (tr : list event) : nat :=
  match tr with
  | [] => 0
  | QueryBinary _ :: tr' => S (fetches tr')
  | _ :: tr' => fetches tr'
  end.

(** Any exception but the one Python raises for a local read before it
    was assigned. *)
Definition bound_error (e : exn) : Prop :=
  forall name, e <> UnboundLocalError name.

(** What the loops keep: nothing is bound exactly as long as nothing was
    fetched. *)
Definition unbound_so_far {A} (last : option A) (n : nat) : Prop :=
  last = None <-> n = 0%nat.

Section Outcomes.
Context {FL : Floats} {LK : Link}.

(** Every exception a run of [m] ends with satisfies [P]. *)
Definition raises_only (P : exn -> Prop) {A} (m : M A) : Prop :=
  forall fuel s e s' tr, m fuel s = (Raise e, s', tr) -> P e.

(** The only failure the link itself produces. *)
Definition link_failure (e : exn) : Prop := e = VisaIOError.

(** What [err_check] can raise besides: the queued errors. *)
Definition link_or_instrument (e : exn) : Prop :=
  e = VisaIOError \/ exists err, e = InstrumentErrors err.

(** [drained fuel errs s s' tr]: read from [s], the error queue gives the
    messages [errs] and then the no-error reply, leaving the session [s']
    and the record [tr]. *)
Inductive drained (fuel : nat)
  : list string -> session -> session -> list event -> Prop :=
| drained_empty s s' t :
    read_error fuel s = (Ok no_error, s', t) ->
    drained fuel [] s s' t
| drained_next e errs s s1 t1 s' t :
    read_error fuel s = (Ok e, s1, t1) ->
    e <> no_error ->
    drained fuel errs s1 s' t ->
    drained fuel (e :: errs) s s' (t1 ++ t)%list.

(** A message without a plus or a minus sign. *)
Definition unsigned_text (e : string) : Prop :=
  Py.ascii_in "+" e = false /\ Py.ascii_in "-" e = false.

(** The trace creators that check [measParam] against a list, each with
    its list. *)
Definition checked_creators (measName measParam : string) (modify win ch : Z)
  : list (list string * M unit) :=
  [ (mod_validParams, new_mod_trace measName measParam win ch);
    (modx_validParams, new_modx_trace measName measParam modify win ch);
    (gca_validParams, new_gca_trace measName measParam modify win ch);
    (gcax_validParams, new_gcax_trace measName measParam win ch);
    (smc_validParams, new_smc_trace measName measParam win ch);
    (nf_validParams, new_nf_trace measName measParam modify win ch);
    (nfx_validParams, new_nfx_trace measName measParam modify win ch);
    (sa_validParams, new_sa_trace measName measParam win ch) ].

(** A run of [m] is never cut short by the fuel. *)
Definition unfuelled {A} (m : M A) : Prop :=
  forall fuel s, fst (fst (m fuel s)) <> OutOfFuel.

(** A run of [m] asks for no data block. *)
Definition fetchless {A} (m : M A) : Prop :=
  forall fuel s, fetches (snd (m fuel s)) = 0%nat.

End Outcomes.


(** What a call of [deembed_calset] can end with when it raises: a failure
    of the link, the queued instrument errors, a base cal set that is not
    in the catalog, or a frequency reply that is no number. *)
Definition deembed_failure (e : exn) : Prop :=
  e = VisaIOError
  \/ (exists err, e = InstrumentErrors err)
  \/ e = ValueError "Selected cal set does not exist."
  \/ e = ValueError "could not convert string to float".

(** A catalog token the reply format can carry: no comma, no double quote,
    no line feed. *)
Definition plain_token (x : string) : Prop :=
  forallb (fun c => negb (Py.ascii_in c ("," ++ dq ++ nl)))
    (list_ascii_of_string x) = true.

(** Names and parameters as the catalog lists them: name, parameter, name,
    parameter, and so on. *)
Definition interleave (nps : list (string * string)) : list string :=
  flat_map (fun np => [fst np; snd np]) nps.

(** The reply to the extended catalog query for the measurements [nps]:
    the tokens joined by commas, in double quotes, with a line feed. *)
Definition catalog_reply (nps : list (string * string)) : string :=
  quoted (String.concat "," (interleave nps)) ++ nl.

(** Rounds the retry loop of [initiate_source_correction_cal] has left. *)
Definition rounds_left (maxRetries : Z) (st : Z * Z) : nat :=
  if fst st =? 0 then Z.to_nat (maxRetries + 1 - snd st) else 0%nat.

(** * Properties *)

(** ** The Python helpers on sample replies *)

Example strip_ex :
  Py.strip_chars (dq ++ nl) (quoted "a,S11,b,S21" ++ nl) = "a,S11,b,S21".
Proof. reflexivity. Qed.

Example split_ex :
  Py.split_on "," "a,S11,,b" = ["a"; "S11"; EmptyString; "b"].
Proof. reflexivity. Qed.

Example split_empty_ex : Py.split_on "," EmptyString = [EmptyString].
Proof. reflexivity. Qed.

Example int_ex :
  Py.int_of_str ("+3" ++ nl) = Some 3 /\ Py.int_of_str " -1_0 " = Some (-10)
  /\ Py.int_of_str "1__0" = None /\ Py.int_of_str EmptyString = None
  /\ Py.int_of_str "_1" = None /\ Py.int_of_str "1_" = None
  /\ Py.int_of_str "+" = None /\ Py.int_of_str "0x10" = None.
Proof. repeat split; reflexivity. Qed.

Example str_ex :
  Py.str_of_Z 200 = "200" /\ Py.str_of_Z (-7) = "-7" /\ Py.str_of_Z 0 = "0".
Proof. repeat split; reflexivity. Qed.

Example lower_ex :
  Py.lower "EMPTY" = "empty"
  /\ Py.contains "empty" (Py.lower "xEmPtY,1") = true
  /\ Py.contains "empty" (Py.lower "1,2") = false.
Proof. repeat split; reflexivity. Qed.

Example slice_ex :
  Py.slice 2 4 [1;2;3;4;5] = [3;4] /\ Py.slice 4 6 [1;2;3;4;5] = [5]
  /\ Py.slice 0 (-2) [1;2;3;4;5] = [1;2;3] /\ Py.slice 6 8 [1;2;3;4;5] = [].
Proof. repeat split; reflexivity. Qed.

Example range_ex :
  Py.range 1 4 = [1;2;3] /\ Py.range 1 1 = [] /\ Py.range 1 0 = [].
Proof. repeat split; reflexivity. Qed.

(** ** Runs and what they write *)

Section Facts.
Context {FL : Floats} {LK : Link}.

Lemma writes_app (t1 t2 : list event) :
  writes (t1 ++ t2)%list = (writes t1 ++ writes t2)%list.
Proof.
  induction t1 as [|e t1 IH]; simpl; [reflexivity|].
  destruct e; simpl; rewrite IH; reflexivity.
Qed.

Lemma issued_app (c : string) (t1 t2 : list event) :
  issued c (t1 ++ t2)%list = (issued c t1 + issued c t2)%nat.
Proof. unfold issued. apply count_occ_app. Qed.

Lemma issued_writes (c : string) (tr : list event) :
  issued c tr = count_occ string_dec (writes tr) c.
Proof.
  unfold issued. induction tr as [|e tr IH]; [reflexivity|].
  destruct e as [x|x|x|x]; simpl.
  - destruct (event_eq_dec (Write x) (Write c)) as [E|E];
      destruct (string_dec x c) as [E'|E']; simpl; congruence.
  - destruct (event_eq_dec (Query x) (Write c)); [discriminate|exact IH].
  - destruct (event_eq_dec (QueryBinary x) (Write c)); [discriminate|exact IH].
  - destruct (event_eq_dec (Input x) (Write c)); [discriminate|exact IH].
Qed.

Section WritesAll.
Variable P : string -> Prop.

Lemma wa_ret {A} (a : A) : writes_all P (ret a).
Proof. intros fuel s. constructor. Qed.

Lemma wa_raise {A} (e : exn) : writes_all P (@raise _ _ A e).
Proof. intros fuel s. constructor. Qed.

Lemma wa_lift {A} (r : outcome A) : writes_all P (lift r).
Proof. intros fuel s. constructor. Qed.

Lemma wa_query (cmd : string) : writes_all P (query cmd).
Proof.
  intros fuel s. unfold query.
  destruct (visa_query cmd (timeout s) (device s)). constructor.
Qed.

Lemma wa_query_binary (cmd : string) : writes_all P (query_binary_values cmd).
Proof.
  intros fuel s. unfold query_binary_values.
  destruct (visa_query_binary cmd (timeout s) (device s)). constructor.
Qed.

Lemma wa_get_timeout : writes_all P get_timeout.
Proof. intros fuel s. constructor. Qed.

Lemma wa_set_timeout (t : Z) : writes_all P (set_timeout t).
Proof. intros fuel s. constructor. Qed.

Lemma wa_input (prompt : string) : writes_all P (input prompt).
Proof. intros fuel s. constructor. Qed.

Lemma wa_write (cmd : string) : P cmd -> writes_all P (write cmd).
Proof.
  intros H fuel s. unfold write.
  destruct (visa_write cmd (device s)). simpl. constructor; [exact H|constructor].
Qed.

Lemma wa_bind {A B} (m : M A) (f : A -> M B) :
  writes_all P m -> (forall a, writes_all P (f a)) -> writes_all P (bind m f).
Proof.
  intros Hm Hf fuel s. unfold bind.
  specialize (Hm fuel s).
  destruct (m fuel s) as [[[a|e|] s1] t1]; simpl in *; try exact Hm.
  specialize (Hf a fuel s1).
  destruct (f a fuel s1) as [[r s2] t2]; simpl in *.
  rewrite writes_app. apply Forall_app. split; assumption.
Qed.

Lemma wa_try {A} (m : M A) (h : exn -> M A) :
  writes_all P m -> (forall e, writes_all P (h e)) ->
  writes_all P (try_except m h).
Proof.
  intros Hm Hh fuel s. unfold try_except.
  specialize (Hm fuel s).
  destruct (m fuel s) as [[[a|e|] s1] t1]; simpl in *; try exact Hm.
  specialize (Hh e fuel s1).
  destruct (h e fuel s1) as [[r s2] t2]; simpl in *.
  rewrite writes_app. apply Forall_app. split; assumption.
Qed.

Lemma wa_when (b : bool) (m : M unit) :
  writes_all P m -> writes_all P (when b m).
Proof. intros H. destruct b; simpl; [exact H|apply wa_ret]. Qed.

Lemma wa_iterate {St} (cond : St -> bool) (body : St -> M St) :
  (forall st, writes_all P (body st)) ->
  forall n st, writes_all P (iterate n cond body st).
Proof.
  intros Hb. induction n as [|n IH]; intros st fuel s; simpl.
  - destruct (cond st); constructor.
  - destruct (cond st); [|constructor].
    apply (wa_bind (body st) (iterate n cond body)); [apply Hb|exact IH].
Qed.

Lemma wa_while {St} (cond : St -> bool) (body : St -> M St) (st : St) :
  (forall st, writes_all P (body st)) -> writes_all P (while cond body st).
Proof. intros Hb fuel s. unfold while. apply wa_iterate. exact Hb. Qed.

Lemma wa_for_each {A} (xs : list A) (body : A -> M unit) :
  (forall x, writes_all P (body x)) -> writes_all P (for_each xs body).
Proof.
  intros Hb. induction xs as [|x xs IH]; simpl.
  - apply wa_ret.
  - apply wa_bind; [apply Hb|intros _; exact IH].
Qed.

Lemma wa_for_fold {A St} (xs : list A) (body : A -> St -> M St) :
  (forall x st, writes_all P (body x st)) ->
  forall st, writes_all P (for_fold xs body st).
Proof.
  intros Hb. induction xs as [|x xs IH]; intros st; simpl.
  - apply wa_ret.
  - apply wa_bind; [apply Hb|exact IH].
Qed.

End WritesAll.

(** A command that starts with [p] differs from any command that does not. *)
Lemma prefix_app (p x : string) : String.prefix p (p ++ x) = true.
Proof.
  induction p as [|c p IH]; simpl.
  - destruct x; reflexivity.
  - destruct (ascii_dec c c); [exact IH|congruence].
Qed.

Lemma differs_by_prefix (p x c : string) :
  String.prefix p c = false -> (p ++ x)%string <> c.
Proof.
  intros H E. rewrite <- E in H. rewrite prefix_app in H. discriminate.
Qed.

Lemma channel_delete_text : channel_delete = "system:channels:delete 200".
Proof. reflexivity. Qed.

(** Side condition of [wa_write]: the command is not the one looked for. *)
Ltac other_command :=
  cbv beta;
  try rewrite channel_delete_text;
  first [ apply differs_by_prefix; reflexivity
        | discriminate
        | exact I ].

Ltac wa_step :=
  first
    [ apply wa_ret | apply wa_raise | apply wa_lift | apply wa_query
    | apply wa_query_binary | apply wa_get_timeout | apply wa_set_timeout
    | apply wa_input
    | apply wa_write; other_command
    | apply wa_bind; [|intros ?]
    | apply wa_try; [|intros ?]
    | apply wa_when
    | apply wa_while; intros ?
    | match goal with
      | |- writes_all _ (if ?b then _ else _) => destruct b
      | |- writes_all _ (match ?x with _ => _ end) => destruct x
      end ].

Ltac wa := cbv zeta; repeat wa_step.

Section DriverWrites.
Variable P : string -> Prop.

Lemma wa_read_error : writes_all P read_error.
Proof. unfold read_error. wa. Qed.

Lemma wa_err_check : writes_all P err_check.
Proof. unfold err_check. pose proof wa_read_error. wa; assumption. Qed.

Lemma wa_wait_for_opc (tempTimeout : option Z) :
  writes_all P (wait_for_opc tempTimeout).
Proof. unfold wait_for_opc. wa. Qed.



End DriverWrites.

(** ** The scratch channel is deleted by one command only *)

























(** ** The overwrite comes first *)



(** ** The completion barrier *)

(** C9: a call of [wait_for_opc] that returns leaves [self.inst.timeout] as
    it found it, and a call without a temporary timeout ([None], or the
    falsy 0) leaves it alone whatever the outcome. *)
Theorem wait_for_opc_keeps_timeout (tempTimeout : option Z) (fuel : nat)
    (s s' : session) (r : outcome unit) (tr : list event) :
  wait_for_opc tempTimeout fuel s = (r, s', tr) ->
  r = Ok tt \/ tempTimeout = None \/ tempTimeout = Some 0 ->
  timeout s' = timeout s.
Proof.
  intros Hrun Hcase. unfold wait_for_opc in Hrun.
  destruct tempTimeout as [t|].
  - destruct (Py.truthy t) eqn:Ht.
    + unfold bind, get_timeout, set_timeout, query in Hrun. simpl in Hrun.
      destruct (visa_query "*opc?" t (device s)) as [[reply|] d];
        simpl in Hrun; inversion Hrun; subst; simpl.
      * reflexivity.
      * destruct Hcase as [H|[H|H]]; try discriminate.
        inversion H; subst. discriminate.
    + unfold bind, query, ret in Hrun.
      destruct (visa_query "*opc?" (timeout s) (device s)) as [[reply|] d];
        inversion Hrun; reflexivity.
  - unfold bind, query, ret in Hrun.
    destruct (visa_query "*opc?" (timeout s) (device s)) as [[reply|] d];
      inversion Hrun; reflexivity.
Qed.

(** ** The retry loop of the guided calibration *)

Lemma no_writes (tr : list event) :
  Forall (fun _ : string => False) (writes tr) -> writes tr = [].
Proof. destruct (writes tr); [reflexivity|]. intros H. inversion H. contradiction. Qed.

Lemma writes_after_write {B} (cmd : string) (f : unit -> M B) (fuel : nat)
    (s : session) :
  writes_all (fun _ => False) (f tt) ->
  writes (snd (bind (write cmd) f fuel s)) = [cmd].
Proof.
  intros Q. unfold bind, write.
  destruct (visa_write cmd (device s)) as [[|] d]; cbv beta iota zeta.
  - match goal with |- context [f tt fuel ?s1] =>
      pose proof (no_writes _ (Q fuel s1)) as E;
      destruct (f tt fuel s1) as [[r s2] t2] end.
    simpl in *. rewrite E. reflexivity.
  - reflexivity.
Qed.

(** One attempt writes the acquisition and nothing else. *)
Lemma measure_cal_standard_writes (std blocking timeoutMs ch : Z)
    (fuel : nat) (s : session) :
  writes (snd (measure_cal_standard std blocking timeoutMs ch fuel s))
  = [acquire ch std].
Proof.
  unfold measure_cal_standard. apply writes_after_write.
  apply wa_bind; [apply wa_wait_for_opc|intros _; apply wa_err_check].
Qed.

Lemma bind_ok {A B} (m : M A) (f : A -> M B) (fuel : nat) (s s1 : session)
    (a : A) (t1 : list event) :
  m fuel s = (Ok a, s1, t1) ->
  bind m f fuel s
  = (fst (fst (f a fuel s1)), snd (fst (f a fuel s1)),
     (t1 ++ snd (f a fuel s1))%list).
Proof.
  intros E. unfold bind. rewrite E.
  destruct (f a fuel s1) as [[r s2] t2]. reflexivity.
Qed.

Lemma bind_raise {A B} (m : M A) (f : A -> M B) (fuel : nat)
    (s s1 : session) (e : exn) (t1 : list event) :
  m fuel s = (Raise e, s1, t1) -> bind m f fuel s = (Raise e, s1, t1).
Proof. intros E. unfold bind. rewrite E. reflexivity. Qed.

Lemma iterate_done {St} (cond : St -> bool) (body : St -> M St) (st : St)
    (n fuel : nat) (s : session) :
  cond st = false -> iterate n cond body st fuel s = (Ok st, s, []).
Proof. intros E. destruct n; simpl; rewrite E; reflexivity. Qed.

Lemma iterate_round {St} (cond : St -> bool) (body : St -> M St) (st : St)
    (n fuel : nat) (s : session) :
  cond st = true ->
  iterate (S n) cond body st fuel s
  = bind (body st) (iterate n cond body) fuel s.
Proof. intros E. simpl. rewrite E. reflexivity. Qed.

(** The two ways one round of the loop can go. *)
Lemma attempt_accepted (attempt : M unit) (h : exn -> M Z) (fuel : nat)
    (s s' : session) (t : list event) :
  attempt fuel s = (Ok tt, s', t) ->
  try_except (attempt ;; ret 1) h fuel s = (Ok 1, s', t).
Proof.
  intros E. unfold try_except. rewrite (bind_ok _ _ _ _ _ _ _ E).
  simpl. rewrite app_nil_r. reflexivity.
Qed.

Lemma attempt_rejected (attempt : M unit) (successFlag : Z) (fuel : nat)
    (s s1 : session) (e : exn) (t1 : list event) :
  attempt fuel s = (Raise e, s1, t1) ->
  try_except (attempt ;; ret 1)
    (fun _ => input retry_prompt ;; ret successFlag) fuel s
  = (Ok successFlag, s1, (t1 ++ [Input retry_prompt])%list).
Proof.
  intros E. unfold try_except. rewrite (bind_raise _ _ _ _ _ _ _ E).
  reflexivity.
Qed.

Lemma iterate_retries (std blocking timeoutMs ch : Z) (fuel k : nat)
    (s s' : session) (t : list event) :
  rejections (measure_cal_standard std blocking timeoutMs ch) fuel k s s' t ->
  forall n, (k < n)%nat ->
  iterate n (fun successFlag => successFlag =? 0)
    (fun successFlag =>
       try_except (measure_cal_standard std blocking timeoutMs ch ;; ret 1)
         (fun e => input retry_prompt ;; ret successFlag))
    0 fuel s
  = (Ok 1, s', t).
Proof.
  induction 1 as [s s' t Hok|k s e s1 t1 s' t Hfail _ IH]; intros n Hn;
    (destruct n as [|n]; [lia|]); rewrite iterate_round by reflexivity.
  - rewrite (bind_ok _ _ _ _ _ _ _ (attempt_accepted _ _ _ _ _ _ Hok)).
    rewrite iterate_done by reflexivity. simpl. rewrite app_nil_r.
    reflexivity.
  - rewrite (bind_ok _ _ _ _ _ _ _ (attempt_rejected _ 0 _ _ _ _ _ Hfail)).
    rewrite (IH n) by lia. simpl. rewrite <- app_assoc. reflexivity.
Qed.

Lemma rejections_writes (std blocking timeoutMs ch : Z) (fuel k : nat)
    (s s' : session) (t : list event) :
  rejections (measure_cal_standard std blocking timeoutMs ch) fuel k s s' t ->
  writes t = repeat (acquire ch std) (S k).
Proof.
  induction 1 as [s s' t Hok|k s e s1 t1 s' t Hfail _ IH].
  - pose proof (measure_cal_standard_writes std blocking timeoutMs ch fuel s)
      as W. rewrite Hok in W. exact W.
  - pose proof (measure_cal_standard_writes std blocking timeoutMs ch fuel s)
      as W. rewrite Hfail in W. simpl in W.
    rewrite writes_app, W. simpl. rewrite IH. reflexivity.
Qed.

(** C1, as the code has it: a step the instrument rejects is measured again
    with the identical command until it is accepted, however often it is
    rejected.  A standard rejected [k] times and then accepted ([k = 2]:
    fails twice, then succeeds) makes the loop return with the success flag
    set after exactly [k + 1] acquisitions.  The loop has no retry budget,
    so no setting of [run_cal] makes it give up. *)
Theorem rejected_standard_is_retried_until_accepted
    (std blocking timeoutMs ch : Z) (fuel k : nat) (s s' : session)
    (t : list event) :
  rejections (measure_cal_standard std blocking timeoutMs ch) fuel k s s' t ->
  (k < fuel)%nat ->
  measure_until_success std blocking timeoutMs ch fuel s = (Ok 1, s', t)
  /\ writes t = repeat (acquire ch std) (S k)
  /\ issued (acquire ch std) t = S k.
Proof.
  intros H Hk. split; [|split].
  - unfold measure_until_success, while.
    apply (iterate_retries _ _ _ _ _ k); assumption.
  - eapply rejections_writes; eassumption.
  - rewrite issued_writes, (rejections_writes _ _ _ _ _ _ _ _ _ H).
    apply count_occ_repeat_eq. reflexivity.
Qed.

(** ** The name the calibration is saved under *)





Lemma bind_inv_ok {A B} (m : M A) (f : A -> M B) (fuel : nat)
    (s s' : session) (b : B) (tr : list event) :
  bind m f fuel s = (Ok b, s', tr) ->
  exists a s1 t1 t2,
    m fuel s = (Ok a, s1, t1) /\ f a fuel s1 = (Ok b, s', t2)
    /\ tr = (t1 ++ t2)%list.
Proof.
  unfold bind. destruct (m fuel s) as [[[a|e|] s1] t1]; try discriminate.
  destruct (f a fuel s1) as [[r s2] t2] eqn:Ef. intros E.
  inversion E; subst. exists a, s1, t1, t2. repeat split; assumption.
Qed.

Lemma append_assoc (a b c : string) :
  ((a ++ b) ++ c)%string = (a ++ b ++ c)%string.
Proof. induction a as [|x a IH]; simpl; [reflexivity|rewrite IH; reflexivity]. Qed.





(** ** The next trace of a window *)

Lemma str_of_Z_inj (a b : Z) : Py.str_of_Z a = Py.str_of_Z b -> a = b.
Proof.
  assert (R : forall z,
             NilZero.int_of_string (Py.str_of_Z z) = Some (Z.to_int z)).
  { intros z. apply NilZero.isi; destruct z; simpl; try discriminate;
      intros E; inversion E as [E'];
      exact (DecimalPos.Unsigned.to_uint_nonnil _ E'). }
  intros E. apply DecimalZ.to_int_inj.
  pose proof (R a) as Ra. rewrite E, R in Ra. inversion Ra. reflexivity.
Qed.

Lemma split_on_without (sep : ascii) (s : string) :
  Py.ascii_in sep s = false -> Py.split_on sep s = [s].
Proof.
  unfold Py.ascii_in.
  induction s as [|c s IH];
    cbn [Py.split_on list_ascii_of_string existsb]; [reflexivity|].
  intros H. apply orb_false_iff in H. destruct H as [Hc Hs].
  rewrite Ascii.eqb_sym, Hc, (IH Hs). reflexivity.
Qed.

Lemma lower_keeps_comma (s : string) :
  Py.ascii_in "," (Py.lower s) = false -> Py.ascii_in "," s = false.
Proof.
  unfold Py.ascii_in.
  induction s as [|c s IH]; cbn [Py.lower list_ascii_of_string existsb];
    [reflexivity|].
  intros H. apply orb_false_iff in H. destruct H as [Hc Hs].
  rewrite (IH Hs), orb_false_r.
  destruct (Ascii.eqb "," c) eqn:E; [|reflexivity].
  apply Ascii.eqb_eq in E. subst c. vm_compute in Hc. discriminate Hc.
Qed.

Lemma length_split_on (sep : ascii) (s : string) :
  List.length (Py.split_on sep s) = S (count_char sep s).
Proof.
  induction s as [|c s IH]; cbn [Py.split_on count_char]; [reflexivity|].
  destruct (Ascii.eqb c sep); simpl.
  - rewrite IH. reflexivity.
  - destruct (Py.split_on sep s); simpl in *; lia.
Qed.

Lemma count_lstrip (p : ascii -> bool) (sep : ascii) (s : string) :
  p sep = false -> count_char sep (Py.lstrip_by p s) = count_char sep s.
Proof.
  intros H. induction s as [|c s IH]; cbn [Py.lstrip_by count_char]; [reflexivity|].
  destruct (p c) eqn:Pc; [|reflexivity].
  destruct (Ascii.eqb c sep) eqn:E; [|exact IH].
  apply Ascii.eqb_eq in E. congruence.
Qed.

Lemma count_rstrip (p : ascii -> bool) (sep : ascii) (s : string) :
  p sep = false -> count_char sep (Py.rstrip_by p s) = count_char sep s.
Proof.
  intros H. induction s as [|c s IH]; cbn [Py.rstrip_by count_char]; [reflexivity|].
  destruct (Py.rstrip_by p s) as [|c' r] eqn:R.
  - destruct (p c) eqn:Pc; cbn [count_char] in *.
    + destruct (Ascii.eqb c sep) eqn:E; [|lia].
      apply Ascii.eqb_eq in E. congruence.
    + lia.
  - cbn [count_char] in *. lia.
Qed.

Lemma contains_tail (sub : string) (c : ascii) (s : string) :
  Py.contains sub s = true -> Py.contains sub (String c s) = true.
Proof. intros H. cbn [Py.contains]. rewrite H. apply orb_true_r. Qed.

Lemma contains_lstrip (p : ascii -> bool) (sub s : string) :
  Py.contains sub (Py.lstrip_by p s) = true -> Py.contains sub s = true.
Proof.
  induction s as [|c s IH]; cbn [Py.lstrip_by]; [trivial|].
  destruct (p c); [|trivial]. intros H. apply contains_tail, IH, H.
Qed.

Lemma rstrip_is_prefix (p : ascii -> bool) (s : string) :
  exists t, s = Py.rstrip_by p s ++ t.
Proof.
  induction s as [|c s [t IH]]; cbn [Py.rstrip_by].
  - exists EmptyString. reflexivity.
  - destruct (Py.rstrip_by p s) as [|c' r].
    + destruct (p c).
      * exists (String c s). reflexivity.
      * exists t. simpl in *. rewrite <- IH. reflexivity.
    + exists t. simpl in *. rewrite <- IH. reflexivity.
Qed.

Lemma prefix_app_r (sub a t : string) :
  String.prefix sub a = true -> String.prefix sub (a ++ t) = true.
Proof.
  revert a. induction sub as [|x sub IH]; intros a H.
  - destruct (a ++ t); reflexivity.
  - destruct a as [|y a]; [discriminate H|]. simpl in *.
    destruct (ascii_dec x y); [apply IH, H|discriminate H].
Qed.

Lemma contains_app_r (sub a t : string) :
  Py.contains sub a = true -> Py.contains sub (a ++ t) = true.
Proof.
  induction a as [|c a IH]; intros H.
  - cbn [Py.contains] in H. rewrite orb_false_r in H.
    destruct sub; [|discriminate H]. simpl. destruct t; reflexivity.
  - cbn [Py.contains] in H. apply orb_true_iff in H.
    change (String c a ++ t) with (String c (a ++ t)). cbn [Py.contains].
    apply orb_true_iff. destruct H as [H|H].
    + left. apply (prefix_app_r sub (String c a) t H).
    + right. apply IH, H.
Qed.

Lemma contains_strip (p : ascii -> bool) (sub s : string) :
  Py.contains sub (Py.strip_by p s) = true -> Py.contains sub s = true.
Proof.
  unfold Py.strip_by. intros H. apply (contains_lstrip p).
  destruct (rstrip_is_prefix p (Py.lstrip_by p s)) as [t E].
  rewrite E. apply contains_app_r, H.
Qed.

Lemma lower_lstrip (p : ascii -> bool) (s : string) :
  (forall c, p (Py.lower_ascii c) = p c) ->
  Py.lower (Py.lstrip_by p s) = Py.lstrip_by p (Py.lower s).
Proof.
  intros H. induction s as [|c s IH]; cbn [Py.lstrip_by Py.lower]; [reflexivity|].
  rewrite H. destruct (p c); [exact IH|reflexivity].
Qed.

Lemma lower_rstrip (p : ascii -> bool) (s : string) :
  (forall c, p (Py.lower_ascii c) = p c) ->
  Py.lower (Py.rstrip_by p s) = Py.rstrip_by p (Py.lower s).
Proof.
  intros H. induction s as [|c s IH]; cbn [Py.rstrip_by Py.lower]; [reflexivity|].
  rewrite <- IH, H.
  destruct (Py.rstrip_by p s); cbn [Py.lower]; [destruct (p c)|]; reflexivity.
Qed.

Lemma lower_is_dq (c : ascii) :
  Py.ascii_in (Py.lower_ascii c) dq = Py.ascii_in c dq.
Proof. destruct c as [[] [] [] [] [] [] [] []]; reflexivity. Qed.

(** C3, as the code has it: the trace number a new measurement is fed into
    is 1 when the window's catalog reply contains the sentinel EMPTY in any
    letter case, and otherwise the number of comma-separated entries plus
    one.  That number is not listed in the catalog when the reply is the
    sentinel itself, and when the listed entries are trace numbers between
    1 and their count, as in a window without gaps; the code counts the
    entries and does not read them, so beyond that a listed number can come
    up again. *)
Theorem next_trace_is_count_plus_one (win : Z) (reply : string)
    (fuel : nat) (s : session) (d' : inst) :
  visa_query ("display:window" ++ Py.str_of_Z win ++ ":catalog?")
    (timeout s) (device s) = (Some reply, d') ->
  let traces := Py.strip reply in
  let entries := Py.split_on "," traces in
  let listed := listed_traces reply in
  exists nextTrace,
    fst (fst (next_trace_slot win fuel s)) = Ok nextTrace
    /\ (Py.contains "empty" (Py.lower traces) = true -> nextTrace = 1)
    /\ (Py.contains "empty" (Py.lower traces) = false ->
        nextTrace = Z.of_nat (List.length entries) + 1)
    /\ List.length listed = List.length entries
    /\ (Py.lower (Py.strip_chars dq traces) = "empty" ->
        nextTrace = 1 /\ ~ In (Py.str_of_Z nextTrace) listed)
    /\ (Py.contains "empty" (Py.lower traces) = false ->
        (forall e, In e listed ->
           exists i, 1 <= i <= Z.of_nat (List.length listed)
                     /\ e = Py.str_of_Z i) ->
        ~ In (Py.str_of_Z nextTrace) listed).
Proof.
  intros Hq traces entries listed. exists (next_trace reply).
  assert (Hlen : List.length listed = List.length entries).
  { unfold listed, listed_traces, entries. fold traces.
    rewrite !length_split_on. f_equal. unfold Py.strip_chars, Py.strip_by.
    rewrite count_rstrip, count_lstrip; reflexivity. }
  split; [|split; [|split; [|split; [|split]]]].
  - unfold next_trace_slot, bind, query, ret. rewrite Hq. reflexivity.
  - intros E. unfold next_trace. fold traces. rewrite E. reflexivity.
  - intros E. unfold next_trace. fold traces. rewrite E. reflexivity.
  - exact Hlen.
  - intros E.
    assert (C : Py.contains "empty" (Py.lower traces) = true).
    { apply (contains_strip (fun c => Py.ascii_in c dq)).
      unfold Py.strip_chars, Py.strip_by in E.
      rewrite lower_rstrip, lower_lstrip in E by apply lower_is_dq.
      unfold Py.strip_by. rewrite E. reflexivity. }
    unfold next_trace. fold traces. rewrite C. split; [reflexivity|].
    unfold listed, listed_traces. fold traces. rewrite split_on_without.
    + intros [H|[]]. rewrite H in E. discriminate E.
    + apply lower_keeps_comma. rewrite E. reflexivity.
  - intros E Hslots Hin. unfold next_trace in Hin. fold traces in Hin.
    rewrite E in Hin. fold entries in Hin. rewrite <- Hlen in Hin.
    destruct (Hslots _ Hin) as (i & Hi & Ei).
    apply str_of_Z_inj in Ei. lia.
Qed.

(** ** Turning a window on *)

(** What [ensure_window] does: one query, and the window-on command
    exactly when [str(win)] is none of the pieces of the reply split at
    the commas. *)
Lemma ensure_window_writes (win : Z) (reply : string) (fuel : nat)
    (s : session) (d' : inst) :
  visa_query "display:catalog?" (timeout s) (device s) = (Some reply, d') ->
  writes (snd (ensure_window win fuel s))
  = if window_absent win reply then [window_on win] else [].
Proof.
  intros Hq. unfold ensure_window, bind, query. rewrite Hq.
  destruct (window_absent win reply); simpl.
  - unfold write. simpl. destruct (visa_write (window_on win) d'). reflexivity.
  - reflexivity.
Qed.

(** ** Listing the measurements of a channel *)

Lemma combine_evens_odds {A} (l : list A) :
  combine (evens l) (odds l) = pairs l
  /\ forall a, combine (evens (a :: l)) (odds (a :: l)) = pairs (a :: l).
Proof.
  induction l as [|b l [IH1 IH2]]; split.
  - reflexivity.
  - intros a. reflexivity.
  - apply IH2.
  - intros a. simpl. f_equal. destruct l as [|c l]; [reflexivity|].
    exact IH1.
Qed.

Lemma nth_error_evens {A} (l : list A) :
  (forall i, nth_error (evens l) i = nth_error l (2 * i))
  /\ forall a i, nth_error (evens (a :: l)) i = nth_error (a :: l) (2 * i).
Proof.
  induction l as [|b l [IH1 IH2]]; split.
  - intros [|i]; reflexivity.
  - intros a [|i]; [reflexivity|].
    replace (2 * S i)%nat with (S (S (2 * i))) by lia.
    cbn [evens nth_error]. destruct i; reflexivity.
  - apply IH2.
  - intros a [|i]; [reflexivity|].
    replace (2 * S i)%nat with (S (S (2 * i))) by lia.
    cbn [evens nth_error]. apply IH1.
Qed.

Lemma dict_get_set {V} (k k' : string) (v : V) (d : dict V) :
  dict_get k (dict_set k' v d)
  = if String.eqb k' k then Some v else dict_get k d.
Proof.
  induction d as [|[k0 v0] d IH]; simpl.
  - reflexivity.
  - destruct (String.eqb k0 k') eqn:E0; simpl.
    + apply String.eqb_eq in E0. subst k0.
      destruct (String.eqb k' k); reflexivity.
    + destruct (String.eqb k0 k) eqn:E1.
      * apply String.eqb_eq in E1. subst k0.
        rewrite String.eqb_sym, E0. reflexivity.
      * exact IH.
Qed.

Lemma find_over_app {A} (f : A -> bool) (l1 l2 : list A) :
  find f (l1 ++ l2)%list
  = match find f l1 with Some x => Some x | None => find f l2 end.
Proof.
  induction l1 as [|x l1 IH]; simpl; [reflexivity|].
  destruct (f x); [reflexivity|exact IH].
Qed.

(** Filling a dict from a list of pairs: a key gets the value of its last
    pair. *)
Lemma dict_get_fill {V} (k : string) (ps : list (string * V)) :
  forall acc,
    dict_get k (fold_left (fun d np => dict_set (fst np) (snd np) d) ps acc)
    = match find (fun np => String.eqb (fst np) k) (rev ps) with
      | Some np => Some (snd np)
      | None => dict_get k acc
      end.
Proof.
  induction ps as [|[k0 v0] ps IH]; intros acc; simpl; [reflexivity|].
  rewrite IH, find_over_app.
  destruct (find (fun np => String.eqb (fst np) k) (rev ps)); [reflexivity|].
  simpl. rewrite dict_get_set. destruct (String.eqb k0 k); reflexivity.
Qed.

Lemma dict_set_fresh {V} (k : string) (v : V) (d : dict V) :
  ~ In k (map fst d) -> dict_set k v d = (d ++ [(k, v)])%list.
Proof.
  induction d as [|[k0 v0] d IH]; simpl; intros H; [reflexivity|].
  destruct (String.eqb k0 k) eqn:E.
  - apply String.eqb_eq in E. tauto.
  - rewrite IH by tauto. reflexivity.
Qed.

Lemma dict_fill_distinct {V} (ps : list (string * V)) :
  forall acc,
    NoDup (map fst acc ++ map fst ps) ->
    fold_left (fun d np => dict_set (fst np) (snd np) d) ps acc
    = (acc ++ ps)%list.
Proof.
  induction ps as [|[k0 v0] ps IH]; intros acc H; simpl.
  - rewrite app_nil_r. reflexivity.
  - simpl in H. rewrite dict_set_fresh.
    + rewrite IH.
      * rewrite <- app_assoc. reflexivity.
      * rewrite map_app. simpl. rewrite <- app_assoc. exact H.
    + apply NoDup_remove_2 in H. intros Hin. apply H.
      apply in_or_app. left. exact Hin.
Qed.

(** C5, as the code has it: [get_meas_names] never fails over the number of
    tokens, odd or even.  The plain form returns the tokens at the even
    positions in catalog order, a last unpaired token among them; the
    mapping form pairs each even-position token with the one after it,
    leaves an unpaired last token out without a word, and when a name
    comes twice keeps its later parameter. *)
Theorem get_meas_names_reads_tokens_in_pairs (ch includeParams : Z)
    (raw : string) (fuel : nat) (s : session) (d' : inst) :
  visa_query ("calculate" ++ Py.str_of_Z ch ++ ":parameter:catalog:extended?")
    (timeout s) (device s) = (Some raw, d') ->
  let tokens := catalog_tokens raw in
  exists result,
    fst (fst (get_meas_names ch includeParams fuel s)) = Ok result
    /\ match result with
       | NameList measNames =>
           includeParams = 0
           /\ forall i, nth_error measNames i = nth_error tokens (2 * i)
       | NameDict measDict =>
           includeParams <> 0
           /\ (forall name,
                  dict_get name measDict
                  = option_map snd
                      (find (fun np => String.eqb (fst np) name)
                         (rev (pairs tokens))))
           /\ (NoDup (map fst (pairs tokens)) -> measDict = pairs tokens)
       end.
Proof.
  intros Hq tokens. unfold get_meas_names, bind, query. rewrite Hq.
  fold tokens. unfold Py.truthy.
  destruct (includeParams =? 0) eqn:E; simpl.
  - eexists. split; [reflexivity|]. simpl. split.
    + apply Z.eqb_eq, E.
    + apply nth_error_evens.
  - eexists. split; [reflexivity|]. simpl.
    rewrite (proj1 (combine_evens_odds tokens)). split; [|split].
    + apply Z.eqb_neq, E.
    + intros name. rewrite dict_get_fill.
      destruct (find _ (rev (pairs tokens))); reflexivity.
    + intros H. apply (dict_fill_distinct (pairs tokens) []). exact H.
Qed.

(** ** Cutting an ECal block into runs *)

(** A run that lies inside the block is the plain sub-list, [n] long. *)
Lemma slice_inside {A} (k n : Z) (l : list A) :
  0 <= k -> 0 <= n -> (k + 1) * n <= Z.of_nat (List.length l) ->
  Py.slice (k * n) ((k + 1) * n) l
  = firstn (Z.to_nat n) (skipn (Z.to_nat (k * n)) l)
  /\ List.length (Py.slice (k * n) ((k + 1) * n) l) = Z.to_nat n.
Proof.
  intros Hk Hn Hl. unfold Py.slice, Py.clamp_index.
  assert (H0 : 0 <= k * n) by nia.
  assert (H1 : k * n <= (k + 1) * n) by nia.
  destruct (Z.ltb_spec (k * n) 0); [lia|].
  destruct (Z.ltb_spec ((k + 1) * n) 0); [lia|].
  rewrite !Z.min_l by lia.
  replace ((k + 1) * n - k * n) with n by lia.
  split; [reflexivity|].
  rewrite length_firstn, length_skipn. lia.
Qed.

Lemma np_add_j_same_length (re im : list float) :
  List.length re = List.length im ->
  np_add_j re im = Ok (map (fun p => cplx (fst p) (snd p)) (combine re im)).
Proof. intros E. unfold np_add_j. rewrite E, Nat.eqb_refl. reflexivity. Qed.

(** C2, as the code has it: the decode checks no length.  A block that holds
    at least the runs the path needs (three runs of [numPoints] values, nine
    on path ab) is decoded the same whether or not anything follows them:
    the first run is returned as the frequencies, the second and third are
    paired into S11, and the rest of the block is not looked at. *)
Theorem decode_block_ignores_excess (path : string) (numPoints : Z)
    (raw : list float) :
  0 <= numPoints ->
  (if String.eqb path "ab" then 9 else 3) * numPoints
    <= Z.of_nat (List.length raw) ->
  let n := Z.to_nat numPoints in
  decode_block path numPoints raw
  = Ok (firstn n raw,
        map (fun p => cplx (fst p) (snd p))
          (combine (firstn n (skipn n raw)) (firstn n (skipn (2 * n) raw)))).
Proof.
  intros Hn Hlen n.
  assert (H3 : 3 * numPoints <= Z.of_nat (List.length raw))
    by (destruct (String.eqb path "ab"); lia).
  unfold decode_block.
  assert (R : forall k, 0 <= k ->
                (k + 1) * numPoints <= Z.of_nat (List.length raw) ->
                Py.slice (k * numPoints) ((k + 1) * numPoints) raw
                = firstn n (skipn (Z.to_nat (k * numPoints)) raw)
                /\ List.length
                     (Py.slice (k * numPoints) ((k + 1) * numPoints) raw)
                   = n).
  { intros k Hk Hl. apply slice_inside; assumption. }
  assert (F : Py.slice 0 numPoints raw = firstn n raw).
  { destruct (R 0) as [E _]; [lia|lia|].
    replace (0 * numPoints) with 0 in E by lia.
    replace ((0 + 1) * numPoints) with numPoints in E by lia.
    exact E. }
  rewrite F.
  rewrite np_add_j_same_length
    by (rewrite (proj2 (R 1 ltac:(lia) ltac:(lia))),
                (proj2 (R 2 ltac:(lia) ltac:(lia))); reflexivity).
  cbn [and_then].
  rewrite (proj1 (R 1 ltac:(lia) ltac:(lia))),
          (proj1 (R 2 ltac:(lia) ltac:(lia))).
  replace (Z.to_nat (1 * numPoints)) with n by (unfold n; lia).
  replace (Z.to_nat (2 * numPoints)) with (2 * n)%nat by (unfold n; lia).
  destruct (String.eqb path "ab"); [|reflexivity].
  repeat (rewrite np_add_j_same_length;
          [cbn [and_then]
          |match goal with
           | |- List.length (Py.slice (?a * _) _ _)
                = List.length (Py.slice (?b * _) _ _) =>
               rewrite (proj2 (R a ltac:(lia) ltac:(lia))),
                       (proj2 (R b ltac:(lia) ltac:(lia))); reflexivity
           end]).
  reflexivity.
Qed.

End Facts.

(** * Further properties *)

Section FurtherFacts.
Context {FL : Floats} {LK : Link}.

(** ** What a method can raise *)

Section RaisesOnly.
Variable P : exn -> Prop.

Lemma ro_ret {A} (a : A) : raises_only P (ret a).
Proof. intros fuel s e s' tr H. discriminate H. Qed.

Lemma ro_input (prompt : string) : raises_only P (input prompt).
Proof. intros fuel s e s' tr H. discriminate H. Qed.

Lemma ro_get_timeout : raises_only P get_timeout.
Proof. intros fuel s e s' tr H. discriminate H. Qed.

Lemma ro_set_timeout (t : Z) : raises_only P (set_timeout t).
Proof. intros fuel s e s' tr H. discriminate H. Qed.

Lemma ro_raise {A} (e : exn) : P e -> raises_only P (@raise _ _ A e).
Proof. intros He fuel s e' s' tr H. inversion H; subst. exact He. Qed.

Lemma ro_write (cmd : string) : P VisaIOError -> raises_only P (write cmd).
Proof.
  intros Hp fuel s e s' tr H. unfold write in H.
  destruct (visa_write cmd (device s)) as [[|] d]; inversion H; subst.
  exact Hp.
Qed.

Lemma ro_query (cmd : string) : P VisaIOError -> raises_only P (query cmd).
Proof.
  intros Hp fuel s e s' tr H. unfold query in H.
  destruct (visa_query cmd (timeout s) (device s)) as [[r|] d];
    inversion H; subst. exact Hp.
Qed.

Lemma ro_bind {A B} (m : M A) (f : A -> M B) :
  raises_only P m -> (forall a, raises_only P (f a)) ->
  raises_only P (bind m f).
Proof.
  intros Hm Hf fuel s e s' tr H. unfold bind in H.
  destruct (m fuel s) as [[[a|e0|] s1] t1] eqn:Em.
  - destruct (f a fuel s1) as [[r s2] t2] eqn:Ef. inversion H; subst.
    exact (Hf a fuel s1 e s' t2 Ef).
  - inversion H; subst. exact (Hm fuel s e s' tr Em).
  - discriminate H.
Qed.

Lemma ro_when (b : bool) (m : M unit) :
  raises_only P m -> raises_only P (when b m).
Proof. intros H. destruct b; simpl; [exact H|apply ro_ret]. Qed.

Lemma ro_iterate {St} (cond : St -> bool) (body : St -> M St) :
  (forall st, raises_only P (body st)) ->
  forall n st, raises_only P (iterate n cond body st).
Proof.
  intros Hb. induction n as [|n IH]; intros st fuel s e s' tr H; simpl in H.
  - destruct (cond st); discriminate H.
  - destruct (cond st); [|discriminate H].
    exact (ro_bind (body st) (iterate n cond body) (Hb st) IH fuel s e s' tr H).
Qed.

Lemma ro_while {St} (cond : St -> bool) (body : St -> M St) (st : St) :
  (forall st, raises_only P (body st)) -> raises_only P (while cond body st).
Proof. intros Hb fuel s. unfold while. apply ro_iterate. exact Hb. Qed.

Lemma ro_for_each {A} (xs : list A) (body : A -> M unit) :
  (forall x, raises_only P (body x)) -> raises_only P (for_each xs body).
Proof.
  intros Hb. induction xs as [|x xs IH]; simpl.
  - apply ro_ret.
  - apply ro_bind; [apply Hb|intros _; exact IH].
Qed.

End RaisesOnly.

Lemma ro_weaken (P Q : exn -> Prop) {A} (m : M A) :
  (forall e, P e -> Q e) -> raises_only P m -> raises_only Q m.
Proof. intros HPQ H fuel s e s' tr E. apply HPQ. exact (H fuel s e s' tr E). Qed.

(** [try_except] lets nothing through that its handler does not raise. *)
Lemma ro_try (P : exn -> Prop) {A} (m : M A) (h : exn -> M A) :
  (forall e, raises_only P (h e)) -> raises_only P (try_except m h).
Proof.
  intros Hh fuel s e s' tr H. unfold try_except in H.
  destruct (m fuel s) as [[[a|e0|] s1] t1] eqn:Em; try discriminate H.
  destruct (h e0 fuel s1) as [[r s2] t2] eqn:Eh. inversion H; subst.
  exact (Hh e0 fuel s1 e s' t2 Eh).
Qed.

Lemma ro_wait_for_opc (tempTimeout : option Z) :
  raises_only link_failure (wait_for_opc tempTimeout).
Proof.
  unfold wait_for_opc.
  destruct tempTimeout as [t|]; [destruct (Py.truthy t)|];
    repeat first [ apply ro_bind; [|intros ?] | apply ro_ret
                 | apply ro_get_timeout | apply ro_set_timeout
                 | apply ro_query; reflexivity ].
Qed.

Lemma ro_read_error : raises_only link_failure read_error.
Proof.
  unfold read_error. apply ro_bind; [apply ro_query; reflexivity|].
  intros r. apply ro_ret.
Qed.

Lemma ro_err_check : raises_only link_or_instrument err_check.
Proof.
  unfold err_check.
  apply ro_bind.
  { apply (ro_weaken link_failure); [intros e ->; left; reflexivity|].
    apply ro_read_error. }
  intros temp. apply ro_bind.
  - apply ro_while. intros st. cbv zeta. apply ro_bind.
    + apply (ro_weaken link_failure); [intros e ->; left; reflexivity|].
      apply ro_read_error.
    + intros x. apply ro_ret.
  - intros st. destruct (snd st); [apply ro_ret|].
    apply ro_raise. right. eexists. reflexivity.
Qed.

(** ** Pointwise monad laws and loop invariants *)

Lemma bind_assoc_at {A B C} (m : M A) (f : A -> M B) (g : B -> M C)
    (fuel : nat) (s : session) :
  bind (bind m f) g fuel s = bind m (fun x => bind (f x) g) fuel s.
Proof.
  unfold bind. destruct (m fuel s) as [[[a|e|] s1] t1]; try reflexivity.
  destruct (f a fuel s1) as [[[b|e|] s2] t2]; try reflexivity.
  destruct (g b fuel s2) as [[r s3] t3]. rewrite app_assoc. reflexivity.
Qed.

Lemma bind_ret_at {A B} (a : A) (f : A -> M B) (fuel : nat) (s : session) :
  bind (ret a) f fuel s = f a fuel s.
Proof.
  unfold bind, ret. destruct (f a fuel s) as [[r s2] t2]. reflexivity.
Qed.

Lemma bind_ret_inside {A B C} (m : M A) (g : A -> B) (f : B -> M C)
    (fuel : nat) (s : session) :
  bind m (fun x => bind (ret (g x)) f) fuel s
  = bind m (fun x => f (g x)) fuel s.
Proof.
  unfold bind at 1 3. destruct (m fuel s) as [[[a|e|] s1] t1];
    try reflexivity.
  rewrite bind_ret_at. reflexivity.
Qed.

Lemma bind_inv_raise {A B} (m : M A) (f : A -> M B) (fuel : nat)
    (s s' : session) (e : exn) (tr : list event) :
  bind m f fuel s = (Raise e, s', tr) ->
  m fuel s = (Raise e, s', tr)
  \/ exists a s1 t1 t2,
       m fuel s = (Ok a, s1, t1) /\ f a fuel s1 = (Raise e, s', t2)
       /\ tr = (t1 ++ t2)%list.
Proof.
  unfold bind. destruct (m fuel s) as [[[a|e0|] s1] t1]; intros H.
  - right. destruct (f a fuel s1) as [[r s2] t2] eqn:Ef.
    inversion H; subst. exists a, s1, t1, t2. repeat split; assumption.
  - left. inversion H; subst. reflexivity.
  - discriminate H.
Qed.

(** An invariant of the loop state holds when the loop returns, and the
    loop condition is then false. *)
Lemma iterate_inv {St} (Inv : St -> Prop) (cond : St -> bool)
    (body : St -> M St) :
  (forall st fuel s st' s' t,
      Inv st -> cond st = true -> body st fuel s = (Ok st', s', t) ->
      Inv st') ->
  forall n st fuel s st' s' t,
    Inv st -> iterate n cond body st fuel s = (Ok st', s', t) ->
    Inv st' /\ cond st' = false.
Proof.
  intros Hb. induction n as [|n IH]; intros st fuel s st' s' t Hi H;
    simpl in H; destruct (cond st) eqn:Ec; try discriminate H.
  - inversion H; subst. split; assumption.
  - apply bind_inv_ok in H. destruct H as (st1 & s1 & t1 & t2 & E1 & E2 & _).
    exact (IH st1 fuel s1 st' s' t2 (Hb _ _ _ _ _ _ Hi Ec E1) E2).
  - inversion H; subst. split; assumption.
Qed.

(** ** Draining the error queue *)

Lemma read_error_trace (fuel : nat) (s s' : session) (r : outcome string)
    (t : list event) :
  read_error fuel s = (r, s', t) -> t = [Query "syst:err?"].
Proof.
  unfold read_error, bind, query, ret.
  destruct (visa_query "syst:err?" (timeout s) (device s)) as [[x|] d];
    intros H; inversion H; reflexivity.
Qed.

Lemma drain_loop (fuel : nat) (errs : list string) (s s' : session)
    (t : list event) :
  drained fuel errs s s' t ->
  forall n acc, (List.length errs <= n)%nat ->
    bind read_error
      (fun temp =>
         iterate n (fun st => negb (String.eqb (fst st) no_error))
           (fun st =>
              let err := (snd st ++ [fst st])%list in
              temp <- read_error ;; ret (temp, err))
           (temp, acc)) fuel s
    = (Ok (no_error, (acc ++ errs)%list), s', t).
Proof.
  induction 1 as [s s' t E|e errs s s1 t1 s' t E Hne _ IH]; intros n acc Hn.
  - rewrite (bind_ok _ _ _ _ _ _ _ E).
    rewrite iterate_done by reflexivity.
    simpl. rewrite !app_nil_r. reflexivity.
  - destruct n as [|n]; [simpl in Hn; lia|].
    rewrite (bind_ok _ _ _ _ _ _ _ E).
    rewrite iterate_round
      by (simpl; apply negb_true_iff, String.eqb_neq, Hne).
    match goal with |- context [bind ?b ?k fuel s1] =>
      assert (R : bind b k fuel s1
                  = (Ok (no_error, ((acc ++ [e]) ++ errs)%list), s', t))
    end.
    { etransitivity; [|exact (IH n (acc ++ [e])%list ltac:(simpl in Hn; lia))].
      etransitivity; [apply bind_assoc_at|].
      exact (bind_ret_inside read_error (fun x => (x, (acc ++ [e])%list))
               _ fuel s1). }
    rewrite R. simpl. rewrite <- app_assoc. reflexivity.
Qed.

Lemma drained_trace (fuel : nat) (errs : list string) (s s' : session)
    (t : list event) :
  drained fuel errs s s' t ->
  t = repeat (Query "syst:err?") (S (List.length errs)).
Proof.
  induction 1 as [s s' t E|e errs s s1 t1 s' t E Hne _ IH].
  - exact (read_error_trace _ _ _ _ _ E).
  - rewrite (read_error_trace _ _ _ _ _ E), IH. reflexivity.
Qed.

(** X1: [err_check] reads the error queue until the instrument answers
    that no error is left.  With nothing queued it returns after one read;
    otherwise it raises one exception that lists every message read, in
    the order read.  It puts nothing on the link but its queries. *)
Theorem err_check_reports_whole_queue (fuel : nat) (errs : list string)
    (s s' : session) (t : list event) :
  drained fuel errs s s' t ->
  (List.length errs <= fuel)%nat ->
  err_check fuel s
  = (match errs with
     | [] => Ok tt
     | _ => Raise (InstrumentErrors errs)
     end, s', t)
  /\ t = repeat (Query "syst:err?") (S (List.length errs)).
Proof.
  intros H Hn. split; [|exact (drained_trace _ _ _ _ _ H)].
  unfold err_check. rewrite <- bind_assoc_at.
  pose proof (drain_loop _ _ _ _ _ H fuel [] Hn) as L. simpl in L.
  erewrite bind_ok; [|exact L]. simpl.
  destruct errs; simpl; rewrite app_nil_r; reflexivity.
Qed.

(** ** The messages [err_check] reports *)

Lemma replace_removes (c : ascii) (s : string) :
  Py.ascii_in c (Py.replace_char c EmptyString s) = false.
Proof.
  unfold Py.ascii_in. induction s as [|x s IH]; [reflexivity|].
  cbn [Py.replace_char]. destruct (Ascii.eqb x c) eqn:E.
  - exact IH.
  - cbn [list_ascii_of_string existsb]. rewrite Ascii.eqb_sym, E. exact IH.
Qed.

Lemma replace_keeps_absent (c c' : ascii) (s : string) :
  Py.ascii_in c s = false ->
  Py.ascii_in c (Py.replace_char c' EmptyString s) = false.
Proof.
  unfold Py.ascii_in. induction s as [|x s IH]; [reflexivity|].
  cbn [Py.replace_char list_ascii_of_string existsb]. intros H.
  apply orb_false_iff in H. destruct H as [Hx Hs].
  destruct (Ascii.eqb x c'); [exact (IH Hs)|].
  cbn [list_ascii_of_string existsb]. rewrite Hx. exact (IH Hs).
Qed.

Lemma read_error_unsigned (fuel : nat) (s s' : session) (temp : string)
    (t : list event) :
  read_error fuel s = (Ok temp, s', t) -> unsigned_text temp.
Proof.
  unfold read_error, bind, query, ret.
  destruct (visa_query "syst:err?" (timeout s) (device s)) as [[x|] d];
    intros H; inversion H; subst. split.
  - apply replace_keeps_absent, replace_removes.
  - apply replace_removes.
Qed.

(** X2: every message in the exception [err_check] raises has lost its
    plus and minus signs (error -211 is reported as 211, and a hyphen in
    the message text is gone as well); the list is never empty and never
    holds the no-error reply. *)
Theorem err_check_messages_are_unsigned (fuel : nat) (s s' : session)
    (errs : list string) (tr : list event) :
  err_check fuel s = (Raise (InstrumentErrors errs), s', tr) ->
  errs <> []
  /\ Forall unsigned_text errs
  /\ Forall (fun e => e <> no_error) errs.
Proof.
  unfold err_check. intros H.
  apply bind_inv_raise in H. destruct H as [H|(temp & s1 & t1 & t2 & E1 & H & _)].
  { apply ro_read_error in H. discriminate H. }
  apply bind_inv_raise in H. destruct H as [H|(st & s2 & t3 & t4 & E2 & H & _)].
  { assert (R : raises_only link_failure
                  (while (fun st => negb (String.eqb (fst st) no_error))
                     (fun st =>
                        let err := (snd st ++ [fst st])%list in
                        temp <- read_error ;; ret (temp, err))
                     (temp, []))).
    { apply ro_while. intros st. cbv zeta.
      apply ro_bind; [apply ro_read_error|intros x; apply ro_ret]. }
    apply R in H. discriminate H. }
  unfold while in E2.
  apply (iterate_inv
           (fun st => unsigned_text (fst st)
                      /\ Forall unsigned_text (snd st)
                      /\ Forall (fun e => e <> no_error) (snd st)))
    in E2.
  - destruct E2 as [(_ & Hu & Hn) _].
    destruct (snd st) as [|e0 err] eqn:Es; [discriminate H|].
    inversion H; subst. split; [discriminate|]. split; assumption.
  - clear. intros st fuel s st' s' t (Hu & Hs & Hn) Hc Hb. cbv zeta in Hb.
    apply bind_inv_ok in Hb.
    destruct Hb as (x & s1 & t1 & t2 & E1 & E2 & _).
    inversion E2; subst. simpl. split; [|split].
    + exact (read_error_unsigned _ _ _ _ _ E1).
    + apply Forall_app. split; [exact Hs|constructor; [exact Hu|constructor]].
    + apply Forall_app. split; [exact Hn|].
      constructor; [|constructor].
      apply String.eqb_neq, negb_true_iff. exact Hc.
  - simpl. split; [exact (read_error_unsigned _ _ _ _ _ E1)|].
    split; constructor.
Qed.

(** ** The barrier when it fails *)

(** X3: when [wait_for_opc] is given a nonzero temporary timeout and the
    barrier query fails, the exception is the link's and the session
    timeout is left at the temporary value: the original is not put
    back. *)
Theorem failed_barrier_keeps_temporary_timeout (t : Z) (fuel : nat)
    (s s' : session) (e : exn) (tr : list event) :
  t <> 0 ->
  wait_for_opc (Some t) fuel s = (Raise e, s', tr) ->
  e = VisaIOError /\ timeout s' = t.
Proof.
  intros Ht H. unfold wait_for_opc in H.
  replace (Py.truthy t) with true in H
    by (symmetry; apply negb_true_iff, Z.eqb_neq, Ht).
  unfold bind, get_timeout, set_timeout, query in H. simpl in H.
  destruct (visa_query "*opc?" t (device s)) as [[reply|] d];
    simpl in H; inversion H; subst. split; reflexivity.
Qed.

(** ** The retry loop never gives up *)

Lemma ro_measure_until_success (P : exn -> Prop)
    (std blocking timeoutMs ch : Z) :
  raises_only P (measure_until_success std blocking timeoutMs ch).
Proof.
  unfold measure_until_success. apply ro_while. intros st.
  apply ro_try. intros e0.
  apply ro_bind; [apply ro_input|intros _; apply ro_ret].
Qed.

(** X4: the retry loop of [run_cal] lets no exception out, whatever the
    instrument and the link do: it returns with the success flag set, or
    it does not return. *)
Theorem retry_loop_never_raises (std blocking timeoutMs ch : Z)
    (fuel : nat) (s : session) :
  fst (fst (measure_until_success std blocking timeoutMs ch fuel s)) = Ok 1
  \/ fst (fst (measure_until_success std blocking timeoutMs ch fuel s))
     = OutOfFuel.
Proof.
  destruct (measure_until_success std blocking timeoutMs ch fuel s)
    as [[[flag|e|] s'] tr] eqn:E; simpl.
  - left. unfold measure_until_success, while in E.
    apply (iterate_inv (fun st => st = 0 \/ st = 1)) in E.
    + destruct E as [[->| ->] Hc]; [discriminate Hc|reflexivity].
    + clear. intros st fuel s st' s' t Hi _ Hb.
      unfold try_except in Hb.
      destruct ((measure_cal_standard std blocking timeoutMs ch ;; ret 1)
                  fuel s) as [[[a|e|] s1] t1] eqn:Em.
      * unfold bind in Em.
        destruct (measure_cal_standard std blocking timeoutMs ch fuel s)
          as [[[u|e|] s2] t2]; inversion Em; subst.
        inversion Hb; subst. right. reflexivity.
      * inversion Hb; subst. exact Hi.
      * discriminate Hb.
    + left. reflexivity.
  - exfalso.
    exact (ro_measure_until_success (fun _ => False) std blocking timeoutMs
             ch fuel s e s' tr E).
  - right. reflexivity.
Qed.

(** ** Loading a cal set *)

Ltac ro_step :=
  first
    [ apply ro_ret | apply ro_input | apply ro_get_timeout
    | apply ro_set_timeout
    | apply ro_err_check
    | apply (ro_weaken link_failure link_or_instrument);
        [intros ? ->; left; reflexivity|apply ro_wait_for_opc]
    | apply ro_write; left; reflexivity
    | apply ro_query; left; reflexivity
    | apply ro_bind; [|intros ?]
    | apply ro_when
    | match goal with
      | |- raises_only _ (if ?b then _ else _) => destruct b
      end ].

Ltac ro := cbv zeta; repeat ro_step.

Lemma not_value_error (msg : string) : link_or_instrument (ValueError msg) -> False.
Proof. intros [H|[err H]]; discriminate H. Qed.

Lemma ro_list_cal_sets : raises_only link_failure list_cal_sets.
Proof.
  unfold list_cal_sets. apply ro_bind; [apply ro_query; reflexivity|].
  intros r. apply ro_ret.
Qed.

Lemma list_cal_sets_trace (fuel : nat) (s s' : session)
    (r : outcome (list string)) (t : list event) :
  list_cal_sets fuel s = (r, s', t) -> t = [Query "cset:catalog?"].
Proof.
  unfold list_cal_sets, bind, query, ret.
  destruct (visa_query "cset:catalog?" (timeout s) (device s)) as [[x|] d];
    intros H; inversion H; reflexivity.
Qed.

Lemma when_raise_inv (b : bool) (e e' : exn) (fuel : nat) (s s' : session)
    (t : list event) :
  when b (raise e) fuel s = (Raise e', s', t) ->
  b = true /\ e' = e /\ s' = s /\ t = [].
Proof.
  destruct b; simpl; intros H; inversion H; subst; repeat split; reflexivity.
Qed.

Lemma when_raise_ok (b : bool) (e : exn) (fuel : nat) (s s' : session)
    (u : unit) (t : list event) :
  when b (raise e) fuel s = (Ok u, s', t) -> b = false /\ s' = s /\ t = [].
Proof.
  destruct b; simpl; intros H; inversion H; subst; repeat split; reflexivity.
Qed.

Lemma ro_activate (calSet : string) (useCalSetStimulus ch : Z) :
  raises_only link_or_instrument
    (write ("sense" ++ Py.str_of_Z ch ++ ":correction:cset:activate "
            ++ quoted calSet ++ ", " ++ Py.str_of_Z useCalSetStimulus) ;;
     wait_for_opc None ;;
     err_check).
Proof. ro. Qed.

(** X5: when [load_cal_set] raises [ValueError], it is because the name is
    not in the catalog, and all it has done is read the catalog: nothing
    was written to the instrument. *)
Theorem unlisted_cal_set_is_refused_untouched (calSet : string)
    (useCalSetStimulus ch : Z) (fuel : nat) (s s' : session) (msg : string)
    (tr : list event) :
  load_cal_set calSet useCalSetStimulus ch fuel s
  = (Raise (ValueError msg), s', tr) ->
  msg = "Selected cal set does not exist."
  /\ tr = [Query "cset:catalog?"].
Proof.
  unfold load_cal_set. intros H.
  apply bind_inv_raise in H.
  destruct H as [H|(avail & s1 & t1 & t2 & E1 & H & ->)].
  { apply ro_list_cal_sets in H. discriminate H. }
  apply list_cal_sets_trace in E1. subst t1.
  apply bind_inv_raise in H.
  destruct H as [H|(u & s2 & t3 & t4 & E2 & H & ->)].
  - apply when_raise_inv in H. destruct H as (_ & E & _ & ->).
    inversion E. split; reflexivity.
  - apply ro_activate in H. destruct (not_value_error _ H).
Qed.

Lemma split_on_pieces (sep : ascii) (s : string) :
  Forall (fun x => Py.ascii_in sep x = false) (Py.split_on sep s).
Proof.
  induction s as [|c s IH]; cbn [Py.split_on].
  - constructor; [reflexivity|constructor].
  - destruct (Ascii.eqb c sep) eqn:E.
    + constructor; [reflexivity|exact IH].
    + destruct (Py.split_on sep s) as [|t ts]; constructor.
      * unfold Py.ascii_in. simpl. rewrite Ascii.eqb_sym, E. reflexivity.
      * constructor.
      * inversion IH; subst. unfold Py.ascii_in in *. simpl.
        rewrite Ascii.eqb_sym, E. assumption.
      * inversion IH; assumption.
Qed.

Lemma split_on_keeps_absent (c sep : ascii) (s : string) :
  Py.ascii_in c s = false ->
  Forall (fun x => Py.ascii_in c x = false) (Py.split_on sep s).
Proof.
  unfold Py.ascii_in.
  induction s as [|x s IH]; cbn [Py.split_on list_ascii_of_string existsb].
  - intros _. constructor; [reflexivity|constructor].
  - intros H. apply orb_false_iff in H. destruct H as [Hx Hs].
    specialize (IH Hs).
    destruct (Ascii.eqb x sep).
    + constructor; [reflexivity|exact IH].
    + destruct (Py.split_on sep s) as [|t ts]; constructor.
      * simpl. rewrite Hx. reflexivity.
      * constructor.
      * inversion IH; subst. simpl. rewrite Hx. assumption.
      * inversion IH; assumption.
Qed.

Lemma str_in_true (x : string) (xs : list string) :
  Py.str_in x xs = true -> In x xs.
Proof.
  unfold Py.str_in. intros H. apply existsb_exists in H.
  destruct H as (y & Hy & E). apply String.eqb_eq in E. subst. exact Hy.
Qed.

(** X6: a cal set whose name holds a comma or a double quote cannot be
    loaded, whatever the catalog says: the catalog is cut at the commas
    after its double quotes are removed, so no entry can equal such a
    name.  [load_cal_set] fails after reading the catalog and writes
    nothing. *)
Theorem cal_set_name_with_comma_or_quote_is_never_loaded (calSet : string)
    (useCalSetStimulus ch : Z) (fuel : nat) (s : session) :
  Py.ascii_in "," calSet = true \/ Py.ascii_in "034" calSet = true ->
  exists e s',
    load_cal_set calSet useCalSetStimulus ch fuel s
    = (Raise e, s', [Query "cset:catalog?"])
    /\ (e = VisaIOError \/ e = ValueError "Selected cal set does not exist.").
Proof.
  intros Hc. unfold load_cal_set.
  destruct (list_cal_sets fuel s) as [[[avail|e|] s1] t1] eqn:E1.
  - pose proof (list_cal_sets_trace _ _ _ _ _ E1) as ->.
    assert (Hin : Py.str_in calSet avail = false).
    { destruct (Py.str_in calSet avail) eqn:Hin; [|reflexivity].
      apply str_in_true in Hin. exfalso.
      unfold list_cal_sets, bind, query, ret in E1.
      destruct (visa_query "cset:catalog?" (timeout s) (device s))
        as [[x|] d]; inversion E1; subst.
      destruct Hc as [Hc|Hc].
      - pose proof (split_on_pieces ","
                      (Py.replace_char "034" EmptyString (Py.rstrip x))) as F.
        rewrite Forall_forall in F. rewrite (F _ Hin) in Hc. discriminate.
      - pose proof (split_on_keeps_absent "034" ","
                      (Py.replace_char "034" EmptyString (Py.rstrip x))
                      (replace_removes _ _)) as F.
        rewrite Forall_forall in F. rewrite (F _ Hin) in Hc. discriminate. }
    exists (ValueError "Selected cal set does not exist."), s1.
    split; [|right; reflexivity].
    rewrite (bind_ok _ _ _ _ _ _ _ E1). rewrite Hin. reflexivity.
  - pose proof (list_cal_sets_trace _ _ _ _ _ E1) as ->.
    exists e, s1. split.
    + exact (bind_raise _ _ _ _ _ _ _ E1).
    + left. exact (ro_list_cal_sets _ _ _ _ _ E1).
  - exfalso. unfold list_cal_sets, bind, query, ret in E1.
    destruct (visa_query "cset:catalog?" (timeout s) (device s))
      as [[x|] d]; discriminate E1.
Qed.

(** ** Trace creators check the parameter first *)

Lemma ro_feed_trace (measName : string) (win : Z) :
  raises_only link_or_instrument (feed_trace measName win).
Proof. unfold feed_trace, ensure_window, next_trace_slot. ro. Qed.

Lemma ro_custom_modify (ch : Z) (measName measParam : string) :
  raises_only link_or_instrument (custom_modify ch measName measParam).
Proof. unfold custom_modify. ro. Qed.

Lemma checked_first (measParam : string) (valid : list string) (msg : string)
    (rest : M unit) :
  raises_only link_or_instrument rest ->
  forall fuel s,
    (Py.str_in measParam valid = false ->
     exists msg',
       (check_param measParam valid msg ;; rest) fuel s
       = (Raise (ValueError msg'), s, []))
    /\ (forall msg' s' tr,
           (check_param measParam valid msg ;; rest) fuel s
           = (Raise (ValueError msg'), s', tr) ->
           Py.str_in measParam valid = false).
Proof.
  intros Hr fuel s. unfold check_param. split.
  - intros ->. exists msg. reflexivity.
  - intros msg' s' tr H.
    destruct (Py.str_in measParam valid); [|reflexivity]. exfalso.
    simpl in H. unfold bind, ret in H.
    destruct (rest fuel s) as [[r s2] t2] eqn:Er. inversion H; subst.
    exact (not_value_error _ (Hr _ _ _ _ _ Er)).
Qed.

(** X7: each of the eight trace creators that take a parameter from a
    fixed list checks it before anything else.  With a parameter outside
    the list the call raises [ValueError] and has not talked to the
    instrument; with one inside the list it never raises [ValueError]. *)
Theorem trace_creators_validate_first (measName measParam : string)
    (modify win ch : Z) (valid : list string) (create : M unit) :
  In (valid, create) (checked_creators measName measParam modify win ch) ->
  forall fuel s,
    (Py.str_in measParam valid = false ->
     exists msg, create fuel s = (Raise (ValueError msg), s, []))
    /\ (forall msg s' tr,
           create fuel s = (Raise (ValueError msg), s', tr) ->
           Py.str_in measParam valid = false).
Proof.
  pose proof ro_feed_trace. pose proof ro_custom_modify.
  unfold checked_creators. simpl.
  intros [E|[E|[E|[E|[E|[E|[E|[E|[]]]]]]]]]; inversion E; subst;
    apply checked_first; ro; auto.
Qed.

(** ** The two-stage de-embedding *)

Lemma quiet_run {A} (m : M A) (fuel : nat) (s s' : session) (r : outcome A)
    (t : list event) :
  writes_all (fun _ => False) m -> m fuel s = (r, s', t) -> writes t = [].
Proof.
  intros Q E. specialize (Q fuel s). rewrite E in Q. apply no_writes, Q.
Qed.

Lemma write_trace (cmd : string) (fuel : nat) (s s' : session)
    (r : outcome unit) (t : list event) :
  write cmd fuel s = (r, s', t) -> t = [Write cmd].
Proof.
  unfold write. destruct (visa_write cmd (device s)) as [ok d].
  intros H. inversion H. reflexivity.
Qed.

(** X8: without [enhancedResponse], a call of [deembed_calset] that
    returns has written the two fixture commands and nothing else, after
    the deletion of the final cal set when [overWrite] is set.  The first
    stage goes through a cal set named intermediate, which no command
    deletes; the scratch channel, the power compensation flags and
    [enableExtrapolation] play no part. *)
Theorem two_stage_path_writes_two_commands
    (baseCalset finalCalset portOneS2p portTwoS2p : string)
    (portOnePowerComp portTwoPowerComp enableExtrapolation overWrite : Z)
    (fuel : nat) (s s' : session) (tr : list event) :
  deembed_calset baseCalset finalCalset portOneS2p portTwoS2p 0
    portOnePowerComp portTwoPowerComp enableExtrapolation overWrite fuel s
  = (Ok tt, s', tr) ->
  writes tr
  = ((if Py.truthy overWrite then [cset_delete finalCalset] else [])
     ++ [("cset:fixture:deembed " ++ quoted baseCalset ++ ","
          ++ quoted "intermediate" ++ "," ++ quoted portOneS2p
          ++ ",1,1,0")%string;
         ("cset:fixture:deembed " ++ quoted "intermediate" ++ ","
          ++ quoted finalCalset ++ "," ++ quoted portTwoS2p
          ++ ",2,1,0")%string])%list.
Proof.
  unfold deembed_calset, two_stage_deembed. cbn [Py.truthy Z.eqb negb].
  intros H.
  apply bind_inv_ok in H. destruct H as (u0 & s0 & t0 & t0' & E0 & H & ->).
  apply bind_inv_ok in H. destruct H as (u1 & s1 & t1 & t1' & E1 & H & ->).
  apply (quiet_run _ _ _ _ _ _ (wa_err_check _)) in H.
  apply bind_inv_ok in E1. destruct E1 as (u2 & s2 & t2 & t2' & E2 & E1 & ->).
  apply write_trace in E2. subst t2.
  apply bind_inv_ok in E1. destruct E1 as (u3 & s3 & t3 & t3' & E3 & E1 & ->).
  apply (quiet_run _ _ _ _ _ _ (wa_wait_for_opc _ _)) in E3.
  apply bind_inv_ok in E1. destruct E1 as (u4 & s4 & t4 & t4' & E4 & E1 & ->).
  apply write_trace in E4. subst t4.
  apply (quiet_run _ _ _ _ _ _ (wa_wait_for_opc _ _)) in E1.
  rewrite !writes_app. cbn [writes].
  rewrite E3, E1, H. cbn [writes app].
  destruct (Py.truthy overWrite); simpl in E0.
  - apply write_trace in E0. subst t0. reflexivity.
  - inversion E0. reflexivity.
Qed.

(** ** Blocks too short for the decode *)

Lemma slice_length {A} (lo hi : Z) (l : list A) :
  0 <= lo -> 0 <= hi ->
  Z.of_nat (List.length (Py.slice lo hi l))
  = Z.max 0 (Z.min hi (Z.of_nat (List.length l))
             - Z.min lo (Z.of_nat (List.length l))).
Proof.
  intros Hlo Hhi. unfold Py.slice, Py.clamp_index.
  destruct (Z.ltb_spec lo 0); [lia|].
  destruct (Z.ltb_spec hi 0); [lia|].
  rewrite length_firstn, length_skipn. lia.
Qed.

Lemma np_add_j_fails_iff (re im : list float) :
  (exists e, np_add_j re im = Raise e)
  <-> (List.length re <> List.length im
       /\ List.length re <> 1 /\ List.length im <> 1)%nat.
Proof.
  unfold np_add_j.
  destruct (Nat.eqb_spec (List.length re) (List.length im)) as [E|E].
  - split; [intros [e H]; discriminate H|intros [H _]; contradiction].
  - destruct re as [|r [|r' re]]; destruct im as [|i [|i' im]];
      simpl in *; split;
      try (intros [e H]; discriminate H);
      try (intros (_ & H1 & H2); congruence);
      try (intros _; repeat split; try exact E; discriminate);
      try (intros _; eexists; reflexivity).
Qed.

(** X9: on a path other than ab, [decode_block] fails exactly when the
    block ends inside its second or third run with two values or more of
    that run present: with [n] points, when the block has between [n+2]
    and [2n] values, or between [2n+2] and [3n-1].  Every other length is
    decoded, shorter blocks to fewer S11 values than frequencies. *)
Theorem decode_block_fails_on_a_partial_run (path : string) (numPoints : Z)
    (raw : list float) :
  String.eqb path "ab" = false ->
  1 <= numPoints ->
  let len := Z.of_nat (List.length raw) in
  (exists e, decode_block path numPoints raw = Raise e)
  <-> (numPoints + 2 <= len <= 2 * numPoints
       \/ 2 * numPoints + 2 <= len <= 3 * numPoints - 1).
Proof.
  intros Hp Hn len. unfold decode_block. rewrite Hp.
  pose proof (slice_length (1 * numPoints) ((1 + 1) * numPoints) raw
                ltac:(lia) ltac:(lia)) as L1.
  pose proof (slice_length (2 * numPoints) ((2 + 1) * numPoints) raw
                ltac:(lia) ltac:(lia)) as L2.
  fold len in L1, L2.
  pose proof (np_add_j_fails_iff
                (Py.slice (1 * numPoints) ((1 + 1) * numPoints) raw)
                (Py.slice (2 * numPoints) ((2 + 1) * numPoints) raw)) as F.
  destruct (np_add_j (Py.slice (1 * numPoints) ((1 + 1) * numPoints) raw)
              (Py.slice (2 * numPoints) ((2 + 1) * numPoints) raw))
    as [s11|e|] eqn:E; cbn [and_then].
  - split.
    + intros [e H]. discriminate H.
    + intros H. exfalso.
      assert (G : exists e : exn, @Ok (list complex) s11 = Raise e)
        by (apply F; lia).
      destruct G as [e G]. discriminate G.
  - split.
    + intros _. assert (G : exists e0 : exn, Raise e = @Raise (list complex) e0)
        by (eexists; reflexivity).
      apply F in G. lia.
    + intros _. eexists. reflexivity.
  - exfalso. unfold np_add_j in E.
    destruct (_ =? _)%nat; [discriminate E|].
    destruct (Py.slice (1 * numPoints) ((1 + 1) * numPoints) raw)
      as [|r [|r' re]];
      destruct (Py.slice (2 * numPoints) ((2 + 1) * numPoints) raw)
        as [|i [|i' im]]; discriminate E.
Qed.

(** ** The catalog, there and back *)

Lemma split_on_app_sep (sep : ascii) (a b : string) :
  Py.ascii_in sep a = false ->
  Py.split_on sep (a ++ String sep b) = a :: Py.split_on sep b.
Proof.
  unfold Py.ascii_in. induction a as [|c a IH]; intros H.
  - simpl. rewrite Ascii.eqb_refl. reflexivity.
  - cbn [list_ascii_of_string existsb] in H.
    apply orb_false_iff in H. destruct H as [Hc Ha].
    cbn [append Py.split_on]. rewrite Ascii.eqb_sym, Hc, (IH Ha). reflexivity.
Qed.

Lemma split_on_concat (sep : ascii) (l : list string) :
  l <> [] ->
  Forall (fun x => Py.ascii_in sep x = false) l ->
  Py.split_on sep (String.concat (String sep EmptyString) l) = l.
Proof.
  induction l as [|x l IH]; [congruence|]. intros _ H.
  inversion H as [|x' l' Hx Hl]; subst.
  destruct l as [|y l].
  - simpl. apply split_on_without, Hx.
  - change (String.concat (String sep EmptyString) (x :: y :: l))
      with (x ++ String sep (String.concat (String sep EmptyString) (y :: l)))%string.
    rewrite split_on_app_sep by exact Hx.
    rewrite IH; [reflexivity|discriminate|exact Hl].
Qed.

Lemma rstrip_by_app (p : ascii -> bool) (s t : string) :
  forallb (fun c => negb (p c)) (list_ascii_of_string s) = true ->
  Py.rstrip_by p t = EmptyString ->
  Py.rstrip_by p (s ++ t) = s.
Proof.
  intros Hs Ht. induction s as [|c s IH]; [exact Ht|].
  cbn [list_ascii_of_string forallb] in Hs.
  apply andb_true_iff in Hs. destruct Hs as [Hc Hs].
  cbn [append Py.rstrip_by]. rewrite (IH Hs).
  destruct s; [|reflexivity].
  apply negb_true_iff in Hc. rewrite Hc. reflexivity.
Qed.

Lemma strip_quoted (body : string) :
  forallb (fun c => negb (Py.ascii_in c (dq ++ nl)))
    (list_ascii_of_string body) = true ->
  Py.strip_chars (dq ++ nl) (quoted body ++ nl) = body.
Proof.
  intros H. unfold Py.strip_chars, Py.strip_by, quoted.
  rewrite !append_assoc.
  change (dq ++ body ++ dq ++ nl)%string
    with (String "034" (body ++ dq ++ nl)).
  cbn [Py.lstrip_by].
  change (Py.ascii_in "034" (dq ++ nl)) with true. cbv iota.
  destruct body as [|c body].
  - reflexivity.
  - pose proof H as H'.
    cbn [list_ascii_of_string forallb] in H'.
    apply andb_true_iff in H'. destruct H' as [Hc _].
    apply negb_true_iff in Hc.
    cbn [append Py.lstrip_by]. rewrite Hc.
    change (String c (body ++ dq ++ nl)) with (String c body ++ dq ++ nl)%string.
    apply rstrip_by_app; [exact H|reflexivity].
Qed.

Lemma forallb_app_string (p : ascii -> bool) (a b : string) :
  forallb p (list_ascii_of_string (a ++ b))
  = forallb p (list_ascii_of_string a) && forallb p (list_ascii_of_string b).
Proof.
  induction a as [|c a IH]; simpl; [reflexivity|].
  rewrite IH, andb_assoc. reflexivity.
Qed.

Lemma forallb_concat (p : ascii -> bool) (sep : string) (l : list string) :
  forallb p (list_ascii_of_string sep) = true ->
  Forall (fun x => forallb p (list_ascii_of_string x) = true) l ->
  forallb p (list_ascii_of_string (String.concat sep l)) = true.
Proof.
  intros Hsep. induction 1 as [|x l Hx Hl IH]; [reflexivity|].
  destruct l as [|y l]; [exact Hx|].
  change (String.concat sep (x :: y :: l))
    with (x ++ sep ++ String.concat sep (y :: l))%string.
  rewrite !forallb_app_string, Hx, Hsep, IH. reflexivity.
Qed.

Lemma forallb_weaken {A} (p q : A -> bool) (l : list A) :
  (forall x, p x = true -> q x = true) ->
  forallb p l = true -> forallb q l = true.
Proof.
  intros W. induction l as [|x l IH]; simpl; [reflexivity|].
  intros H. apply andb_true_iff in H. destruct H as [Hx Hl].
  rewrite (W x Hx), (IH Hl). reflexivity.
Qed.

Lemma plain_token_no_comma (x : string) :
  plain_token x -> Py.ascii_in "," x = false.
Proof.
  unfold plain_token, Py.ascii_in.
  induction x as [|c x IH]; cbn [list_ascii_of_string forallb existsb];
    [reflexivity|]. intros H.
  apply andb_true_iff in H. destruct H as [Hc Hx].
  rewrite (IH Hx), orb_false_r.
  change (list_ascii_of_string ("," ++ dq ++ nl))
    with [","%char; "034"%char; "010"%char] in Hc.
  cbn [existsb] in Hc.
  apply negb_true_iff in Hc. apply orb_false_iff in Hc.
  destruct Hc as [Hc _]. rewrite Ascii.eqb_sym. exact Hc.
Qed.

Lemma plain_token_body (x : string) :
  plain_token x ->
  forallb (fun c => negb (Py.ascii_in c (dq ++ nl)))
    (list_ascii_of_string x) = true.
Proof.
  apply forallb_weaken. intros c H.
  apply negb_true_iff in H. apply negb_true_iff.
  unfold Py.ascii_in in *.
  change (list_ascii_of_string ("," ++ dq ++ nl))
    with (","%char :: list_ascii_of_string (dq ++ nl)) in H.
  cbn [existsb] in H.
  apply orb_false_iff in H. destruct H as [_ H]. exact H.
Qed.

Lemma interleave_plain (nps : list (string * string)) :
  Forall (fun np => plain_token (fst np) /\ plain_token (snd np)) nps ->
  Forall plain_token (interleave nps).
Proof.
  induction 1 as [|np nps [H1 H2] _ IH]; simpl; [constructor|].
  constructor; [exact H1|]. constructor; [exact H2|exact IH].
Qed.

Lemma evens_interleave (nps : list (string * string)) :
  evens (interleave nps) = map fst nps.
Proof.
  induction nps as [|np nps IH]; [reflexivity|].
  simpl. rewrite <- IH. reflexivity.
Qed.

Lemma odds_interleave (nps : list (string * string)) :
  odds (interleave nps) = map snd nps.
Proof.
  unfold odds.
  induction nps as [|np nps IH]; [reflexivity|].
  simpl in *. rewrite <- IH. destruct (interleave nps); reflexivity.
Qed.

Lemma combine_fst_snd {A B} (l : list (A * B)) :
  combine (map fst l) (map snd l) = l.
Proof.
  induction l as [|[a b] l IH]; simpl; [reflexivity|]. rewrite IH. reflexivity.
Qed.

Lemma catalog_tokens_reply (nps : list (string * string)) :
  nps <> [] ->
  Forall (fun np => plain_token (fst np) /\ plain_token (snd np)) nps ->
  catalog_tokens (catalog_reply nps) = interleave nps.
Proof.
  intros Hne Hp. unfold catalog_tokens, catalog_reply.
  pose proof (interleave_plain _ Hp) as Hi.
  rewrite strip_quoted.
  - apply split_on_concat.
    + destruct nps; [congruence|discriminate].
    + revert Hi. apply Forall_impl. exact plain_token_no_comma.
  - apply forallb_concat; [reflexivity|].
    revert Hi. apply Forall_impl. exact plain_token_body.
Qed.

(** X10: when the instrument lists its measurements in the catalog format
    (tokens free of commas, double quotes and line feeds, joined by
    commas, in double quotes, with a line feed), [get_meas_names] gives
    them back: the names in catalog order in the plain form, and in the
    mapping form every name with its parameter, when no name comes
    twice. *)
Theorem get_meas_names_recovers_the_catalog (ch includeParams : Z)
    (nps : list (string * string)) (fuel : nat) (s : session) (d' : inst) :
  nps <> [] ->
  Forall (fun np => plain_token (fst np) /\ plain_token (snd np)) nps ->
  visa_query ("calculate" ++ Py.str_of_Z ch ++ ":parameter:catalog:extended?")
    (timeout s) (device s) = (Some (catalog_reply nps), d') ->
  (includeParams = 0 ->
   fst (fst (get_meas_names ch includeParams fuel s))
   = Ok (NameList (map fst nps)))
  /\ (includeParams <> 0 -> NoDup (map fst nps) ->
      fst (fst (get_meas_names ch includeParams fuel s)) = Ok (NameDict nps)).
Proof.
  intros Hne Hp Hq. unfold get_meas_names, bind, query. rewrite Hq.
  rewrite (catalog_tokens_reply nps Hne Hp).
  rewrite evens_interleave, odds_interleave, combine_fst_snd.
  unfold Py.truthy. split.
  - intros ->. reflexivity.
  - intros Hi Hd. apply Z.eqb_neq in Hi. rewrite Hi. simpl.
    rewrite (dict_fill_distinct nps []); [reflexivity|exact Hd].
Qed.

(** ** What a de-embedding can raise *)

Lemma ro_checked (P : exn -> Prop) (measParam : string)
    (valid : list string) (msg : string) (rest : M unit) :
  Py.str_in measParam valid = true ->
  raises_only P rest ->
  raises_only P (check_param measParam valid msg ;; rest).
Proof.
  intros Hv Hr. unfold check_param. rewrite Hv.
  apply ro_bind; [apply ro_ret|intros _; exact Hr].
Qed.

Lemma ro_check_enum (P : exn -> Prop) (x : string) (valid : list string)
    (msg : string) :
  Py.str_in (Py.lower x) valid = true ->
  raises_only P (check_enum x valid msg).
Proof. intros Hv. unfold check_enum. rewrite Hv. apply ro_ret. Qed.

Lemma link_or_instrument_deembed (e : exn) :
  link_or_instrument e -> deembed_failure e.
Proof. intros [H|H]; [left; exact H|right; left; exact H]. Qed.

Lemma ro_deembed {A} (m : M A) :
  raises_only link_or_instrument m -> raises_only deembed_failure m.
Proof. apply ro_weaken. exact link_or_instrument_deembed. Qed.

Lemma ro_new_sparam_trace (measName measParam : string) (win ch : Z) :
  raises_only link_or_instrument (new_sparam_trace measName measParam win ch).
Proof. pose proof ro_feed_trace. unfold new_sparam_trace. ro; auto. Qed.

Lemma ro_scratch_trace (baseCalset : string) :
  raises_only link_or_instrument (scratch_trace baseCalset).
Proof.
  pose proof ro_feed_trace. pose proof ro_custom_modify.
  unfold scratch_trace.
  destruct (Py.contains "_STD" baseCalset); [apply ro_new_sparam_trace|].
  destruct (Py.contains "_SMC" baseCalset);
    [apply ro_checked; [reflexivity|ro; auto]|].
  destruct (Py.contains "_GCA" baseCalset);
    [apply ro_checked; [reflexivity|ro; auto]|].
  destruct (Py.contains "_GCX" baseCalset);
    [apply ro_checked; [reflexivity|ro; auto]|].
  destruct (Py.contains "_NFA" baseCalset);
    [apply ro_checked; [reflexivity|ro; auto]|].
  destruct (Py.contains "_NFX" baseCalset);
    [apply ro_checked; [reflexivity|ro; auto]|].
  destruct (Py.contains "_MODX" baseCalset);
    [apply ro_checked; [reflexivity|ro; auto]|].
  destruct (Py.contains "_MOD" baseCalset);
    [apply ro_checked; [reflexivity|ro; auto]|].
  apply ro_ret.
Qed.

Lemma ro_load_cal_set (calSet : string) (useCalSetStimulus ch : Z) :
  raises_only deembed_failure (load_cal_set calSet useCalSetStimulus ch).
Proof.
  unfold load_cal_set. apply ro_bind.
  - apply (ro_weaken link_failure); [intros e ->; left; reflexivity|].
    apply ro_list_cal_sets.
  - intros avail. apply ro_bind.
    + apply ro_when, ro_raise. right. right. left. reflexivity.
    + intros _. apply ro_deembed, ro_activate.
Qed.

Lemma ro_query_float (cmd : string) :
  raises_only deembed_failure (query_float cmd).
Proof.
  unfold query_float. apply ro_bind; [apply ro_query; left; reflexivity|].
  intros r. destruct (float_of_str (Py.rstrip r)); [apply ro_ret|].
  apply ro_raise. right. right. right. reflexivity.
Qed.

Lemma ro_configure_mod_sweep_default (centerFreq span : num) (ch : Z) :
  raises_only link_or_instrument (configure_mod_sweep_default centerFreq span ch).
Proof.
  unfold configure_mod_sweep_default, configure_mod_sweep.
  apply ro_bind; [apply ro_check_enum; reflexivity|intros _].
  apply ro_bind; [apply ro_write; left; reflexivity|intros _].
  apply ro_bind; [apply ro_when; ro|intros _].
  apply ro_bind; [apply ro_write; left; reflexivity|intros _].
  apply ro_bind; [apply ro_write; left; reflexivity|intros _].
  apply ro_bind; [apply ro_write; left; reflexivity|intros _].
  apply ro_bind; [apply ro_check_enum; reflexivity|intros _].
  ro.
Qed.

Lemma ro_configure_modx_mixer (loFreq : num) (sideband : string) (ch : Z) :
  sideband = "high" \/ sideband = "low" ->
  raises_only link_or_instrument (configure_modx_mixer loFreq sideband ch).
Proof.
  intros Hs. unfold configure_modx_mixer.
  apply ro_bind; [apply ro_query; left; reflexivity|intros inputFreq].
  apply ro_bind; [apply ro_write; left; reflexivity|intros _].
  apply ro_bind; [apply ro_write; left; reflexivity|intros _].
  apply ro_bind; [ro|intros _].
  apply ro_bind; [apply ro_check_enum; destruct Hs as [->| ->]; reflexivity|].
  intros _. ro.
Qed.

Lemma ro_scratch_stimulus (baseCalset : string) :
  raises_only deembed_failure (scratch_stimulus baseCalset).
Proof.
  unfold scratch_stimulus.
  destruct (Py.contains "MODX" baseCalset).
  - repeat (apply ro_bind; [apply ro_query_float|intros ?]).
    apply ro_bind;
      [apply ro_deembed, ro_configure_mod_sweep_default|intros _].
    apply ro_deembed, ro_configure_modx_mixer.
    destruct (flt _ _); [left|right]; reflexivity.
  - destruct (Py.contains "MOD" baseCalset); [|apply ro_ret].
    repeat (apply ro_bind; [apply ro_query_float|intros ?]).
    apply ro_deembed, ro_configure_mod_sweep_default.
Qed.

Lemma ro_compose_on_scratch_channel
    (baseCalset finalCalset portOneS2p portTwoS2p : string)
    (portOnePowerComp portTwoPowerComp enableExtrapolation : Z) :
  raises_only deembed_failure
    (compose_on_scratch_channel baseCalset finalCalset portOneS2p portTwoS2p
       portOnePowerComp portTwoPowerComp enableExtrapolation).
Proof.
  unfold compose_on_scratch_channel.
  apply ro_bind; [apply ro_deembed, ro_scratch_trace|intros _].
  apply ro_bind; [apply ro_load_cal_set|intros _].
  apply ro_bind; [apply ro_deembed; unfold hold_trigger; ro|intros _].
  apply ro_bind; [apply ro_scratch_stimulus|intros _].
  apply ro_deembed. unfold attach_fixture. ro.
Qed.

(** X11: whatever its arguments, the instrument and the link do, a call of
    [deembed_calset] that raises ends with a failure of the link, with the
    queued instrument errors, with the base cal set missing from the
    catalog, or with a frequency reply that is no number.  The checks of
    the methods it calls on its way (measurement parameter, sweep type,
    power context, sideband) never fire. *)
Theorem deembed_calset_failures
    (baseCalset finalCalset portOneS2p portTwoS2p : string)
    (enhancedResponse portOnePowerComp portTwoPowerComp : Z)
    (enableExtrapolation overWrite : Z) (fuel : nat) (s s' : session)
    (e : exn) (tr : list event) :
  deembed_calset baseCalset finalCalset portOneS2p portTwoS2p
    enhancedResponse portOnePowerComp portTwoPowerComp enableExtrapolation
    overWrite fuel s = (Raise e, s', tr) ->
  deembed_failure e.
Proof.
  revert fuel s e s' tr.
  change (raises_only deembed_failure
            (deembed_calset baseCalset finalCalset portOneS2p portTwoS2p
               enhancedResponse portOnePowerComp portTwoPowerComp
               enableExtrapolation overWrite)).
  unfold deembed_calset.
  apply ro_bind; [apply ro_deembed; ro|intros _].
  apply ro_bind; [|intros _; apply ro_deembed, ro_err_check].
  destruct (Py.truthy enhancedResponse).
  - apply ro_compose_on_scratch_channel.
  - apply ro_deembed. unfold two_stage_deembed. ro.
Qed.

(** ** Loops that count down *)

Lemma uf_ret {A} (a : A) : unfuelled (ret a).
Proof. intros fuel s. discriminate. Qed.

Lemma uf_write (cmd : string) : unfuelled (write cmd).
Proof.
  intros fuel s. unfold write.
  destruct (visa_write cmd (device s)) as [[|] d]; discriminate.
Qed.

Lemma uf_query (cmd : string) : unfuelled (query cmd).
Proof.
  intros fuel s. unfold query.
  destruct (visa_query cmd (timeout s) (device s)) as [[r|] d]; discriminate.
Qed.

Lemma uf_get_timeout : unfuelled get_timeout.
Proof. intros fuel s. discriminate. Qed.

Lemma uf_set_timeout (t : Z) : unfuelled (set_timeout t).
Proof. intros fuel s. discriminate. Qed.

Lemma uf_bind {A B} (m : M A) (f : A -> M B) :
  unfuelled m -> (forall a, unfuelled (f a)) -> unfuelled (bind m f).
Proof.
  intros Hm Hf fuel s. unfold bind. specialize (Hm fuel s).
  destruct (m fuel s) as [[[a|e|] s1] t1]; simpl in *.
  - specialize (Hf a fuel s1).
    destruct (f a fuel s1) as [[r s2] t2]. exact Hf.
  - discriminate.
  - exfalso. apply Hm. reflexivity.
Qed.

Lemma uf_wait_for_opc (tempTimeout : option Z) :
  unfuelled (wait_for_opc tempTimeout).
Proof.
  unfold wait_for_opc.
  destruct tempTimeout as [t|]; [destruct (Py.truthy t)|];
    repeat first [ apply uf_bind; [|intros ?] | apply uf_ret
                 | apply uf_get_timeout | apply uf_set_timeout
                 | apply uf_query ].
Qed.

Section Countdown.
Context {St : Type}.
Variable mu : St -> nat.
Variable cond : St -> bool.
Variable body : St -> M St.
Hypothesis positive : forall st, cond st = true -> (0 < mu st)%nat.
Hypothesis decreases :
  forall st fuel s st' s' t,
    cond st = true -> body st fuel s = (Ok st', s', t) ->
    (mu st' < mu st)%nat.

(** With [mu st] rounds allowed, the loop ends by itself. *)
Lemma iterate_countdown :
  (forall st, unfuelled (body st)) ->
  forall n st fuel s,
    (mu st <= n)%nat ->
    fst (fst (iterate n cond body st fuel s)) <> OutOfFuel.
Proof.
  intros Hb. induction n as [|n IH]; intros st fuel s Hn; simpl.
  - destruct (cond st) eqn:C; [|discriminate].
    apply positive in C. lia.
  - destruct (cond st) eqn:C; [|discriminate].
    unfold bind. pose proof (Hb st fuel s) as Hf.
    destruct (body st fuel s) as [[[st'|e|] s1] t1] eqn:Eb; simpl in *.
    + pose proof (decreases _ _ _ _ _ _ C Eb) as Hd.
      specialize (IH st' fuel s1 ltac:(lia)).
      destruct (iterate n cond body st' fuel s1) as [[r s2] t2]. exact IH.
    + discriminate.
    + exact Hf.
Qed.

(** A command the body issues at most once a round is issued at most
    [mu st] times by the loop. *)
Lemma iterate_issued_bound (c : string) :
  (forall st fuel s, (issued c (snd (body st fuel s)) <= 1)%nat) ->
  forall n st fuel s,
    (issued c (snd (iterate n cond body st fuel s)) <= mu st)%nat.
Proof.
  intros Hb. induction n as [|n IH]; intros st fuel s; simpl.
  - destruct (cond st); unfold issued; simpl; lia.
  - destruct (cond st) eqn:C; [|unfold issued; simpl; lia].
    unfold bind. pose proof (Hb st fuel s) as H1.
    pose proof (positive _ C) as Hp.
    destruct (body st fuel s) as [[[st'|e|] s1] t1] eqn:Eb; simpl in *.
    + pose proof (decreases _ _ _ _ _ _ C Eb) as Hd.
      specialize (IH st' fuel s1).
      destruct (iterate n cond body st' fuel s1) as [[r s2] t2].
      simpl in *. rewrite issued_app. lia.
    + lia.
    + lia.
Qed.

End Countdown.

(** ** The source correction gives up *)

Lemma source_round_positive (maxRetries : Z) (st : Z * Z) :
  (fst st =? 0) && (snd st <=? maxRetries) = true ->
  (0 < rounds_left maxRetries st)%nat.
Proof.
  intros H. apply andb_true_iff in H. destruct H as [H0 H1].
  unfold rounds_left. rewrite H0. apply Z.leb_le in H1. lia.
Qed.

Lemma source_round_decreases (timeoutMs : Z) (sourceName : string)
    (maxRetries ch : Z) (st : Z * Z) (fuel : nat) (s : session)
    (st' : Z * Z) (s' : session) (t : list event) :
  (fst st =? 0) && (snd st <=? maxRetries) = true ->
  source_round timeoutMs sourceName ch st fuel s = (Ok st', s', t) ->
  (rounds_left maxRetries st' < rounds_left maxRetries st)%nat.
Proof.
  intros H E. apply andb_true_iff in H. destruct H as [H0 H1].
  apply Z.leb_le in H1. unfold source_round in E.
  apply bind_inv_ok in E. destruct E as (u & s1 & t1 & t1' & _ & E & _).
  apply bind_inv_ok in E. destruct E as (u' & s2 & t2 & t2' & _ & E & _).
  apply bind_inv_ok in E. destruct E as (r & s3 & t3 & t3' & _ & E & _).
  cbv zeta in E. unfold rounds_left. rewrite H0.
  destruct (Py.contains "Calibration succeeded." (Py.strip r));
    inversion E; subst; simpl.
  - lia.
  - rewrite H0. lia.
Qed.

Lemma source_round_issues_once (timeoutMs : Z) (sourceName : string)
    (ch : Z) (st : Z * Z) (fuel : nat) (s : session) :
  issued (source_acquire ch)
    (snd (source_round timeoutMs sourceName ch st fuel s)) = 1%nat.
Proof.
  rewrite issued_writes. unfold source_round.
  rewrite writes_after_write.
  - rewrite count_occ_cons_eq by reflexivity. reflexivity.
  - apply wa_bind; [apply wa_wait_for_opc|intros _].
    apply wa_bind; [apply wa_query|intros r]. cbv zeta.
    destruct (Py.contains _ _); apply wa_ret.
Qed.

Lemma uf_source_round (timeoutMs : Z) (sourceName : string) (ch : Z)
    (st : Z * Z) :
  unfuelled (source_round timeoutMs sourceName ch st).
Proof.
  unfold source_round.
  apply uf_bind; [apply uf_write|intros _].
  apply uf_bind; [apply uf_wait_for_opc|intros _].
  apply uf_bind; [apply uf_query|intros r]. cbv zeta.
  destruct (Py.contains _ _); apply uf_ret.
Qed.

Lemma ro_source_round (timeoutMs : Z) (sourceName : string) (ch : Z)
    (st : Z * Z) :
  raises_only link_failure (source_round timeoutMs sourceName ch st).
Proof.
  unfold source_round.
  apply ro_bind; [apply ro_write; reflexivity|intros _].
  apply ro_bind; [apply ro_wait_for_opc|intros _].
  apply ro_bind; [apply ro_query; reflexivity|intros r]. cbv zeta.
  destruct (Py.contains _ _); apply ro_ret.
Qed.

(** X12: [initiate_source_correction_cal] starts the acquisition once
    without [retry], and with [retry] at most [maxRetries + 1] times: the
    first attempt and [maxRetries] more.  With a negative [maxRetries] it
    starts none. *)
Theorem source_correction_attempts_are_bounded (timeoutMs : Z)
    (sourceName : string) (retry maxRetries ch : Z) (fuel : nat)
    (s : session) :
  (issued (source_acquire ch)
     (snd (initiate_source_correction_cal timeoutMs sourceName retry
             maxRetries ch fuel s))
   <= if Py.truthy retry then Z.to_nat (maxRetries + 1) else 1)%nat.
Proof.
  unfold initiate_source_correction_cal.
  destruct (Py.truthy retry).
  - fold (source_round timeoutMs sourceName ch).
    unfold bind, while.
    pose proof (iterate_issued_bound (rounds_left maxRetries)
                  (fun st => (fst st =? 0) && (snd st <=? maxRetries))
                  (source_round timeoutMs sourceName ch)
                  (source_round_positive maxRetries)
                  (source_round_decreases timeoutMs sourceName maxRetries ch)
                  (source_acquire ch)
                  (fun st fuel s =>
                     Nat.eq_le_incl _ _
                       (source_round_issues_once timeoutMs sourceName ch st
                          fuel s))
                  fuel (0, 0) fuel s) as B.
    unfold rounds_left in B at 1. simpl fst in B. simpl snd in B.
    rewrite Z.eqb_refl, Z.sub_0_r in B.
    destruct (iterate fuel _ _ (0, 0) fuel s) as [[[st|e|] s1] t1];
      simpl in *; try rewrite app_nil_r; exact B.
  - rewrite issued_writes, writes_after_write.
    + rewrite count_occ_cons_eq by reflexivity. simpl. lia.
    + apply wa_wait_for_opc.
Qed.

(** X13: given fuel for [maxRetries + 1] rounds, a call of
    [initiate_source_correction_cal] returns or fails on the link, and
    nothing else: when the retries are used up without the status ever
    reading as a success, the method returns as it does after a success.
    No exception and no return value tell the two apart. *)
Theorem source_correction_failure_is_not_reported (timeoutMs : Z)
    (sourceName : string) (retry maxRetries ch : Z) (fuel : nat)
    (s : session) :
  (Z.to_nat (maxRetries + 1) <= fuel)%nat ->
  fst (fst (initiate_source_correction_cal timeoutMs sourceName retry
              maxRetries ch fuel s)) = Ok tt
  \/ fst (fst (initiate_source_correction_cal timeoutMs sourceName retry
                 maxRetries ch fuel s)) = Raise VisaIOError.
Proof.
  intros Hf.
  assert (R : raises_only link_failure
                (initiate_source_correction_cal timeoutMs sourceName retry
                   maxRetries ch)).
  { unfold initiate_source_correction_cal. destruct (Py.truthy retry).
    - apply ro_bind; [|intros _; apply ro_ret].
      apply ro_while. intros st.
      exact (ro_source_round timeoutMs sourceName ch st).
    - apply ro_bind; [apply ro_write; reflexivity|intros _].
      apply ro_wait_for_opc. }
  assert (U : fst (fst (initiate_source_correction_cal timeoutMs sourceName
                          retry maxRetries ch fuel s)) <> OutOfFuel).
  { unfold initiate_source_correction_cal. destruct (Py.truthy retry).
    - fold (source_round timeoutMs sourceName ch).
      unfold bind, while.
      pose proof (iterate_countdown (rounds_left maxRetries)
                    (fun st => (fst st =? 0) && (snd st <=? maxRetries))
                    (source_round timeoutMs sourceName ch)
                    (source_round_positive maxRetries)
                    (source_round_decreases timeoutMs sourceName maxRetries
                       ch)
                    (uf_source_round timeoutMs sourceName ch)
                    fuel (0, 0) fuel s) as T.
      unfold rounds_left in T at 1. simpl fst in T. simpl snd in T.
      rewrite Z.eqb_refl, Z.sub_0_r in T. specialize (T Hf).
      destruct (iterate fuel _ _ (0, 0) fuel s) as [[[st|e|] s1] t1];
        simpl in *; [discriminate|discriminate|exfalso; apply T; reflexivity].
    - apply (uf_bind (write (source_acquire ch))
               (fun _ => wait_for_opc (Some timeoutMs)));
        [apply uf_write|intros _; apply uf_wait_for_opc]. }
  destruct (initiate_source_correction_cal timeoutMs sourceName retry
              maxRetries ch fuel s) as [[[[]|e|] s'] tr] eqn:E; simpl in *.
  - left. reflexivity.
  - right. rewrite (R _ _ _ _ _ E). reflexivity.
  - congruence.
Qed.

(** ** The smart cal definition *)




Lemma wa_smart_cal_checks (repr : list string -> string)
    (availableConnectors : list string) (cks : list (string * string)) :
  writes_all (fun _ => False)
    (for_each cks
       (fun ck =>
          let c := fst ck in
          let k := snd ck in
          when (negb (Py.str_in c availableConnectors))
            (raise (ValueError
               (quoted c
                ++ " is not a valid connector type. Choose from this list: "
                ++ repr availableConnectors ++ "."))) ;;
          r <- query ("sense:correction:collect:guided:ckit:cat? "
                      ++ quoted c) ;;
          let availableCalKits := spaced_catalog r in
          when (negb (Py.str_in k availableCalKits))
            (raise (ValueError
               (quoted k ++ " is not a valid cal kit for " ++ c
                ++ " connector type. Choose from this list: "
                ++ repr availableCalKits ++ "."))))).
Proof.
  apply wa_for_each. intros ck. cbv zeta.
  apply wa_bind; [apply wa_when, wa_raise|intros _].
  apply wa_bind; [apply wa_query|intros r].
  apply wa_when, wa_raise.
Qed.

Lemma ro_smart_cal_writes (numPorts : Z) (connectors calKits : list string)
    (ch : Z) :
  raises_only link_failure
    (for_each (combine (Py.range 1 (numPorts + 1)) (combine connectors calKits))
       (fun pck =>
          let p := fst pck in
          let c := fst (snd pck) in
          let k := snd (snd pck) in
          write (guided_connector ch p c) ;;
          write (guided_ckit ch p k)) ;;
     write save_preference).
Proof.
  apply ro_bind.
  - apply ro_for_each. intros pck. cbv zeta.
    apply ro_bind; [apply ro_write; reflexivity|intros _].
    apply ro_write. reflexivity.
  - intros _. apply ro_write. reflexivity.
Qed.

(** X14: [define_smart_cal] checks every connector and cal kit against
    the instrument's lists before it writes anything: a call that raises
    [ValueError] has written no command. *)
Theorem smart_cal_is_checked_before_it_is_written
    (repr : list string -> string) (numPorts : Z)
    (connectors calKits : list string) (ch : Z) (fuel : nat)
    (s s' : session) (msg : string) (tr : list event) :
  define_smart_cal repr numPorts connectors calKits ch fuel s
  = (Raise (ValueError msg), s', tr) ->
  writes tr = [].
Proof.
  unfold define_smart_cal. intros H.
  apply bind_inv_raise in H.
  destruct H as [H|(r & s1 & t1 & t2 & E1 & H & ->)].
  { apply (ro_query link_failure _ eq_refl) in H. discriminate H. }
  apply (quiet_run _ _ _ _ _ _ (wa_query _ _)) in E1.
  cbv zeta in H. apply bind_inv_raise in H.
  destruct H as [H|(u & s2 & t3 & t4 & E2 & H & ->)].
  - apply (quiet_run _ _ _ _ _ _ (wa_smart_cal_checks repr _ _)) in H.
    rewrite writes_app, E1, H. reflexivity.
  - apply ro_smart_cal_writes in H. discriminate H.
Qed.


(** ** The unleveled bit *)

Lemma bit_two (n : Z) : Py.truthy (Z.land n (Z.shiftl 1 2)) = Z.testbit n 2.
Proof.
  change (Z.shiftl 1 2) with (2 ^ 2). unfold Py.truthy.
  destruct (Z.testbit n 2) eqn:T.
  - apply negb_true_iff, Z.eqb_neq. intros E.
    assert (B : Z.testbit (Z.land n (2 ^ 2)) 2 = true).
    { rewrite Z.land_spec, T. reflexivity. }
    rewrite E in B. discriminate B.
  - apply negb_false_iff, Z.eqb_eq. apply Z.bits_inj'. intros i Hi.
    rewrite Z.land_spec, Z.bits_0, Z.pow2_bits_eqb by lia.
    destruct (Z.eqb_spec 2 i) as [<-|]; [rewrite T; reflexivity|].
    apply andb_false_r.
Qed.

(** X16: [source_unleveled_check] looks at bit 2 of the condition register
    and at nothing else: when the reply reads as the integer [n], the
    check raises [ValueError] if bit 2 of [n] is set and returns if it is
    clear, whatever the other bits are. *)
Theorem unleveled_check_reads_bit_two (fuel : nat) (s : session)
    (r : string) (d' : inst) (n : Z) :
  visa_query "status:questionable:integrity:hardware:condition?"
    (timeout s) (device s) = (Some r, d') ->
  Py.int_of_str r = Some n ->
  fst (fst (source_unleveled_check fuel s))
  = if Z.testbit n 2 then Raise (ValueError "VNA source is unleveled.")
    else Ok tt.
Proof.
  intros Hq Hn. unfold source_unleveled_check, bind, query, int_.
  rewrite Hq, Hn. cbv zeta. unfold ret at 1. cbv beta iota.
  rewrite bit_two. destruct (Z.testbit n 2); reflexivity.
Qed.

(** ** A channel without measurements *)

Lemma split_on_cons (sep : ascii) (s : string) :
  exists x rest, Py.split_on sep s = x :: rest.
Proof.
  destruct (Py.split_on sep s) as [|x rest] eqn:E.
  - pose proof (length_split_on sep s) as L. rewrite E in L. discriminate L.
  - exists x, rest. reflexivity.
Qed.

(** X17: the plain form of [get_meas_names] never returns an empty list.
    Whatever the instrument answers, the answer cut at the commas has a
    first piece, and that piece is returned as a name: a channel without
    measurements gives a list of one name, the text of the reply. *)
Theorem get_meas_names_is_never_empty (ch includeParams : Z) (fuel : nat)
    (s s' : session) (measNames : list string) (tr : list event) :
  get_meas_names ch includeParams fuel s = (Ok (NameList measNames), s', tr) ->
  exists first rest, measNames = first :: rest.
Proof.
  unfold get_meas_names. intros H.
  apply bind_inv_ok in H. destruct H as (raw & s1 & t1 & t2 & _ & H & _).
  cbv zeta in H.
  destruct (Py.truthy includeParams); inversion H; subst.
  destruct (split_on_cons "," (Py.strip_chars (dq ++ nl) raw))
    as (x & rest & E).
  unfold catalog_tokens. rewrite E. simpl. eexists. eexists. reflexivity.
Qed.

(** ** What a guided calibration can raise *)


(** ** ECal data that was never fetched *)

Lemma fetches_app (t1 t2 : list event) :
  fetches (t1 ++ t2) = (fetches t1 + fetches t2)%nat.
Proof.
  induction t1 as [|e t1 IH]; [reflexivity|].
  destruct e; simpl; rewrite IH; reflexivity.
Qed.

Lemma fl_ret {A} (a : A) : fetchless (ret a).
Proof. intros fuel s. reflexivity. Qed.

Lemma fl_raise {A} (e : exn) : fetchless (@raise _ _ A e).
Proof. intros fuel s. reflexivity. Qed.

Lemma fl_write (cmd : string) : fetchless (write cmd).
Proof.
  intros fuel s. unfold write.
  destruct (visa_write cmd (device s)). reflexivity.
Qed.

Lemma fl_query (cmd : string) : fetchless (query cmd).
Proof.
  intros fuel s. unfold query.
  destruct (visa_query cmd (timeout s) (device s)). reflexivity.
Qed.

Lemma fl_bind {A B} (m : M A) (f : A -> M B) :
  fetchless m -> (forall a, fetchless (f a)) -> fetchless (bind m f).
Proof.
  intros Hm Hf fuel s. unfold bind. specialize (Hm fuel s).
  destruct (m fuel s) as [[[a|e|] s1] t1]; simpl in *; try exact Hm.
  specialize (Hf a fuel s1).
  destruct (f a fuel s1) as [[r s2] t2]; simpl in *.
  rewrite fetches_app, Hm, Hf. reflexivity.
Qed.

Lemma fl_when (b : bool) (m : M unit) : fetchless m -> fetchless (when b m).
Proof. intros H. destruct b; [exact H|apply fl_ret]. Qed.

Lemma fl_for_fold {A St} (xs : list A) (body : A -> St -> M St) :
  (forall x st, fetchless (body x st)) ->
  forall st, fetchless (for_fold xs body st).
Proof.
  intros Hb. induction xs as [|x xs IH]; intros st; simpl.
  - apply fl_ret.
  - apply fl_bind; [apply Hb|exact IH].
Qed.

Lemma fl_int_ (r : string) : fetchless (int_ r).
Proof. unfold int_. destruct (Py.int_of_str r); [apply fl_ret|apply fl_raise]. Qed.

Lemma fl_ints (raw : list string) : fetchless (ints raw).
Proof.
  induction raw as [|r raw IH]; simpl; [apply fl_ret|].
  apply fl_bind; [apply fl_int_|intros z].
  apply fl_bind; [exact IH|intros zs; apply fl_ret].
Qed.

Lemma fl_item {V} (d : dict V) (k : string) : fetchless (item d k).
Proof. unfold item. destruct (dict_get k d); [apply fl_ret|apply fl_raise]. Qed.

Lemma ro_for_fold (P : exn -> Prop) {A St} (xs : list A)
    (body : A -> St -> M St) :
  (forall x st, raises_only P (body x st)) ->
  forall st, raises_only P (for_fold xs body st).
Proof.
  intros Hb. induction xs as [|x xs IH]; intros st; simpl.
  - apply ro_ret.
  - apply ro_bind; [apply Hb|exact IH].
Qed.

Lemma ro_int_ (P : exn -> Prop) (r : string) :
  (forall msg, P (ValueError msg)) -> raises_only P (int_ r).
Proof.
  intros Hp. unfold int_.
  destruct (Py.int_of_str r); [apply ro_ret|apply ro_raise, Hp].
Qed.

Lemma ro_ints (P : exn -> Prop) (raw : list string) :
  (forall msg, P (ValueError msg)) -> raises_only P (ints raw).
Proof.
  intros Hp. induction raw as [|r raw IH]; simpl; [apply ro_ret|].
  apply ro_bind; [apply ro_int_, Hp|intros z].
  apply ro_bind; [exact IH|intros zs; apply ro_ret].
Qed.

Lemma ro_item (P : exn -> Prop) {V} (d : dict V) (k : string) :
  (forall key, P (KeyError key)) -> raises_only P (item d k).
Proof.
  intros Hp. unfold item.
  destruct (dict_get k d); [apply ro_ret|apply ro_raise, Hp].
Qed.

Lemma bound_value_error (msg : string) : bound_error (ValueError msg).
Proof. intros name. discriminate. Qed.

Lemma bound_visa_error : bound_error VisaIOError.
Proof. intros name. discriminate. Qed.

Lemma fl_get_ecal_module_nums : fetchless get_ecal_module_nums.
Proof.
  unfold get_ecal_module_nums.
  apply fl_bind; [apply fl_query|intros r]. cbv zeta.
  apply fl_bind; [apply fl_ints|intros modList].
  destruct modList as [|[| |] [|]]; first [apply fl_ret|apply fl_raise].
Qed.

Lemma ro_get_ecal_module_nums : raises_only bound_error get_ecal_module_nums.
Proof.
  unfold get_ecal_module_nums.
  apply ro_bind; [apply ro_query, bound_visa_error|intros r]. cbv zeta.
  apply ro_bind; [apply ro_ints, bound_value_error|intros modList].
  destruct modList as [|[| |] [|]];
    first [apply ro_ret|apply ro_raise; intros name; discriminate].
Qed.

Lemma fl_get_ecal_module_states (ecalNum numPorts : Z) :
  fetchless (get_ecal_module_states ecalNum numPorts).
Proof.
  unfold get_ecal_module_states. apply fl_bind.
  - destruct (numPorts =? 2); [apply fl_ret|].
    destruct (numPorts =? 4); [apply fl_ret|apply fl_raise].
  - intros portPaths. apply fl_for_fold. intros p stateDict.
    apply fl_bind; [apply fl_query|intros r].
    apply fl_bind; [apply fl_int_|intros n; apply fl_ret].
Qed.

Lemma ro_get_ecal_module_states (ecalNum numPorts : Z) :
  raises_only bound_error (get_ecal_module_states ecalNum numPorts).
Proof.
  unfold get_ecal_module_states. apply ro_bind.
  - destruct (numPorts =? 2); [apply ro_ret|].
    destruct (numPorts =? 4); [apply ro_ret|].
    apply ro_raise, bound_value_error.
  - intros portPaths. apply ro_for_fold. intros p stateDict.
    apply ro_bind; [apply ro_query, bound_visa_error|intros r].
    apply ro_bind; [apply ro_int_, bound_value_error|intros n; apply ro_ret].
Qed.

Lemma fl_get_individual_ecal_info (ecalNum : Z) :
  fetchless (get_individual_ecal_info ecalNum).
Proof.
  unfold get_individual_ecal_info.
  apply fl_bind; [apply fl_query|intros r]. cbv zeta.
  apply fl_for_fold. intros c ecalInfoDict.
  apply fl_bind; [apply fl_query|intros r']. cbv zeta.
  apply fl_bind; [|intros rawDict; apply fl_ret].
  apply fl_for_fold. intros x rawDict.
  apply fl_bind; [|intros kv; apply fl_ret].
  unfold key_value.
  destruct (Py.split_str ": " x) as [|k [|v [|w l]]];
    first [apply fl_ret|apply fl_raise].
Qed.

Lemma ro_get_individual_ecal_info (ecalNum : Z) :
  raises_only bound_error (get_individual_ecal_info ecalNum).
Proof.
  unfold get_individual_ecal_info.
  apply ro_bind; [apply ro_query, bound_visa_error|intros r]. cbv zeta.
  apply ro_for_fold. intros c ecalInfoDict.
  apply ro_bind; [apply ro_query, bound_visa_error|intros r']. cbv zeta.
  apply ro_bind; [|intros rawDict; apply ro_ret].
  apply ro_for_fold. intros x rawDict.
  apply ro_bind; [|intros kv; apply ro_ret].
  unfold key_value.
  destruct (Py.split_str ": " x) as [|k [|v [|w l]]];
    first [apply ro_ret|apply ro_raise, bound_value_error].
Qed.

Lemma np_add_j_raises (re im : list float) (e : exn) :
  np_add_j re im = Raise e -> bound_error e.
Proof.
  unfold np_add_j. destruct (_ =? _)%nat; [discriminate|].
  destruct re as [|r [|r' re]]; destruct im as [|i [|i' im]];
    intros H; inversion H; apply bound_value_error.
Qed.

Lemma and_then_raises {A B} (r : outcome A) (f : A -> outcome B) (e : exn) :
  (forall e', r = Raise e' -> bound_error e') ->
  (forall a e', f a = Raise e' -> bound_error e') ->
  and_then r f = Raise e -> bound_error e.
Proof.
  intros Hr Hf. destruct r as [a|e0|]; simpl; intros H.
  - exact (Hf a e H).
  - inversion H; subst. apply Hr. reflexivity.
  - discriminate H.
Qed.

Lemma decode_block_raises (path : string) (numPoints : Z) (raw : list float)
    (e : exn) :
  decode_block path numPoints raw = Raise e -> bound_error e.
Proof.
  unfold decode_block.
  apply and_then_raises; [intros e'; apply np_add_j_raises|intros s11 e'].
  destruct (String.eqb path "ab"); [|discriminate].
  apply and_then_raises; [intros e''; apply np_add_j_raises|intros s12 e''].
  apply and_then_raises; [intros e3; apply np_add_j_raises|intros s21 e3].
  apply and_then_raises; [intros e4; apply np_add_j_raises|intros s22 e4].
  discriminate.
Qed.

Lemma bind_cases {A B} (m : M A) (f : A -> M B) (fuel : nat)
    (s s' : session) (r : outcome B) (tr : list event) :
  bind m f fuel s = (r, s', tr) ->
  (exists a s1 t1 t2,
      m fuel s = (Ok a, s1, t1) /\ f a fuel s1 = (r, s', t2)
      /\ tr = (t1 ++ t2)%list)
  \/ (exists e, m fuel s = (Raise e, s', tr) /\ r = Raise e)
  \/ (m fuel s = (OutOfFuel, s', tr) /\ r = OutOfFuel).
Proof.
  unfold bind. destruct (m fuel s) as [[[a|e|] s1] t1]; intros H.
  - left. destruct (f a fuel s1) as [[r2 s2] t2] eqn:Ef.
    inversion H; subst. exists a, s1, t1, t2.
    split; [reflexivity|]. split; [exact Ef|reflexivity].
  - right. left. inversion H; subst. exists e. split; reflexivity.
  - right. right. inversion H; subst. split; reflexivity.
Qed.

(** One fetch of the loop of [get_ecal_sparam_data]. *)
Lemma fetch_step (ecalNum char numPoints : Z) (path : string) (state : Z)
    (fuel : nat) (s s' : session)
    (r : outcome (option (list float * list complex))) (t : list event) :
  (raw <- query_binary_values
            ("sense:correction:ckit:ecal" ++ Py.str_of_Z ecalNum
             ++ ":path:data? " ++ path ++ "," ++ Py.str_of_Z state
             ++ ",char" ++ Py.str_of_Z char) ;;
   block <- lift (decode_block path numPoints raw) ;;
   ret (Some block)) fuel s = (r, s', t) ->
  fetches t = 1%nat
  /\ match r with
     | Ok last' => last' <> None
     | Raise e => bound_error e
     | OutOfFuel => True
     end.
Proof.
  unfold bind, query_binary_values, lift, ret.
  destruct (visa_query_binary _ (timeout s) (device s)) as [[raw|] d].
  - destruct (decode_block path numPoints raw) as [block|e|] eqn:E;
      intros H; inversion H; subst; (split; [reflexivity|]).
    all: first [ discriminate | exact I
               | exact (decode_block_raises _ _ _ _ E) ].
  - intros H. inversion H; subst. split; [reflexivity|].
    apply bound_visa_error.
Qed.

Lemma for_fold_counts {A St} (Inv : St -> nat -> Prop) (xs : list A)
    (body : A -> St -> M St) :
  (forall x st n fuel s r s' t,
      Inv st n -> body x st fuel s = (r, s', t) ->
      match r with
      | Ok st' => Inv st' (n + fetches t)%nat
      | Raise e => bound_error e
      | OutOfFuel => True
      end) ->
  forall st n fuel s r s' t,
    Inv st n -> for_fold xs body st fuel s = (r, s', t) ->
    match r with
    | Ok st' => Inv st' (n + fetches t)%nat
    | Raise e => bound_error e
    | OutOfFuel => True
    end.
Proof.
  intros Hb. induction xs as [|x xs IH]; intros st n fuel s r s' t Hi H;
    simpl in H.
  - inversion H; subst. simpl. rewrite Nat.add_0_r. exact Hi.
  - unfold bind in H.
    destruct (body x st fuel s) as [[[st1|e|] s1] t1] eqn:Eb.
    + pose proof (Hb _ _ _ _ _ _ _ _ Hi Eb) as H1. simpl in H1.
      destruct (for_fold xs body st1 fuel s1) as [[r2 s2] t2] eqn:Ef.
      inversion H; subst.
      pose proof (IH _ _ _ _ _ _ _ H1 Ef) as H2.
      destruct r; try exact H2.
      rewrite fetches_app, Nat.add_assoc. exact H2.
    + inversion H; subst. exact (Hb _ _ _ _ _ _ _ _ Hi Eb).
    + inversion H; subst. exact I.
Qed.

(** X19: a call of [get_ecal_sparam_data] that returns has asked the
    instrument for at least one data block, and a call that ends with
    [UnboundLocalError] has asked for none: the exception is what a module
    gets whose paths all report no state, since the values returned are
    only assigned inside the loop over the states. *)
Theorem ecal_data_is_unbound_when_nothing_was_fetched (ecalNum char : Z)
    (fuel : nat) (s s' : session)
    (r : outcome (list float * list complex)) (tr : list event) :
  get_ecal_sparam_data ecalNum char fuel s = (r, s', tr) ->
  match r with
  | Ok _ => (0 < fetches tr)%nat
  | Raise (UnboundLocalError _) => fetches tr = 0%nat
  | _ => True
  end.
Proof.
  assert (Step : forall {A B} (m : M A) (f : A -> M B),
             fetchless m -> raises_only bound_error m ->
             (forall a fuel s r s' tr,
                 f a fuel s = (r, s', tr) ->
                 match r with
                 | Ok _ => (0 < fetches tr)%nat
                 | Raise (UnboundLocalError _) => fetches tr = 0%nat
                 | _ => True
                 end) ->
             forall fuel s r s' tr,
               bind m f fuel s = (r, s', tr) ->
               match r with
               | Ok _ => (0 < fetches tr)%nat
               | Raise (UnboundLocalError _) => fetches tr = 0%nat
               | _ => True
               end).
  { intros A B m f Hfl Hro Hf fuel0 s0 r0 s0' tr0 H. unfold bind in H.
    pose proof (Hfl fuel0 s0) as F.
    destruct (m fuel0 s0) as [[[a|e|] s1] t1] eqn:Em; simpl in F.
    - destruct (f a fuel0 s1) as [[r2 s2] t2] eqn:Ef.
      inversion H; subst. rewrite fetches_app, F. simpl.
      exact (Hf _ _ _ _ _ _ Ef).
    - inversion H; subst.
      pose proof (Hro _ _ _ _ _ Em) as Hb.
      destruct e as [msg|msg|key|name| |err]; try exact I.
      destruct (Hb name). reflexivity.
    - inversion H; subst. exact I. }
  revert fuel s r s' tr. unfold get_ecal_sparam_data.
  apply Step; [apply fl_get_ecal_module_nums|apply ro_get_ecal_module_nums|].
  intros nums.
  apply Step; [apply fl_when, fl_raise
              |apply ro_when, ro_raise, bound_value_error|].
  intros _.
  apply Step; [apply fl_get_ecal_module_states
              |apply ro_get_ecal_module_states|].
  intros pathDict.
  apply Step; [apply fl_get_individual_ecal_info
              |apply ro_get_individual_ecal_info|].
  intros infoDict.
  apply Step; [apply fl_write|apply ro_write, bound_visa_error|]. intros _.
  apply Step; [apply fl_write|apply ro_write, bound_visa_error|]. intros _.
  apply Step; [apply fl_item
              |apply ro_item; intros key name; discriminate|].
  intros charInfo.
  apply Step; [apply fl_item
              |apply ro_item; intros key name; discriminate|].
  intros points.
  apply Step; [apply fl_int_|apply ro_int_, bound_value_error|].
  intros numPoints fuel s r s' tr H. cbv zeta in H.
  apply bind_cases in H.
  assert (L : forall st n fuel0 s0 r0 s0' t0,
             unbound_so_far st n ->
             for_fold pathDict
               (fun entry last =>
                  let path := fst entry in
                  let stateValue := snd entry in
                  for_fold (Py.range 0 stateValue)
                    (fun state _ =>
                       raw <- query_binary_values
                                ("sense:correction:ckit:ecal"
                                 ++ Py.str_of_Z ecalNum ++ ":path:data? "
                                 ++ path ++ "," ++ Py.str_of_Z state
                                 ++ ",char" ++ Py.str_of_Z char) ;;
                       block <- lift (decode_block path numPoints raw) ;;
                       ret (Some block))
                    last)
               st fuel0 s0 = (r0, s0', t0) ->
             match r0 with
             | Ok st' => unbound_so_far st' (n + fetches t0)%nat
             | Raise e => bound_error e
             | OutOfFuel => True
             end).
  { apply for_fold_counts.
    intros entry st n fuel0 s0 r0 s0' t0 Hi Hb. cbv zeta in Hb.
    revert st n fuel0 s0 r0 s0' t0 Hi Hb. apply for_fold_counts.
    intros state st1 n1 fuel1 s2 r1 s2' t2 Hi1 Hb1.
    destruct (fetch_step _ _ _ _ _ _ _ _ _ _ Hb1) as [F1 R1].
    destruct r1 as [st2|e1|]; try exact R1.
    unfold unbound_so_far. rewrite F1.
    split; [intros E; contradiction|lia]. }
  destruct H as [(last & s1 & t1 & t2 & El & H & ->)|[(e & El & ->)|[El ->]]].
  - apply L with (n := 0%nat) in El; [|split; reflexivity].
    simpl in El. unfold unbound_so_far in El. rewrite fetches_app.
    destruct last as [block|]; inversion H; subst; simpl;
      rewrite Nat.add_0_r.
    + destruct (fetches t1); [|lia].
      destruct El as [_ El]. specialize (El eq_refl). discriminate El.
    + apply El. reflexivity.
  - apply L with (n := 0%nat) in El; [|split; reflexivity].
    destruct e as [msg|msg|key|name| |err]; try exact I.
    destruct (El name). reflexivity.
  - exact I.
Qed.

(** ** The states of an ECal module *)

Lemma query_trace (cmd : string) (fuel : nat) (s s' : session)
    (r : outcome string) (t : list event) :
  query cmd fuel s = (r, s', t) -> t = [Query cmd].
Proof.
  unfold query. destruct (visa_query cmd (timeout s) (device s)) as [x d].
  intros H. inversion H. reflexivity.
Qed.

Lemma int_trace (x : string) (fuel : nat) (s s' : session) (r : outcome Z)
    (t : list event) :
  int_ x fuel s = (r, s', t) -> t = [].
Proof.
  unfold int_. destruct (Py.int_of_str x); intros H; inversion H; reflexivity.
Qed.

Lemma path_counts (ecalNum : Z) (ps : list string) :
  forall (acc : dict Z) (fuel : nat) (s s' : session) (d : dict Z)
         (t : list event),
    for_fold ps
      (fun p stateDict =>
         r <- query ("sense:correction:ckit:ecal" ++ Py.str_of_Z ecalNum
                     ++ ":path:count? " ++ p) ;;
         numStates <- int_ (Py.replace_char "+" EmptyString (Py.strip r)) ;;
         ret (dict_set p numStates stateDict))
      acc fuel s = (Ok d, s', t) ->
    NoDup (map fst acc ++ ps) ->
    map fst d = (map fst acc ++ ps)%list
    /\ t = map (fun p => Query ("sense:correction:ckit:ecal"
                                ++ Py.str_of_Z ecalNum ++ ":path:count? "
                                ++ p)) ps.
Proof.
  induction ps as [|p ps IH]; intros acc fuel s s' d t H Hn; simpl in H.
  - inversion H; subst. rewrite app_nil_r. split; reflexivity.
  - apply bind_inv_ok in H. destruct H as (d1 & s1 & t1 & t2 & E1 & E2 & ->).
    apply bind_inv_ok in E1. destruct E1 as (r & s2 & t3 & t4 & Eq & E1 & ->).
    apply bind_inv_ok in E1. destruct E1 as (n & s3 & t5 & t6 & Ei & E1 & ->).
    apply query_trace in Eq. apply int_trace in Ei. inversion E1; subst.
    assert (Hp : ~ In p (map fst acc)).
    { apply NoDup_remove_2 in Hn. intros Hin. apply Hn.
      apply in_or_app. left. exact Hin. }
    rewrite (dict_set_fresh p n acc Hp) in E2.
    apply IH in E2.
    + destruct E2 as [Hk Ht]. rewrite Hk, Ht, map_app, <- app_assoc.
      split; reflexivity.
    + rewrite map_app, <- app_assoc. exact Hn.
Qed.

(** X20: a call of [get_ecal_module_states] that returns was made with
    [numPorts] 2 or 4; it has asked for the state count of each port path
    once, in the fixed order of the paths, and nothing else, and the
    dictionary it returns has exactly those paths as its keys, in that
    order. *)
Theorem ecal_module_states_has_one_entry_per_path (ecalNum numPorts : Z)
    (fuel : nat) (s s' : session) (stateDict : dict Z) (tr : list event) :
  get_ecal_module_states ecalNum numPorts fuel s = (Ok stateDict, s', tr) ->
  (numPorts = 2 \/ numPorts = 4)
  /\ map fst stateDict = port_paths numPorts
  /\ tr = map (fun p => Query ("sense:correction:ckit:ecal"
                               ++ Py.str_of_Z ecalNum ++ ":path:count? "
                               ++ p)) (port_paths numPorts).
Proof.
  unfold get_ecal_module_states, port_paths. intros H.
  apply bind_inv_ok in H. destruct H as (ps & s1 & t1 & t2 & E1 & E2 & ->).
  destruct (Z.eqb_spec numPorts 2) as [->|N2].
  - inversion E1; subst. apply path_counts in E2.
    + destruct E2 as [Hk Ht]. split; [left; reflexivity|].
      split; [exact Hk|exact Ht].
    + simpl. repeat constructor; simpl; intuition discriminate.
  - destruct (Z.eqb_spec numPorts 4) as [->|N4]; [|discriminate E1].
    inversion E1; subst. apply path_counts in E2.
    + destruct E2 as [Hk Ht]. split; [right; reflexivity|].
      split; [exact Hk|exact Ht].
    + simpl. repeat constructor; simpl; intuition discriminate.
Qed.

End FurtherFacts.

(** * Worked examples on the bench instrument *)

Import Bench.

(** *** C1 *)

(** Runs one attempt of the goal [rejections a fuel _ s _ _] and files it
    under the constructor that fits. *)
Ltac attempt :=
  lazymatch goal with
  | |- rejections ?a ?fuel _ ?s _ _ =>
      let v := eval vm_compute in (a fuel s) in
      let E := fresh "E" in
      assert (E : a fuel s = v) by reflexivity;
      first [ eapply accepted; exact E | eapply rejected; [exact E|] ]
  end.

(** The bench standard is rejected twice and accepted the third time. *)
Lemma rejected_twice_then_accepted :
  fst (fst (measure_until_success 1 1 60000 1 3%nat cal_session)) = Ok 1
  /\ issued (acquire 1 1)
       (snd (measure_until_success 1 1 60000 1 3%nat cal_session)) = 3%nat.
Proof.
  edestruct (rejected_standard_is_retried_until_accepted 1 1 60000 1 3%nat
               2%nat cal_session) as (Hrun & _ & Hi).
  - attempt. attempt. attempt.
  - lia.
  - rewrite Hrun. split; [reflexivity|exact Hi].
Defined.

(** No bounded policy: at the defaults of [run_cal], which has no retry
    argument, the run whose standard is rejected twice does not stop after
    the second attempt; it makes the third and saves. *)
Lemma run_cal_does_not_give_up :
  fst (fst (bench_run_cal 3%nat)) = Ok tt
  /\ issued (acquire 1 1) (snd (bench_run_cal 3%nat)) = 3%nat
  /\ issued (save_cset 1 "my cal_20250507_09-03-41")
       (snd (bench_run_cal 3%nat)) = 1%nat.
Proof. vm_compute. repeat split. Qed.

(** With fuel for two rounds only, the model is cut short in the loop, not
    by the driver: nothing is raised and nothing more is written. *)
Example two_rounds_are_not_enough :
  fst (fst (bench_run_cal 2%nat)) = OutOfFuel.
Proof. vm_compute. reflexivity. Qed.

(** *** C2 *)

Lemma seven_values_decode_as_six :
  decode_block "a" 2 long_block = Ok ([1; 2], [(3, 5); (4, 6)]).
Proof.
  exact (decode_block_ignores_excess "a" 2 long_block
           ltac:(lia) ltac:(vm_compute; discriminate)).
Defined.

(** A block of seven values against two points and three runs: no error,
    and the seventh value is gone from the result. *)
Lemma odd_block_is_truncated :
  Z.of_nat (List.length long_block) mod (2 * 3) = 1
  /\ fst (fst (get_ecal_sparam_data 1 0 0%nat
                 (open_session (ecal_bench long_block))))
     = Ok ([1; 2], [(3, 5); (4, 6)]).
Proof. vm_compute. split; reflexivity. Qed.

(** A block one value short of the third run is not refused either: numpy
    stretches the one-value run over the other. *)
Example short_block_is_broadcast :
  decode_block "a" 2 [1; 2; 3; 4; 5] = Ok ([1; 2], [(3, 5); (4, 5)]).
Proof. reflexivity. Qed.

(** *** C3 *)

Lemma third_trace_of_a_full_window :
  exists nextTrace,
    fst (fst (next_trace_slot 1 0%nat bench_session)) = Ok nextTrace
    /\ nextTrace = 3
    /\ ~ In (Py.str_of_Z nextTrace) (listed_traces two_listed).
Proof.
  destruct (next_trace_is_count_plus_one 1 two_listed 0%nat bench_session
              (device bench_session) eq_refl)
    as (n & Hrun & _ & Hcount & _ & _ & Hfree).
  exists n. split; [exact Hrun|]. split.
  - apply Hcount. vm_compute. reflexivity.
  - apply Hfree; [vm_compute; reflexivity|].
    intros e [<-|[<-|[]]]; [exists 1|exists 2];
      (split; [vm_compute; split; discriminate|reflexivity]).
Defined.

(** Traces 1 and 3 listed: the code counts two entries and feeds the new
    measurement into trace 3, which the catalog lists. *)
Lemma next_trace_can_be_taken :
  listed_traces gap_listed = ["1"; "3"]
  /\ fst (fst (next_trace_slot 1 0%nat gap_session)) = Ok 3
  /\ issued (feed 1 3 "ReturnLoss")
       (snd (new_sparam_trace "ReturnLoss" "S11" 1 1 0%nat gap_session))
     = 1%nat.
Proof. vm_compute. repeat split. Qed.

(** *** C4 *)



(** *** C5 *)

Lemma even_catalog_listing :
  exists result,
    fst (fst (get_meas_names 1 1 0%nat bench_session)) = Ok result
    /\ result = NameDict [("CH1_S11_1", "S11"); ("gain", "S21")].
Proof.
  destruct (get_meas_names_reads_tokens_in_pairs 1 1
              (quoted "CH1_S11_1,S11,gain,S21" ++ nl) 0%nat bench_session
              (device bench_session) eq_refl)
    as (result & Hrun & Hres).
  exists result. split; [exact Hrun|].
  destruct result as [names|measDict].
  - destruct Hres as [H _]. discriminate H.
  - destruct Hres as (_ & _ & H). rewrite H; [reflexivity|].
    vm_compute. repeat constructor; simpl; intuition discriminate.
Defined.

(** Three tokens: both forms return, the plain one with the unpaired token
    as a name, the mapping one without it. *)
Lemma odd_catalog_is_not_refused :
  catalog_tokens odd_catalog = ["a"; "S11"; "b"]
  /\ fst (fst (get_meas_names 1 0 0%nat
                 (open_session (catalog_bench odd_catalog))))
     = Ok (NameList ["a"; "b"])
  /\ fst (fst (get_meas_names 1 1 0%nat
                 (open_session (catalog_bench odd_catalog))))
     = Ok (NameDict [("a", "S11")]).
Proof. vm_compute. repeat split. Qed.

(** *** C6 *)



Example stamped_name_in_full :
  snd (finalize a_morning "my cal" 1 1 0%nat cal_session)
  = [Write (save_cset 1 "my cal_20250507_09-03-41")]
  /\ snd (finalize a_morning "my cal" 0 1 0%nat cal_session)
     = [Write (save_cset 1 "my cal")].
Proof. vm_compute. split; reflexivity. Qed.

(** *** C7 *)

(** C7 at work in [configure_mod_sweep] and [configure_sa_sweep]: a
    [powerContext] outside din1 and dout2 is rejected only after four
    commands have gone out, and a [detectorType] outside the valid list
    after four as well, so the instrument is left half configured.  The
    [sweepType] check of [configure_mod_sweep] stands before its first
    write. *)
Theorem late_validation_leaves_commands_sent :
  fst (fst (bench_mod_sweep "fixed" "din3"))
  = Raise (ValueError "Invalid 'powerContext', must be 'din1' or 'dout2'.")
  /\ snd (bench_mod_sweep "fixed" "din3")
     = [Write "sense1:distortion:sweep:type fixed";
        Write "sense1:distortion:sweep:carrier:frequency 1000000000";
        Write "sense1:frequency:span 300000000";
        Write "sense1:sa:bandwidth:noise 200"]
  /\ fst (fst (bench_sa_sweep "rms"))
     = Raise (ValueError "Invalid 'detectorType', must be 'peak', 'average', 'sample', 'normal', 'negpeak', 'psample', 'paverage', or 'faspeak'.")
  /\ snd (bench_sa_sweep "rms")
     = [Write "sense1:frequency:start 500000000";
        Write "sense1:frequency:stop 1500000000";
        Write "sense1:sweep:points 801";
        Write "sense1:sa:detector:bypass:state 0"].
Proof. vm_compute. repeat split. Qed.

Example bad_sweep_type_sends_nothing :
  fst (fst (bench_mod_sweep "cw" "din1"))
  = Raise (ValueError "Invalid 'sweepType', must be 'fixed' or 'power'.")
  /\ snd (bench_mod_sweep "cw" "din1") = [].
Proof. vm_compute. split; reflexivity. Qed.

(** *** C8 *)

(** C8 at work in [new_sparam_trace]: the catalog reply of an instrument
    with windows 1 and 2 open is the quoted list followed by a line feed.
    Split at the comma it gives two pieces, neither of which is the text
    1 or the text 2, so the window counts as absent and is turned on
    although the catalog lists it. *)
Theorem listed_window_is_turned_on_again :
  Py.split_on "," two_listed = [dq ++ "1"; "2" ++ dq ++ nl]
  /\ window_absent 1 two_listed = true
  /\ window_absent 2 two_listed = true
  /\ writes (snd (new_sparam_trace "ReturnLoss" "S11" 1 1 0%nat
                    bench_session))
     = ["calc1:parameter:define:extended " ++ quoted "ReturnLoss" ++ ", "
        ++ quoted "S11";
        "display:window1:state on";
        "display:window1:trace3:feed " ++ quoted "ReturnLoss"].
Proof. vm_compute. repeat split. Qed.

(** A window in the middle of the list is found. *)
Example middle_window_is_found :
  window_absent 2 (quoted "1,2,3" ++ nl) = false.
Proof. reflexivity. Qed.

(** *** C9 *)

Lemma long_acquisition_restores_timeout :
  fst (fst (wait_for_opc (Some 60000) 0%nat cal_session)) = Ok tt
  /\ timeout (snd (fst (wait_for_opc (Some 60000) 0%nat cal_session)))
     = 10000.
Proof.
  split; [vm_compute; reflexivity|].
  apply (wait_for_opc_keeps_timeout (Some 60000) 0%nat cal_session
           (snd (fst (wait_for_opc (Some 60000) 0%nat cal_session)))
           (Ok tt)
           (snd (wait_for_opc (Some 60000) 0%nat cal_session))).
  - reflexivity.
  - left. reflexivity.
Defined.

(** When the barrier times out under the temporary timeout, the temporary
    value stays. *)
Example timed_out_barrier_keeps_temporary_timeout :
  fst (fst (wait_for_opc (Some 15000) 0%nat cal_session)) = Raise VisaIOError
  /\ timeout (snd (fst (wait_for_opc (Some 15000) 0%nat cal_session)))
     = 15000.
Proof. vm_compute. split; reflexivity. Qed.

(** *** C10 *)


(** ** Further properties on the bench *)

(** *** X1 *)

(** Reads the error queue once for the goal [drained fuel _ s _ _] and
    files the reading under the constructor that fits. *)
Ltac drain :=
  lazymatch goal with
  | |- drained ?fuel _ ?s _ _ =>
      let v := eval vm_compute in (read_error fuel s) in
      let E := fresh "E" in
      assert (E : read_error fuel s = v) by reflexivity;
      first [ eapply drained_empty; exact E
            | eapply drained_next; [exact E|vm_compute; discriminate|] ]
  end.

Lemma two_queued_errors_are_reported :
  fst (fst (err_check 2%nat faulted_session))
  = Raise (InstrumentErrors faulted_report)
  /\ snd (err_check 2%nat faulted_session)
     = [Query "syst:err?"; Query "syst:err?"; Query "syst:err?"].
Proof.
  edestruct (err_check_reports_whole_queue 2%nat faulted_report
               faulted_session) as [Hrun Htr].
  - drain. drain. drain.
  - simpl. lia.
  - rewrite Hrun. split; [reflexivity|exact Htr].
Defined.

(** *** X2 *)

Lemma reported_errors_have_lost_their_sign :
  fst (fst (err_check 2%nat faulted_session))
  = Raise (InstrumentErrors faulted_report)
  /\ Forall unsigned_text faulted_report.
Proof.
  split; [vm_compute; reflexivity|].
  apply (err_check_messages_are_unsigned 2%nat faulted_session
           (snd (fst (err_check 2%nat faulted_session))) faulted_report
           (snd (err_check 2%nat faulted_session))).
  reflexivity.
Defined.

(** *** X3 *)

Lemma short_temporary_timeout_stays :
  timeout (snd (fst (wait_for_opc (Some 15000) 0%nat cal_session))) = 15000.
Proof.
  apply (failed_barrier_keeps_temporary_timeout 15000 0%nat cal_session
           (snd (fst (wait_for_opc (Some 15000) 0%nat cal_session)))
           VisaIOError
           (snd (wait_for_opc (Some 15000) 0%nat cal_session))).
  - discriminate.
  - reflexivity.
Defined.

(** *** X5 *)

Lemma missing_cal_set_only_reads_the_catalog :
  snd (load_cal_set "missing_STD" 1 1 0%nat bench_session)
  = [Query "cset:catalog?"].
Proof.
  apply (unlisted_cal_set_is_refused_untouched "missing_STD" 1 1 0%nat
           bench_session
           (snd (fst (load_cal_set "missing_STD" 1 1 0%nat bench_session)))
           "Selected cal set does not exist."
           (snd (load_cal_set "missing_STD" 1 1 0%nat bench_session))).
  reflexivity.
Defined.

(** *** X6 *)

(** The catalog of the bench reads CalSet_1,base_STD between its quotes;
    a cal set of that very name is not found in it. *)
Lemma catalog_text_is_no_cal_set :
  exists e s',
    load_cal_set "CalSet_1,base_STD" 1 1 0%nat bench_session
    = (Raise e, s', [Query "cset:catalog?"])
    /\ (e = VisaIOError \/ e = ValueError "Selected cal set does not exist.").
Proof.
  apply (cal_set_name_with_comma_or_quote_is_never_loaded
           "CalSet_1,base_STD" 1 1 0%nat bench_session).
  left. reflexivity.
Defined.

(** *** X7 *)

(** The gain compression parameters are looked up as written: s21 in
    lower case is refused. *)
Lemma lower_case_parameter_is_refused :
  exists msg,
    new_gca_trace "Gain" "s21" 0 1 1 0%nat bench_session
    = (Raise (ValueError msg), bench_session, []).
Proof.
  apply (trace_creators_validate_first "Gain" "s21" 0 1 1 gca_validParams
           (new_gca_trace "Gain" "s21" 0 1 1)).
  - right. right. left. reflexivity.
  - reflexivity.
Defined.

(** *** X8 *)

Lemma two_stage_on_the_bench :
  writes (snd bench_two_stage)
  = ["CSET:DELete " ++ quoted "final";
     "cset:fixture:deembed " ++ quoted "base_STD" ++ ","
     ++ quoted "intermediate" ++ "," ++ quoted "a.s2p" ++ ",1,1,0";
     "cset:fixture:deembed " ++ quoted "intermediate" ++ ","
     ++ quoted "final" ++ "," ++ quoted "b.s2p" ++ ",2,1,0"].
Proof.
  apply (two_stage_path_writes_two_commands "base_STD" "final" "a.s2p"
           "b.s2p" 0 0 0 1 0%nat bench_session (snd (fst bench_two_stage))
           (snd bench_two_stage)).
  reflexivity.
Defined.

(** *** X9 *)

(** Five values against three points: the second run has two of its
    three values and the third run none. *)
Lemma five_values_against_three_points :
  exists e, decode_block "a" 3 [1; 2; 3; 4; 5] = Raise e.
Proof.
  apply (decode_block_fails_on_a_partial_run (FL := whole_floats) "a" 3
           [1; 2; 3; 4; 5]).
  - reflexivity.
  - lia.
  - left. simpl. lia.
Defined.

(** *** X10 *)

Lemma bench_catalog_is_recovered :
  fst (fst (get_meas_names 1 0 0%nat bench_session))
  = Ok (NameList ["CH1_S11_1"; "gain"]).
Proof.
  apply (get_meas_names_recovers_the_catalog 1 0
           [("CH1_S11_1", "S11"); ("gain", "S21")] 0%nat bench_session
           (device bench_session)).
  - discriminate.
  - repeat (constructor; [split; reflexivity|]). constructor.
  - reflexivity.
  - reflexivity.
Defined.

(** *** X11 *)

Lemma missing_base_cal_set_is_a_deembed_failure :
  fst (fst (bench_compose "missing_STD"))
  = Raise (ValueError "Selected cal set does not exist.")
  /\ deembed_failure (ValueError "Selected cal set does not exist.").
Proof.
  split; [vm_compute; reflexivity|].
  apply (deembed_calset_failures "missing_STD" "final" "a.s2p" "b.s2p"
           1 0 0 0 1 3%nat bench_session
           (snd (fst (bench_compose "missing_STD")))
           (ValueError "Selected cal set does not exist.")
           (snd (bench_compose "missing_STD"))).
  reflexivity.
Defined.

(** *** X12 and X13 *)

(** The correction fails four times; the call returns all the same. *)
Lemma failed_source_correction_returns :
  issued (source_acquire 1) (snd (bench_source_cal 4%nat)) = 4%nat
  /\ (fst (fst (bench_source_cal 4%nat)) = Ok tt
      \/ fst (fst (bench_source_cal 4%nat)) = Raise VisaIOError).
Proof.
  split; [vm_compute; reflexivity|].
  apply (source_correction_failure_is_not_reported 60000 "VXT" 1 3 1 4%nat
           (open_session source_bench)).
  simpl. lia.
Defined.

Example failed_source_correction_in_full :
  fst (fst (bench_source_cal 4%nat)) = Ok tt.
Proof. vm_compute. reflexivity. Qed.

(** *** X14 *)

Lemma unknown_connector_writes_nothing :
  writes (snd (bench_smart_cal ["SMA female"; "APC 3.5 female"]
                 ["85052D"; "85052D"])) = [].
Proof.
  eapply (smart_cal_is_checked_before_it_is_written listing 2
            ["SMA female"; "APC 3.5 female"] ["85052D"; "85052D"] 1 0%nat
            (open_session smart_bench)
            (snd (fst (bench_smart_cal ["SMA female"; "APC 3.5 female"]
                         ["85052D"; "85052D"])))).
  reflexivity.
Defined.

(** *** X15 *)


(** *** X16 *)

Lemma register_six_is_unleveled :
  fst (fst (source_unleveled_check 0%nat (open_session unleveled_bench)))
  = Raise (ValueError "VNA source is unleveled.").
Proof.
  apply (unleveled_check_reads_bit_two 0%nat (open_session unleveled_bench)
           ("+6" ++ nl) unleveled_bench 6).
  - reflexivity.
  - reflexivity.
Defined.

(** *** X17 *)

(** A channel without measurements answers NO CATALOG, and that is the
    one name returned. *)
Lemma empty_channel_has_one_name :
  fst (fst (get_meas_names 1 0 0%nat (open_session empty_channel_bench)))
  = Ok (NameList ["NO CATALOG"])
  /\ exists first rest, ["NO CATALOG"] = first :: rest.
Proof.
  split; [vm_compute; reflexivity|].
  apply (get_meas_names_is_never_empty 1 0 0%nat
           (open_session empty_channel_bench)
           (snd (fst (get_meas_names 1 0 0%nat
                        (open_session empty_channel_bench))))
           ["NO CATALOG"]
           (snd (get_meas_names 1 0 0%nat
                   (open_session empty_channel_bench)))).
  reflexivity.
Defined.

(** *** X18 *)


(** *** X19 *)

Lemma stateless_module_has_no_data :
  fst (fst (get_ecal_sparam_data 1 0 0%nat (open_session stateless_ecal_bench)))
  = Raise (UnboundLocalError "freq")
  /\ fetches (snd (get_ecal_sparam_data 1 0 0%nat
                     (open_session stateless_ecal_bench))) = 0%nat.
Proof.
  split; [vm_compute; reflexivity|].
  apply (ecal_data_is_unbound_when_nothing_was_fetched 1 0 0%nat
           (open_session stateless_ecal_bench)
           (snd (fst (get_ecal_sparam_data 1 0 0%nat
                        (open_session stateless_ecal_bench))))
           (Raise (UnboundLocalError "freq"))).
  reflexivity.
Defined.

(** *** X20 *)

Lemma bench_module_states :
  fst (fst (get_ecal_module_states 1 2 0%nat
              (open_session (ecal_bench long_block))))
  = Ok [("a", 1); ("b", 0); ("ab", 0)]
  /\ snd (get_ecal_module_states 1 2 0%nat
            (open_session (ecal_bench long_block)))
     = [Query "sense:correction:ckit:ecal1:path:count? a";
        Query "sense:correction:ckit:ecal1:path:count? b";
        Query "sense:correction:ckit:ecal1:path:count? ab"].
Proof.
  split; [vm_compute; reflexivity|].
  apply (ecal_module_states_has_one_entry_per_path 1 2 0%nat
           (open_session (ecal_bench long_block))
           (snd (fst (get_ecal_module_states 1 2 0%nat
                        (open_session (ecal_bench long_block)))))
           [("a", 1); ("b", 0); ("ab", 0)]
           (snd (get_ecal_module_states 1 2 0%nat
                   (open_session (ecal_bench long_block))))).
  reflexivity.
Defined.
